(** * ECU simulator (MegaSquirt simplified dash): codec, scheduler,
      transports and transmission loop

    Shallow embedding of
      - [dbc_codec.py]   (raw limits, raw/physical conversion, safe encoding),
      - [dbc_loader.py]  (the layout gate [assert_expected_layout]),
      - [scheduler.py]   (fixed-rate scheduler on a monotonic clock),
      - [telemetry.py]   (the rate-limited telemetry writer),
      - [transport.py]   (the three transport classes: open, send and close),
      - [can_bus.py]     (the bus object the runner holds),
      - [scenarios.py], [ms_signals.py] (the pull scenario, the MAP bounds,
        the signal lists),
      - [bitrate.py], [cli_runner.py]  (the settings check, payload building
        and the per-tick send / reopen loop).

    Conventions of the embedding.
      - A Python [int] is a [Z].
      - A Python [float] is a [pyfloat]: an exact rational when finite, or
        one of the three non-finite values.  Arithmetic on finite values is
        exact: the rounding of binary64, and its overflow to an infinity,
        are not part of this model.
      - A Python [dict] keyed by strings is a [gmap string _].
      - A call that may raise returns a [result]; the exceptions caught by
        an [except Exception] clause are the inhabitants of [exn].
      - Calls into the environment (the CAN link, the serial port, the
        clock, the stop flag, cantools' [Message.encode]) take their outcome
        as an argument. *)

From Stdlib Require Import ZArith QArith Qround Qabs Qminmax Lia Lra Psatz.
From Stdlib.Strings Require Import Ascii String Byte.
From Stdlib Require Import Sorted.
From stdpp Require Import base gmap strings list.

(** ** Python values *)

Module Py.

Inductive exn : Type :=
| ValueError
| TypeError
| ZeroDivisionError
| OverflowError
| RuntimeError
| CanError
| LibusbError
| SerialException
| EncodeError
| OSError.

Inductive result (A : Type) : Type :=
| Ok (a : A)
| Raise (e : exn).

Arguments Ok {A} a.
Arguments Raise {A} e.

(** Sequencing: an exception of the first call skips the rest. *)
#[export] Instance result_bind : MBind result := fun A B k r =>
  match r with
  | Ok a => k a
  | Raise e => Raise e
  end.

Definition raises {A : Type} (r : result A) : bool :=
  match r with
  | Ok _ => false
  | Raise _ => true
  end.

(** [float] values. *)
Inductive pyfloat : Type :=
| Finite (q : Q)
| PosInf
| NegInf
| NaN.

(** An object handed in where a number is expected ([Dict[str, Any]]):
    either something [float()] converts, together with the float it
    converts to, or something for which [float()] raises. *)
Inductive pyobj : Type :=
| Num (f : pyfloat)
| NotNum (repr : string).

(** [float(obj)] *)
Definition py_float (o : pyobj) : result pyfloat :=
  match o with
  | Num f => Ok f
  | NotNum _ => Raise ValueError
  end.

(** [math.isfinite] *)
Definition isfinite (f : pyfloat) : bool :=
  match f with
  | Finite _ => true
  | _ => false
  end.

(** [round(x)] on a finite float: nearest integer, ties to the even one. *)
Definition py_round (q : Q) : Z :=
  let f := Qfloor q in
  match (q - inject_Z f ?= 1 # 2)%Q with
  | Lt => f
  | Gt => (f + 1)%Z
  | Eq => if Z.even f then f else (f + 1)%Z
  end.

(** [a << n] on ints: a negative shift count raises [ValueError]. *)
Definition py_shiftl (a n : Z) : result Z :=
  if (n <? 0)%Z then Raise ValueError else Ok (Z.shiftl a n).

End Py.

Import Py.

(** ** [dbc_codec.py] *)

Module DbcCodec.

Inductive ByteOrder : Type := big_endian | little_endian.

#[export] Instance ByteOrder_eq_dec : EqDecision ByteOrder.
Proof. solve_decision. Defined.

(** The fields of [cantools.database.Signal] the codec and the loader
    read. *)
Record Signal : Type := mkSignal {
  sig_name : string;
  start : Z;
  length : Z;
  byte_order : ByteOrder;
  is_signed : bool;
  scale : Q;
  offset : Q
}.

(** The fields of [cantools.database.Message] the runner reads. *)
Record Message : Type := mkMessage {
  frame_id : Z;
  msg_name : string;
  msg_length : Z;
  is_extended_frame : bool;
  signals : list Signal
}.

(** [raw_limits(sig)] *)
Definition raw_limits (sig : Signal) : result (Z * Z) :=
  let bits := length sig in
  if is_signed sig then
    p ← py_shiftl 1 (bits - 1);
    p' ← py_shiftl 1 (bits - 1);
    Ok ((- p)%Z, (p' - 1)%Z)
  else
    p ← py_shiftl 1 bits;
    Ok (0%Z, (p - 1)%Z).

(** [to_raw(sig, phys)]: [round((phys - sig.offset) / sig.scale)].
    Float division by zero raises; [round] of an infinity or of a NaN
    raises.  The quotient of finite values is finite here. *)
Definition to_raw (sig : Signal) (phys : pyfloat) : result Z :=
  if Qeq_bool (scale sig) 0 then Raise ZeroDivisionError
  else match phys with
       | Finite x => Ok (py_round ((x - offset sig) / scale sig))
       | PosInf | NegInf => Raise OverflowError
       | NaN => Raise ValueError
       end.

(** [to_phys(sig, raw)]: [raw * sig.scale + sig.offset] *)
Definition to_phys (sig : Signal) (raw : Z) : Q :=
  (inject_Z raw * scale sig + offset sig)%Q.

(** [_clamp_raw(sig, raw_val)] *)
Definition _clamp_raw (sig : Signal) (raw_val : Z) : result (Z * bool) :=
  '(lo, hi) ← raw_limits sig;
  if (raw_val <? lo)%Z then Ok (lo, true)
  else if (raw_val >? hi)%Z then Ok (hi, true)
  else Ok (raw_val, false).

(** An entry of the [clamped] dict: [{"requested": ..., "sent": ...}]. *)
Record ClampEntry : Type := mkClampEntry {
  requested_of : pyobj;
  sent_of : Q
}.

(** What one iteration of the [for sig in msg.signals] loop computes. *)
Record SignalOutcome : Type := mkSignalOutcome {
  so_raw : Z;
  so_raw_clamped : Z;
  so_was_clamped : bool;
  so_phys_used : Q
}.

(** The part of the loop body of [encode_message_safe] before the dict
    updates.  The log lines and the warn-once cache are left out: they do
    not act on the values. *)
Definition encode_signal (sig : Signal) (requested : pyobj) : result SignalOutcome :=
  let phys_val :=
    match py_float requested with
    | Ok f => f
    | Raise _ => Finite 0
    end in
  let phys_val := if isfinite phys_val then phys_val else Finite 0 in
  let raw :=
    match to_raw sig phys_val with
    | Ok r => r
    | Raise _ => 0%Z
    end in
  '(raw_clamped, was_clamped) ← _clamp_raw sig raw;
  let phys_used := to_phys sig raw_clamped in
  Ok (mkSignalOutcome raw raw_clamped was_clamped phys_used).

(** The [for sig in msg.signals] loop, threading the two dicts. *)
Fixpoint encode_signals (sigs : list Signal) (desired_phys : gmap string pyobj)
    (used_phys : gmap string Q) (clamped : gmap string ClampEntry)
    : result (gmap string Q * gmap string ClampEntry) :=
  match sigs with
  | [] => Ok (used_phys, clamped)
  | sig :: rest =>
      let requested := default (Num (Finite 0)) (desired_phys !! sig_name sig) in
      o ← encode_signal sig requested;
      let used_phys := <[sig_name sig := so_phys_used o]> used_phys in
      let clamped :=
        if so_was_clamped o
        then <[sig_name sig := mkClampEntry requested (so_phys_used o)]> clamped
        else clamped in
      encode_signals rest desired_phys used_phys clamped
  end.

Section WithCantools.

(** [msg.encode(used_phys)] of cantools: the bit packing itself is the
    library's; it either returns the payload or raises. *)
Variable cantools_encode : Message -> gmap string Q -> result (list byte).

(** [encode_message_safe(msg, desired_phys)].  The exception of a failed
    [msg.encode] is logged, counted and raised again. *)
Definition encode_message_safe (msg : Message) (desired_phys : gmap string pyobj)
    : result (list byte * gmap string Q * gmap string ClampEntry) :=
  '(used_phys, clamped) ← encode_signals (signals msg) desired_phys ∅ ∅;
  payload ← cantools_encode msg used_phys;
  Ok (payload, used_phys, clamped).

End WithCantools.

End DbcCodec.

(** ** [scheduler.py] *)

Module Scheduler.

Record FixedRateScheduler : Type := mkScheduler {
  hz : Q;
  dt : Q;
  _start : option Q;
  _next : option Q
}.

(** [FixedRateScheduler.__init__(hz)] *)
Definition init (hz : Q) : result FixedRateScheduler :=
  if Qle_bool hz 0 then Raise ValueError
  else Ok (mkScheduler hz (1 / hz) None None).

(** [start()]; [now] is the value of [time.monotonic()]. *)
Definition start (now : Q) (s : FixedRateScheduler) : FixedRateScheduler :=
  mkScheduler (hz s) (dt s) (Some now) (Some (now + dt s)%Q).

(** The readings of [time.monotonic()] a call of [wait_next] may take:
    inside [start()] when the scheduler was not started, at the top of the
    loop, and after the sleep. *)
Record Clock : Type := mkClock {
  clk_start : Q;
  clk_now : Q;
  clk_woke : Q
}.

Record WaitResult : Type := mkWaitResult {
  wr_sched : FixedRateScheduler;
  wr_slept : option Q;
  wr_elapsed : Q
}.

(** The scheduler at the top of the [while True] loop of [wait_next],
    with the values of [_start] and [_next]. *)
Definition ensure_started (clk : Clock) (s : FixedRateScheduler)
    : FixedRateScheduler * Q * Q :=
  match _start s, _next s with
  | Some st, Some nx => (s, st, nx)
  | _, _ =>
      let s' := start (clk_start clk) s in
      (s', clk_start clk, (clk_start clk + dt s)%Q)
  end.

(** [wait_next()].  The loop body returns in its first iteration.
    [wr_slept] is the argument of [time.sleep], if it was called. *)
Definition wait_next (clk : Clock) (s : FixedRateScheduler) : WaitResult :=
  let '(s, start_v, next_v) := ensure_started clk s in
  let now := clk_now clk in
  let sleep_time := (next_v - now)%Q in
  let '(now, next_v, slept) :=
    if Qle_bool sleep_time 0
    then (now, now, None)                       (* late: realign *)
    else (clk_woke clk, next_v, Some sleep_time) in
  let next_v := (next_v + dt s)%Q in
  (* [self._start or now]: a start time of 0.0 is falsy *)
  let base := if Qeq_bool start_v 0 then now else start_v in
  mkWaitResult (mkScheduler (hz s) (dt s) (_start s) (Some next_v))
               slept (now - base)%Q.

End Scheduler.

(** ** [transport.py] and [transports/termux_libusb_slcan.py] *)

Module Transport.

(** *** Frame text *)

Definition hex_digit (d : Z) : ascii :=
  match d with
  | 0 => "0" | 1 => "1" | 2 => "2" | 3 => "3" | 4 => "4" | 5 => "5"
  | 6 => "6" | 7 => "7" | 8 => "8" | 9 => "9" | 10 => "A" | 11 => "B"
  | 12 => "C" | 13 => "D" | 14 => "E" | _ => "F"
  end%Z%char.

Fixpoint hex_digits (fuel : nat) (n : Z) (acc : string) : string :=
  let acc := String (hex_digit (n mod 16)) acc in
  match fuel with
  | O => acc
  | S fuel => if (n / 16 =? 0)%Z then acc else hex_digits fuel (n / 16) acc
  end.

Fixpoint zeros (k : nat) : string :=
  match k with
  | O => EmptyString
  | S k => String "0"%char (zeros k)
  end.

(** [format(n, "0<width>X")] for a non-negative [n]. *)
Definition hexX (width : nat) (n : Z) : string :=
  let digits := hex_digits (Z.to_nat (Z.log2 n)) n EmptyString in
  (zeros (width - String.length digits) ++ digits)%string.

(** [payload.hex().upper()] *)
Fixpoint bytes_hex (payload : list byte) : string :=
  match payload with
  | [] => EmptyString
  | b :: rest => (hexX 2 (Z.of_N (Byte.to_N b)) ++ bytes_hex rest)%string
  end.

Definition CR : string := String (ascii_of_nat 13) EmptyString.

(** What the environment answers to the calls one method makes on the
    underlying link.  Each field is consulted at most once per call of a
    transport method. *)
Record LinkEnv : Type := mkLinkEnv {
  (* libusb bulk transfer behind [TermuxUsbSlcan.write_ascii] *)
  bulk_rc : Z;
  bulk_transferred : Z;
  (* libusb calls of [TermuxUsbSlcan.close] *)
  usb_release_interface : result unit;
  usb_close : result unit;
  usb_exit : result unit;
  (* python-can bus *)
  bus_send : result unit;
  bus_shutdown : result unit;
  bus_close : result unit;
  (* pyserial port *)
  ser_write : result unit;
  ser_flush : result unit;
  ser_read_until : result (list byte);
  ser_close : result unit
}.

(** *** [TermuxUsbSlcan] (libusb handle) *)

Module UsbSlcan.

(** [_check(rc, msg)] *)
Definition _check (rc : Z) : result unit :=
  if (rc <? 0)%Z then Raise LibusbError else Ok tt.

(** [write_ascii(s)] *)
Definition write_ascii (env : LinkEnv) (s : string) : result unit :=
  _ ← _check (bulk_rc env);
  if (bulk_transferred env =? Z.of_nat (String.length s))%Z
  then Ok tt
  else Raise LibusbError.

(** [close()]: each libusb call sits in its own [try/except Exception:
    pass]. *)
Definition close (env : LinkEnv) : unit :=
  let _ := usb_release_interface env in
  let _ := usb_close env in
  let _ := usb_exit env in
  tt.

End UsbSlcan.

(** *** [TermuxUsbSlcanTransport] *)

Module Termux.

Record t : Type := mk {
  bitrate : Z;
  dev : option unit;
  tx_errors : Z
}.

Definition frame_text (frame_id : Z) (payload : list byte) (is_extended : bool)
    : string :=
  let dlc := Z.of_nat (List.length payload) in
  if is_extended
  then ("T" ++ hexX 8 frame_id ++ hexX 1 dlc ++ bytes_hex payload ++ CR)%string
  else ("t" ++ hexX 3 (Z.land frame_id 2047) ++ hexX 1 dlc
            ++ bytes_hex payload ++ CR)%string.

(** [send(frame_id, payload, is_extended)] *)
Definition send (env : LinkEnv) (s : t) (frame_id : Z) (payload : list byte)
    (is_extended : bool) : t * result bool :=
  match dev s with
  | None => (s, Raise RuntimeError)
  | Some _ =>
      let frame := frame_text frame_id payload is_extended in
      match UsbSlcan.write_ascii env frame with
      | Ok _ => (s, Ok true)
      | Raise e =>
          (* except Exception: self.tx_errors += 1; raise *)
          (mk (bitrate s) (dev s) (tx_errors s + 1), Raise e)
      end
  end.

(** [close()] *)
Definition close (env : LinkEnv) (s : t) : t * result unit :=
  match dev s with
  | Some _ =>
      let _ := UsbSlcan.close env in
      (mk (bitrate s) None (tx_errors s), Ok tt)
  | None => (s, Ok tt)
  end.

End Termux.

(** *** [PythonCanTransport] *)

Module PythonCan.

Record t : Type := mk {
  iface : string;
  channel : Z;
  bitrate : Z;
  bus : option unit;
  termux_usb : option unit;
  (* [getattr(self, "backend", None)]: not set by [__init__] *)
  backend : option string;
  tx_errors : Z
}.

Definition set_tx_errors (s : t) (n : Z) : t :=
  mk (iface s) (channel s) (bitrate s) (bus s) (termux_usb s) (backend s) n.

Definition set_bus (s : t) (b : option unit) : t :=
  mk (iface s) (channel s) (bitrate s) b (termux_usb s) (backend s) (tx_errors s).

(** The body of the [try] block of [send]. *)
Definition send_body (env : LinkEnv) (s : t) (frame_id : Z) (payload : list byte)
    (is_extended : bool) : result bool :=
  if decide (backend s = Some "termux-usb"%string) then
    match termux_usb s with
    | None => Raise RuntimeError
    | Some _ =>
        _ ← UsbSlcan.write_ascii env (Termux.frame_text frame_id payload is_extended);
        Ok true
    end
  else
    _ ← bus_send env;
    Ok true.

(** [send(frame_id, payload, is_extended)]: only [can.CanError] is
    caught. *)
Definition send (env : LinkEnv) (s : t) (frame_id : Z) (payload : list byte)
    (is_extended : bool) : t * result bool :=
  match bus s with
  | None => (s, Raise RuntimeError)
  | Some _ =>
      match send_body env s frame_id payload is_extended with
      | Ok b => (s, Ok b)
      | Raise CanError => (set_tx_errors s (tx_errors s + 1), Ok false)
      | Raise e => (s, Raise e)
      end
  end.

(** [close()] *)
Definition close (env : LinkEnv) (s : t) : t * result unit :=
  match bus s with
  | None => (s, Ok tt)
  | Some _ =>
      let _ := bus_shutdown env in   (* try: shutdown() except: pass *)
      let _ := bus_close env in      (* try: bus.close() except: pass *)
      (set_bus s None, Ok tt)
  end.

End PythonCan.

(** *** [SlcanSerialTransport] *)

Module SlcanSerial.

Record t : Type := mk {
  port : string;
  bitrate : Z;
  serial_baud : Z;
  skip_bitrate : bool;
  ser : option unit;
  tx_errors : Z
}.

Definition set_tx_errors (s : t) (n : Z) : t :=
  mk (port s) (bitrate s) (serial_baud s) (skip_bitrate s) (ser s) n.

Definition set_ser (s : t) (h : option unit) : t :=
  mk (port s) (bitrate s) (serial_baud s) (skip_bitrate s) h (tx_errors s).

(** [format_frame(frame_id, payload, is_extended)] *)
Definition format_frame (frame_id : Z) (payload : list byte) (is_extended : bool)
    : result string :=
  let dlc := Z.of_nat (List.length payload) in
  if (dlc >? 8)%Z then Raise ValueError
  else if is_extended then
    if ((frame_id >? 536870911) || (frame_id <? 0))%Z then Raise ValueError
    else Ok ("T" ++ hexX 8 frame_id ++ hexX 1 dlc ++ bytes_hex payload)%string
  else
    if ((frame_id >? 2047) || (frame_id <? 0))%Z then Raise ValueError
    else Ok ("t" ++ hexX 3 frame_id ++ hexX 1 dlc ++ bytes_hex payload)%string.

(** [_read_response(timeout_s)] with the port open: an exception of
    [read_until] yields [b""]. *)
Definition _read_response (env : LinkEnv) : list byte :=
  match ser_read_until env with
  | Ok resp => resp
  | Raise _ => []
  end.

Definition BEL : byte := x07.

(** [_write_cmd(cmd, expect_ack)] *)
Definition _write_cmd (env : LinkEnv) (s : t) (cmd : string) : result unit :=
  match ser s with
  | None => Raise RuntimeError
  | Some _ =>
      _ ← ser_write env;
      _ ← ser_flush env;
      let resp := _read_response env in
      if existsb (Byte.eqb BEL) resp then Raise RuntimeError else Ok tt
  end.

(** [send(frame_id, payload, is_extended)] *)
Definition send (env : LinkEnv) (s : t) (frame_id : Z) (payload : list byte)
    (is_extended : bool) : t * result bool :=
  match ser s with
  | None => (s, Raise RuntimeError)
  | Some _ =>
      match format_frame frame_id payload is_extended with
      | Raise e => (s, Raise e)
      | Ok frame =>
          match _write_cmd env s frame with
          | Ok _ => (s, Ok true)
          | Raise _ => (set_tx_errors s (tx_errors s + 1), Ok false)
          end
      end
  end.

(** [close()] *)
Definition close (env : LinkEnv) (s : t) : t * result unit :=
  match ser s with
  | None => (s, Ok tt)
  | Some _ =>
      let _ := _write_cmd env s "C" in   (* try ... except Exception: pass *)
      let _ := ser_close env in          (* try ... except Exception: pass *)
      (set_ser s None, Ok tt)
  end.

End SlcanSerial.

(** *** The variants of [CanTransport] *)

Inductive CanTransport : Type :=
| TermuxUsbSlcanTransport (s : Termux.t)
| PythonCanTransport (s : PythonCan.t)
| SlcanSerialTransport (s : SlcanSerial.t).

Definition tx_errors (tr : CanTransport) : Z :=
  match tr with
  | TermuxUsbSlcanTransport s => Termux.tx_errors s
  | PythonCanTransport s => PythonCan.tx_errors s
  | SlcanSerialTransport s => SlcanSerial.tx_errors s
  end.

(** The attribute holding the underlying link: [dev], [bus], [ser]. *)
Definition link (tr : CanTransport) : option unit :=
  match tr with
  | TermuxUsbSlcanTransport s => Termux.dev s
  | PythonCanTransport s => PythonCan.bus s
  | SlcanSerialTransport s => SlcanSerial.ser s
  end.

Definition send (env : LinkEnv) (tr : CanTransport) (frame_id : Z)
    (payload : list byte) (is_extended : bool) : CanTransport * result bool :=
  match tr with
  | TermuxUsbSlcanTransport s =>
      let '(s', r) := Termux.send env s frame_id payload is_extended in
      (TermuxUsbSlcanTransport s', r)
  | PythonCanTransport s =>
      let '(s', r) := PythonCan.send env s frame_id payload is_extended in
      (PythonCanTransport s', r)
  | SlcanSerialTransport s =>
      let '(s', r) := SlcanSerial.send env s frame_id payload is_extended in
      (SlcanSerialTransport s', r)
  end.

Definition close (env : LinkEnv) (tr : CanTransport) : CanTransport * result unit :=
  match tr with
  | TermuxUsbSlcanTransport s =>
      let '(s', r) := Termux.close env s in (TermuxUsbSlcanTransport s', r)
  | PythonCanTransport s =>
      let '(s', r) := PythonCan.close env s in (PythonCanTransport s', r)
  | SlcanSerialTransport s =>
      let '(s', r) := SlcanSerial.close env s in (SlcanSerialTransport s', r)
  end.

End Transport.

(** ** [cli_runner.py]: payload building and the send / reopen loop *)

Module CliRunner.

Import DbcCodec.

(** [mode] after [validate_startup]: one of [VALID_MODES]. *)
Inductive Mode : Type := loop | koeo | idle | pull | custom | silent.

#[export] Instance Mode_eq_dec : EqDecision Mode.
Proof. solve_decision. Defined.

(** [min(a, b)] of Python on two floats. *)
Definition py_min (a b : Q) : Q :=
  match (b ?= a)%Q with
  | Lt => b
  | _ => a
  end.

Section WithCantools.

Variable cantools_encode : Message -> gmap string Q -> result (list byte).

(** The inner loop of [_build_payloads]: the desired values of one
    message, one per distinct bit range. *)
Fixpoint desired_of (sigs : list Signal) (scenario : gmap string pyobj)
    (seen_bits : list (Z * Z * ByteOrder)) (desired : gmap string pyobj)
    : gmap string pyobj :=
  match sigs with
  | [] => desired
  | sig :: rest =>
      let key := (start sig, length sig, byte_order sig) in
      if decide (key ∈ seen_bits)
      then desired_of rest scenario seen_bits desired
      else desired_of rest scenario (key :: seen_bits)
             (<[sig_name sig := default (Num (Finite 0)) (scenario !! sig_name sig)]>
                desired)
  end.

Record Payloads : Type := mkPayloads {
  payloads : gmap string (list byte);
  used_all : gmap string Q;
  clamped_all : gmap string (gmap string ClampEntry)
}.

(** The outer loop of [_build_payloads]. *)
Fixpoint build_loop (msgs : list Message) (scenario : gmap string pyobj)
    (acc : Payloads) : result Payloads :=
  match msgs with
  | [] => Ok acc
  | msg :: rest =>
      let desired := desired_of (signals msg) scenario [] ∅ in
      '(payload, used, clamped) ← encode_message_safe cantools_encode msg desired;
      let payloads' := <[msg_name msg := payload]> (payloads acc) in
      let used_all' := used ∪ used_all acc in          (* used_all.update(used) *)
      let clamped_all' :=
        if decide (size clamped = 0%nat) then clamped_all acc
        else <[msg_name msg := clamped]> (clamped_all acc) in
      build_loop rest scenario (mkPayloads payloads' used_all' clamped_all')
  end.

(** [_build_payloads(dbc_db, scenario)] *)
Definition _build_payloads (db : list Message) (scenario : gmap string pyobj)
    : result Payloads :=
  build_loop db scenario (mkPayloads ∅ ∅ ∅).

End WithCantools.

(** What the loop does to its environment, in program order: calls on
    the bus, the USB hard reset, [time.sleep], and the [reopen_*] events
    written to the monitor log. *)
Inductive event : Type :=
| BusSend (frame_id : Z) (data : list byte) (is_extended : bool)
| BusClose
| BusOpen
| HardReset
| Sleep (seconds : Q)
| Emit (type : string).

(** One iteration of the reopen loop, as the environment decides it: the
    stop file is present, or it is absent and [bus.open()] returns, or it
    is absent and [bus.open()] raises. *)
Inductive reopen_step : Type :=
| StopFlagSet
| OpenOk
| OpenRaised (e : exn).

(** The environment of one send attempt: the outcome of [bus.send], and,
    should the reopen path be taken, the outcome of [hard_reset_gsusb()]
    and of the successive reopen iterations. *)
Record SendEnv : Type := mkSendEnv {
  send_result : result bool;
  hard_reset_result : result unit;
  reopen_steps : list reopen_step
}.

(** The variables of [main] the send path reads and writes. *)
Record RunState : Type := mkRunState {
  tx_frames : Z;
  consec_errors : Z;
  backoff : Q;
  send_exception_count : Z;
  stop_evt : bool
}.

(** The values [main] gives them before the loop. *)
Definition initial_state : RunState := mkRunState 0 0 (1 # 2) 0 false.

(** How a loop body leaves: on to the next iteration, out through
    [break], or not yet (the reopen loop is still retrying when the
    recorded environment ends). *)
Inductive flow : Type := Continue | Break | Retrying.

(** The [while not stop_evt.is_set()] loop of the reopen path. *)
Fixpoint reopen_loop (steps : list reopen_step) (st : RunState)
    : RunState * flow * list event :=
  if stop_evt st then (st, Break, [])
  else
    match steps with
    | [] => (st, Retrying, [])
    | StopFlagSet :: _ =>
        (mkRunState (tx_frames st) (consec_errors st) (backoff st)
                    (send_exception_count st) true,
         Break, [])
    | OpenOk :: _ =>
        (mkRunState (tx_frames st) 0 (1 # 2) (send_exception_count st) (stop_evt st),
         Continue, [BusOpen; Emit "reopen_ok"])
    | OpenRaised _ :: rest =>
        let st' := mkRunState (tx_frames st) (consec_errors st)
                              (py_min (backoff st * 2) 2)
                              (send_exception_count st) (stop_evt st) in
        let '(st'', fl, tr) := reopen_loop rest st' in
        (st'', fl, BusOpen :: Emit "reopen_fail" :: Sleep (backoff st) :: tr)
    end.

(** The calls between [bus.close()] and the reopen loop. *)
Definition hard_reset_events (hardkill_enabled : bool) (env : SendEnv) : list event :=
  if hardkill_enabled then
    match hard_reset_result env with
    | Ok _ => [HardReset; Sleep 1]
    | Raise _ => [HardReset]
    end
  else [].

(** The body of the [for msg in dbc_db.messages] loop from [bus.send] on:
    one send attempt and the bookkeeping that follows it. *)
Definition send_one (hardkill_enabled : bool) (env : SendEnv)
    (frame_id : Z) (data : list byte) (is_extended : bool) (st : RunState)
    : RunState * flow * list event :=
  let sent := BusSend frame_id data is_extended in
  let '(ok, raised) :=
    match send_result env with
    | Ok b => (b, false)
    | Raise _ => (false, true)
    end in
  if ok then
    (mkRunState (tx_frames st + 1) 0 (1 # 2) (send_exception_count st) (stop_evt st),
     Continue, [sent])
  else
    let exc := if raised then (send_exception_count st + 1)%Z
               else send_exception_count st in
    let st := mkRunState (tx_frames st) (consec_errors st + 1) (backoff st)
                         exc (stop_evt st) in
    if (consec_errors st >=? 50)%Z then
      let '(st', fl, tr) := reopen_loop (reopen_steps env) st in
      (st', fl,
       sent :: Emit "reopen_begin" :: BusClose
            :: hard_reset_events hardkill_enabled env ++ tr)
    else (st, Continue, [sent]).


(** Successive send attempts in program order, across messages and
    ticks: nothing else in [main] writes [consec_errors] or [backoff]. *)
Record Attempt : Type := mkAttempt {
  at_frame_id : Z;
  at_data : list byte;
  at_is_extended : bool;
  at_env : SendEnv
}.

Fixpoint send_attempts (hardkill_enabled : bool) (attempts : list Attempt)
    (st : RunState) : RunState * flow * list event :=
  match attempts with
  | [] => (st, Continue, [])
  | a :: rest =>
      let '(st1, fl, tr1) :=
        send_one hardkill_enabled (at_env a) (at_frame_id a) (at_data a)
                 (at_is_extended a) st in
      match fl with
      | Continue =>
          let '(st2, fl2, tr2) := send_attempts hardkill_enabled rest st1 in
          (st2, fl2, tr1 ++ tr2)
      | _ => (st1, fl, tr1)
      end
  end.


Section Tick.

Variable cantools_encode : Message -> gmap string Q -> result (list byte).


End Tick.


End CliRunner.

(** ** [dbc_loader.py]: the layout gate *)

Module DbcLoader.

Import DbcCodec.

Definition EXPECTED_IDS : gset Z := list_to_set [1512; 1513; 1514; 1515; 1516]%Z.

Definition EXPECTED_NAMES : gmap Z string :=
  list_to_map [(1512, "megasquirt_dash0"); (1513, "megasquirt_dash1");
               (1514, "megasquirt_dash2"); (1515, "megasquirt_dash3");
               (1516, "megasquirt_dash4")]%Z.

Definition EXPECTED_DLC : Z := 8.

Definition EXPECTED_SIGNALS : gmap Z (list string) :=
  list_to_map
    [(1512, ["map"; "rpm"; "clt"; "tps"]);
     (1513, ["pw1"; "pw2"; "mat"; "adv_deg"]);
     (1514, ["AFR1"; "afrtgt1"; "egocor1"; "egt1"; "pwseq1"]);
     (1515, ["batt"; "sensors1"; "sensors2"; "knk_rtd"]);
     (1516, ["VSS1"; "tc_retard"; "launch_timing"])]%Z.

(** An entry of [EXPECTED_SIGNAL_META], written as the signal it
    describes. *)
Definition meta (name : string) (start length : Z) (is_signed : bool) (scale : Q)
    : string * Signal :=
  (name, mkSignal name start length big_endian is_signed scale 0).

Definition EXPECTED_SIGNAL_META : gmap Z (gmap string Signal) :=
  list_to_map
    [(1512, list_to_map
              [meta "map" 7 16 true (1 # 10); meta "rpm" 23 16 false 1;
               meta "clt" 39 16 true (1 # 10); meta "tps" 55 16 true (1 # 10)]);
     (1513, list_to_map
              [meta "pw1" 7 16 false (1 # 1000); meta "pw2" 23 16 false (1 # 1000);
               meta "mat" 39 16 true (1 # 10); meta "adv_deg" 55 16 true (1 # 10)]);
     (1514, list_to_map
              [meta "AFR1" 15 8 false (1 # 10); meta "afrtgt1" 7 8 false (1 # 10);
               meta "egocor1" 23 16 true (1 # 10); meta "egt1" 39 16 true (1 # 10);
               meta "pwseq1" 55 16 true (1 # 1000)]);
     (1515, list_to_map
              [meta "batt" 7 16 true (1 # 10); meta "sensors1" 23 16 true (1 # 100);
               meta "sensors2" 39 16 true (1 # 100); meta "knk_rtd" 55 8 false (1 # 10)]);
     (1516, list_to_map
              [meta "VSS1" 7 16 false (1 # 10); meta "tc_retard" 23 16 true (1 # 10);
               meta "launch_timing" 39 16 true (1 # 10)])]%Z.

(** No entry of the [diff] list of the bit-level validation. *)
Definition signal_matches (sig exp : Signal) : bool :=
  (start sig =? start exp)%Z
  && (length sig =? length exp)%Z
  && bool_decide (byte_order sig = byte_order exp)
  && Bool.eqb (is_signed sig) (is_signed exp)
  && Qeq_bool (scale sig) (scale exp)
  && Qeq_bool (offset sig) (offset exp).

Fixpoint check_signals (sigs : list Signal) (expected_meta : gmap string Signal)
    : result unit :=
  match sigs with
  | [] => Ok tt
  | sig :: rest =>
      match expected_meta !! sig_name sig with
      | None => check_signals rest expected_meta           (* continue *)
      | Some exp =>
          if signal_matches sig exp then check_signals rest expected_meta
          else Raise RuntimeError
      end
  end.

(** The body of the [for msg in db.messages] loop. *)
Definition check_message (msg : Message) : result unit :=
  if negb (msg_length msg =? EXPECTED_DLC)%Z then Raise RuntimeError
  else if negb (bool_decide (EXPECTED_NAMES !! frame_id msg = Some (msg_name msg)))
  then Raise RuntimeError
  else
    let expected_signals : gset string :=
      list_to_set (default [] (EXPECTED_SIGNALS !! frame_id msg)) in
    let found : gset string := list_to_set (map sig_name (signals msg)) in
    if negb (bool_decide (expected_signals = ∅))
       && negb (bool_decide (found = expected_signals))
    then Raise RuntimeError
    else check_signals (signals msg)
           (default ∅ (EXPECTED_SIGNAL_META !! frame_id msg)).

Fixpoint check_messages (msgs : list Message) : result unit :=
  match msgs with
  | [] => Ok tt
  | msg :: rest => _ ← check_message msg; check_messages rest
  end.

(** [assert_expected_layout(db)] *)
Definition assert_expected_layout (db : list Message) : result unit :=
  let ids : gset Z := list_to_set (map frame_id db) in
  if negb (bool_decide (ids = EXPECTED_IDS)) then Raise RuntimeError
  else check_messages db.

End DbcLoader.

(** ** Vocabulary of the statements and sample data *)

Module Samples.

Import DbcCodec.

(** The value the per-signal step converts, after the two substitutions
    of [encode_message_safe]. *)
Definition sanitized (requested : pyobj) : Q :=
  match requested with
  | Num (Finite x) => x
  | _ => 0%Q
  end.

(** A desired value that [encode_message_safe] replaces by 0.0: one that
    [float()] rejects, or a float that is not finite. *)
Definition unusable (requested : pyobj) : bool :=
  match py_float requested with
  | Raise _ => true
  | Ok f => negb (isfinite f)
  end.


(** A stand-in for cantools in the examples: every message encodes, to a
    payload of its length. *)
Definition encode_zeros (msg : Message) (_ : gmap string Q) : result (list byte) :=
  Ok (repeat x00 (Z.to_nat (msg_length msg))).

(** The components of a returned triple (empty when the call raised). *)
Definition payload_of (r : result (list byte * gmap string Q * gmap string ClampEntry))
    : list byte :=
  match r with Ok (p, _, _) => p | Raise _ => [] end.

Definition used_of (r : result (list byte * gmap string Q * gmap string ClampEntry))
    : gmap string Q :=
  match r with Ok (_, u, _) => u | Raise _ => ∅ end.

Definition clamped_of (r : result (list byte * gmap string Q * gmap string ClampEntry))
    : gmap string ClampEntry :=
  match r with Ok (_, _, c) => c | Raise _ => ∅ end.

Definition rpm : Signal := mkSignal "rpm" 23 16 big_endian false 1 0.
Definition map_sig : Signal := mkSignal "map" 7 16 big_endian true (1 # 10) 0.

(** The signals of a frame as the layout table has them, in the order of
    [EXPECTED_SIGNALS]. *)
Definition expected_signals_of (fid : Z) : list Signal :=
  omap (fun n => default ∅ (DbcLoader.EXPECTED_SIGNAL_META !! fid) !! n)
       (default [] (DbcLoader.EXPECTED_SIGNALS !! fid)).

Definition expected_message (fid : Z) : Message :=
  mkMessage fid (default "" (DbcLoader.EXPECTED_NAMES !! fid)) 8 false
            (expected_signals_of fid).

(** The five frames, listed in ascending order of their ids, and listed
    with the first two exchanged. *)
Definition ascending_db : list Message :=
  map expected_message [1512; 1513; 1514; 1515; 1516]%Z.

Definition exchanged_db : list Message :=
  map expected_message [1513; 1512; 1514; 1515; 1516]%Z.



Definition megasquirt_dash0 : Message := expected_message 1512.

(** A scheduler at 50 Hz, started at time 10, and a clock that reads 11
    when [wait_next] is called: the tick is late. *)
Definition running : Scheduler.FixedRateScheduler :=
  Scheduler.mkScheduler 50 (1 # 50) (Some 10%Q) (Some (501 # 50)%Q).

Definition late_clock : Scheduler.Clock := Scheduler.mkClock 0 11 11.

(** A link on which every call fails: the bulk transfer reports an
    error, the bus raises [can.CanError], the serial port raises. *)
Definition failing_link : Transport.LinkEnv :=
  Transport.mkLinkEnv (-1) 0
    (Raise LibusbError) (Raise LibusbError) (Raise LibusbError)
    (Raise CanError) (Raise CanError) (Raise CanError)
    (Raise SerialException) (Raise SerialException) (Raise SerialException)
    (Raise SerialException).

Definition payload8 : list byte := [x11; x22; x33; x44; x55; x66; x77; x88].

Definition termux_open : Transport.Termux.t :=
  Transport.Termux.mk 500000 (Some tt) 0.

Definition pythoncan_open : Transport.PythonCan.t :=
  Transport.PythonCan.mk "virtual" 0 500000 (Some tt) None None 0.

Definition slcan_open : Transport.SlcanSerial.t :=
  Transport.SlcanSerial.mk "/dev/ttyACM0" 500000 115200 false (Some tt) 0.

(** A send attempt fails when [bus.send] returns [False] or raises. *)
Definition send_failed (env : CliRunner.SendEnv) : bool :=
  match CliRunner.send_result env with
  | Ok true => false
  | _ => true
  end.

(** The call of [bus.send] of an attempt. *)
Definition send_event (a : CliRunner.Attempt) : CliRunner.event :=
  CliRunner.BusSend (CliRunner.at_frame_id a) (CliRunner.at_data a)
                    (CliRunner.at_is_extended a).

(** The sleeps of [n] failed reopen attempts in a row, the first one
    lasting [b]: each is [min(2 * previous, 2.0)]. *)
Fixpoint retry_sleeps (n : nat) (b : Q) : list Q :=
  match n with
  | O => []
  | S n => b :: retry_sleeps n (CliRunner.py_min (b * 2) 2)
  end.

(** The backoff after [n] failed reopen attempts. *)
Fixpoint backoff_after (n : nat) (b : Q) : Q :=
  match n with
  | O => b
  | S n => backoff_after n (CliRunner.py_min (b * 2) 2)
  end.

(** What failed reopen attempts with these sleeps leave in the trace. *)
Fixpoint retry_events (sleeps : list Q) : list CliRunner.event :=
  match sleeps with
  | [] => []
  | b :: rest =>
      CliRunner.BusOpen :: CliRunner.Emit "reopen_fail" :: CliRunner.Sleep b
        :: retry_events rest
  end.

(** The backoff in closed form: the floor 0.5 doubled [k] times, capped
    at 2.0. *)
Definition backoff_at (k : nat) : Q :=
  Qmin ((1 # 2) * inject_Z (2 ^ Z.of_nat k)) 2.

(** How the reopen loop ends after its failed attempts, by what the
    environment does next: nothing recorded yet, the stop file, or a
    successful [bus.open()]. *)
Definition ending_ok (ending : list CliRunner.reopen_step) : Prop :=
  match ending with
  | CliRunner.OpenRaised _ :: _ => False
  | _ => True
  end.

Definition ending_flow (ending : list CliRunner.reopen_step) : CliRunner.flow :=
  match ending with
  | CliRunner.OpenOk :: _ => CliRunner.Continue
  | CliRunner.StopFlagSet :: _ => CliRunner.Break
  | _ => CliRunner.Retrying
  end.

Definition ending_events (ending : list CliRunner.reopen_step)
    : list CliRunner.event :=
  match ending with
  | CliRunner.OpenOk :: _ => [CliRunner.BusOpen; CliRunner.Emit "reopen_ok"]
  | _ => []
  end.

(** An attempt whose send returns [False], and one whose send raises and
    whose reopen fails three times before it succeeds. *)
Definition refused : CliRunner.Attempt :=
  CliRunner.mkAttempt 1512 payload8 false
    (CliRunner.mkSendEnv (Ok false) (Ok tt) []).

Definition refused_then_reopened : CliRunner.Attempt :=
  CliRunner.mkAttempt 1513 payload8 false
    (CliRunner.mkSendEnv (Raise CanError) (Ok tt)
       [CliRunner.OpenRaised RuntimeError; CliRunner.OpenRaised RuntimeError;
        CliRunner.OpenRaised RuntimeError; CliRunner.OpenOk]).

(** A request above the 16-bit range for [rpm]. *)
Definition desired_high_rpm : gmap string pyobj :=
  <["rpm" := Num (Finite 70000)]> (<["map" := Num (Finite 100)]> ∅).

End Samples.

(** ** [ms_signals.py] and [scenarios.py] *)

Module Scenarios.

(** [ms_signals.MS_SIGNAL_LIST] *)
Definition MS_SIGNAL_LIST : list string :=
  ["map"; "rpm"; "clt"; "tps"; "pw1"; "pw2"; "mat"; "adv_deg"; "afrtgt1"; "AFR1";
   "egocor1"; "egt1"; "pwseq1"; "batt"; "sensors1"; "sensors2"; "knk_rtd"; "VSS1";
   "tc_retard"; "launch_timing"].

(** [ms_signals.MS_MESSAGES] *)
Definition MS_MESSAGES : list string :=
  ["megasquirt_dash0"; "megasquirt_dash1"; "megasquirt_dash2"; "megasquirt_dash3";
   "megasquirt_dash4"].

Definition MAP_MIN : Q := 10.
Definition MAP_MAX : Q := 260.
Definition MAP_FALLBACK : Q := 100.

(** [max(a, b)] of Python on two floats. *)
Definition py_max (a b : Q) : Q :=
  match (b ?= a)%Q with
  | Gt => b
  | _ => a
  end.

(** [_base_signals()] *)
Definition _base_signals : gmap string pyfloat :=
  list_to_map ((fun name => (name, Finite 0)) <$> MS_SIGNAL_LIST).

(** [_sanitize_map(val, ctx)]: the result is a finite float. *)
Definition _sanitize_map (val : pyfloat) : Q :=
  let val := match val with
             | Finite q => q
             | _ => MAP_FALLBACK          (* not math.isfinite(val) *)
             end in
  py_max MAP_MIN (CliRunner.py_min MAP_MAX val).

(** The value [_ordered] stores for the item [(k, v)]. *)
Definition ordered_value (k : string) (v : pyobj) : pyfloat :=
  let val := match py_float v with
             | Ok f => f
             | Raise _ => Finite 0
             end in
  if decide (k = "map"%string) then Finite (_sanitize_map val)
  else if isfinite val then val      (* not (isnan or isinf) *)
  else Finite 0.

(** The body of the loop of [_ordered]: [out[k]] is written only for a
    key [out] already has. *)
Definition ordered_step (out : gmap string pyfloat) (item : string * pyobj)
    : gmap string pyfloat :=
  let '(k, v) := item in
  let val := ordered_value k v in
  if decide (is_Some (out !! k)) then <[k := val]> out else out.

(** [_ordered(signals, ctx)]; [signals] is the list of the items of the
    dict, in its order. *)
Definition _ordered (signals : list (string * pyobj)) : gmap string pyfloat :=
  fold_left ordered_step signals _base_signals.

(** [enforce_map_bounds(signals, ctx)]: the dict after the call and the
    value returned. *)
Definition enforce_map_bounds (signals : gmap string pyobj) : gmap string pyobj * Q :=
  let raw := default (Num (Finite MAP_FALLBACK)) (signals !! "map"%string) in
  let val := match py_float raw with
             | Ok f => f
             | Raise _ => Finite MAP_FALLBACK
             end in
  let sanitized := _sanitize_map val in
  (<["map"%string := Num (Finite sanitized)]> signals, sanitized).

(** [_clamp(val, lo, hi)] *)
Definition _clamp (val lo hi : Q) : Q := py_max lo (CliRunner.py_min hi val).

(** The [ramp] of [scenario_pull(t)]. *)
Definition ramp (t : Q) : Q := _clamp (t / 5) 0 1.

(** The dict literal of [scenario_pull(t)]. *)
Definition pull_signals (t : Q) : list (string * pyobj) :=
  let ramp := ramp t in
  let afr1 := ((147 # 10) - (22 # 10) * ramp)%Q in
  let f (x : Q) := Num (Finite x) in
  [("map", f (100 + 10 * ramp)); ("rpm", f (1000 + 7000 * ramp));
   ("clt", f (185 + 5 * ramp)); ("tps", f (2 + 93 * ramp));
   ("pw1", f (3 + 8 * ramp)); ("pw2", f (3 + 8 * ramp));
   ("mat", f (86 + 10 * ramp)); ("adv_deg", f (12 - 6 * ramp));
   ("afrtgt1", f afr1); ("AFR1", f afr1); ("egocor1", f 100);
   ("egt1", f (520 + 650 * ramp)); ("pwseq1", f (3 + 8 * ramp));
   ("batt", f (14 - (2 # 10) * ramp)); ("sensors1", f (300 + 220 * ramp));
   ("sensors2", f (95 + 15 * ramp)); ("knk_rtd", f 0); ("VSS1", f (35 * ramp));
   ("tc_retard", f 0); ("launch_timing", f 0)]%Q%string.

(** [scenario_pull(t)] for a finite [t]. *)
Definition scenario_pull (t : Q) : gmap string pyfloat :=
  _ordered (pull_signals t).

(** The dict the main loop hands to [_build_payloads] in mode [pull]:
    [scenario_values], then [enforce_map_bounds]. *)
Definition pull_runtime (t : Q) : gmap string pyobj :=
  fst (enforce_map_bounds (Num <$> scenario_pull t)).

(** [missing] of [validate_startup] and [missing_sigs] of
    [assert_ms_signals_in_dbc]: the names of [MS_SIGNAL_LIST] no signal of
    the database has. *)
Definition missing_signals (db : list DbcCodec.Message) : list string :=
  let present : gset string :=
    list_to_set (mjoin ((fun msg => DbcCodec.sig_name <$> DbcCodec.signals msg) <$> db)) in
  filter (fun k => k ∉ present) MS_SIGNAL_LIST.

(** [missing_msgs] of [assert_ms_signals_in_dbc]. *)
Definition missing_messages (db : list DbcCodec.Message) : list string :=
  filter (fun name => name ∉ (DbcCodec.msg_name <$> db)) MS_MESSAGES.

End Scenarios.

(** ** [telemetry.py] *)

Module Telemetry.

Record TelemetryWriter : Type := mkWriter {
  hz : Q;
  dt : Q;
  _next : Q
}.

(** [TelemetryWriter.__init__(path, hz)]; [now] is the value of
    [time.monotonic()]. *)
Definition init (hz : Q) (now : Q) : result TelemetryWriter :=
  if Qle_bool hz 0 then Raise ValueError
  else Ok (mkWriter hz (1 / hz) now).

(** [while self._next <= now: self._next += self.dt], at most [fuel]
    additions. *)
Fixpoint align (fuel : nat) (next now dt : Q) : option Q :=
  if Qle_bool next now then
    match fuel with
    | O => None
    | S fuel => align fuel (next + dt)%Q now dt
    end
  else Some next.

(** [maybe_write(snapshot)] with [time.monotonic()] reading [now]: the
    writer after the call, and whether [save_telemetry_safe] was called.
    What the latter does, raising included, changes neither. *)
Definition maybe_write (fuel : nat) (now : Q) (w : TelemetryWriter)
    : option (TelemetryWriter * bool) :=
  if negb (Qle_bool (_next w) now) then Some (w, false)      (* now < self._next *)
  else
    next ← align fuel (_next w) now (dt w);
    Some (mkWriter (hz w) (dt w) next, true).

End Telemetry.

(** ** [bitrate.py] and the settings check of [cli_runner.py] *)

Module Settings.

(** [transport.SLCAN_BITRATE_MAP] *)
Definition SLCAN_BITRATE_MAP : gmap Z string :=
  list_to_map [(10000, "S0"); (20000, "S1"); (50000, "S2"); (100000, "S3");
               (125000, "S4"); (250000, "S5"); (500000, "S6"); (800000, "S7");
               (1000000, "S8")]%Z%string.

(** [validate_bitrate(bps)] on an [int]. *)
Definition validate_bitrate (bps : Z) : result Z :=
  if ((bps <? 10000) || (bps >? 2000000))%Z then Raise ValueError else Ok bps.

(** [not port]: [None] or the empty string. *)
Definition no_port (port : option string) : bool :=
  match port with
  | None => true
  | Some p => bool_decide (p = ""%string)
  end.

(** [_validate_settings(backend, iface, bitrate, port, skip_bitrate)] *)
Definition _validate_settings (backend iface : string) (bitrate : Z)
    (port : option string) (skip_bitrate : bool) : result unit :=
  if decide (backend = "pythoncan"%string) then
    if decide (iface ∈ ["gs_usb"; "virtual"; "termux-usb"]%string)
    then _ ← validate_bitrate bitrate; Ok tt
    else Raise ValueError
  else if decide (backend = "slcan"%string) then
    if no_port port then Raise ValueError
    else if bool_decide (SLCAN_BITRATE_MAP !! bitrate = None) && negb skip_bitrate
    then Raise ValueError
    else Ok tt
  else Raise ValueError.

End Settings.

(** ** [open()] of the transports *)

Module TransportOpen.

Import Transport.

(** What the environment answers to the calls [open()] makes. *)
Record OpenEnv : Type := mkOpenEnv {
  ensure_backend : result unit;            (* usb_backend.ensure_backend *)
  termux_usb_fd : bool;                    (* os.environ.get("TERMUX_USB_FD") *)
  termux_slcan_ctor : result unit;         (* TermuxUsbSlcan() *)
  init_slcan : result unit;                (* TermuxUsbSlcan.init_slcan *)
  can_bus_ctor : result unit;              (* can.Bus(..., bitrate=...) *)
  can_bus_ctor_no_bitrate : result unit;   (* can.Bus(interface="virtual", channel=...) *)
  import_serial : result unit;             (* import serial *)
  serial_ctor : result unit;               (* serial.Serial(...) *)
  (* the serial link during the three commands of [SlcanSerialTransport.open] *)
  link_close_cmd : LinkEnv;
  link_bitrate_cmd : LinkEnv;
  link_open_cmd : LinkEnv
}.

Definition set_termux_usb (s : PythonCan.t) (h : option unit) : PythonCan.t :=
  PythonCan.mk (PythonCan.iface s) (PythonCan.channel s) (PythonCan.bitrate s)
               (PythonCan.bus s) h (PythonCan.backend s) (PythonCan.tx_errors s).

(** [PythonCanTransport.open()] *)
Definition python_can_open (oe : OpenEnv) (s : PythonCan.t) : PythonCan.t * result unit :=
  match PythonCan.bus s with
  | Some _ => (s, Ok tt)
  | None =>
      if decide (PythonCan.iface s = "gs_usb"%string) then
        match ensure_backend oe with
        | Raise _ => (s, Raise RuntimeError)
        | Ok _ =>
            (* every exception of the second [try] block becomes a RuntimeError *)
            if decide (PythonCan.backend s = Some "termux-usb"%string) then
              if negb (termux_usb_fd oe) then (s, Raise RuntimeError)
              else
                match termux_slcan_ctor oe with
                | Raise _ => (s, Raise RuntimeError)
                | Ok _ =>
                    let s := set_termux_usb s (Some tt) in
                    match init_slcan oe with
                    | Raise _ => (s, Raise RuntimeError)
                    | Ok _ => (PythonCan.set_bus s None, Ok tt)
                    end
                end
            else
              match can_bus_ctor oe with
              | Raise _ => (s, Raise RuntimeError)
              | Ok _ => (PythonCan.set_bus s (Some tt), Ok tt)
              end
        end
      else if decide (PythonCan.iface s = "virtual"%string) then
        match can_bus_ctor oe with
        | Ok _ => (PythonCan.set_bus s (Some tt), Ok tt)
        | Raise _ =>
            match can_bus_ctor_no_bitrate oe with
            | Ok _ => (PythonCan.set_bus s (Some tt), Ok tt)
            | Raise _ => (s, Raise RuntimeError)
            end
        end
      else (s, Raise ValueError)
  end.

(** [SlcanSerialTransport.open()] *)
Definition slcan_serial_open (oe : OpenEnv) (s : SlcanSerial.t)
    : SlcanSerial.t * result unit :=
  match SlcanSerial.ser s with
  | Some _ => (s, Ok tt)
  | None =>
      match import_serial oe with
      | Raise _ => (s, Raise RuntimeError)
      | Ok _ =>
          match serial_ctor oe with
          | Raise _ => (s, Raise RuntimeError)
          | Ok _ =>
              let s := SlcanSerial.set_ser s (Some tt) in
              let cmd := Settings.SLCAN_BITRATE_MAP !! SlcanSerial.bitrate s in
              match cmd, SlcanSerial.skip_bitrate s with
              | None, false => (s, Raise ValueError)
              | _, _ =>
                  (s,
                   _ ← SlcanSerial._write_cmd (link_close_cmd oe) s "C";
                   _ ← match cmd with
                       | Some c => SlcanSerial._write_cmd (link_bitrate_cmd oe) s c
                       | None => Ok tt
                       end;
                   SlcanSerial._write_cmd (link_open_cmd oe) s "O")
              end
          end
      end
  end.

(** [TermuxUsbSlcanTransport.open()] *)
Definition termux_open (oe : OpenEnv) (s : Termux.t) : Termux.t * result unit :=
  match Termux.dev s with
  | Some _ => (s, Ok tt)
  | None =>
      if negb (termux_usb_fd oe) then (s, Raise RuntimeError)
      else
        match termux_slcan_ctor oe with
        | Raise e => (s, Raise e)
        | Ok _ =>
            let s := Termux.mk (Termux.bitrate s) (Some tt) (Termux.tx_errors s) in
            match init_slcan oe with
            | Raise e => (s, Raise e)
            | Ok _ => (s, Ok tt)
            end
        end
  end.

Definition open (oe : OpenEnv) (tr : CanTransport) : CanTransport * result unit :=
  match tr with
  | TermuxUsbSlcanTransport s =>
      let '(s', r) := termux_open oe s in (TermuxUsbSlcanTransport s', r)
  | PythonCanTransport s =>
      let '(s', r) := python_can_open oe s in (PythonCanTransport s', r)
  | SlcanSerialTransport s =>
      let '(s', r) := slcan_serial_open oe s in (SlcanSerialTransport s', r)
  end.

End TransportOpen.

(** ** [can_bus.py] *)

Module CanBus.

Import Transport.

Record t : Type := mk {
  iface : string;
  channel : Z;
  bitrate : Z;
  backend : string;
  port : option string;
  serial_baud : Z;
  slcan_skip_bitrate : bool;
  transport : option CanTransport;
  tx_errors : Z
}.

(** [CanBus.__init__] *)
Definition init (iface : string) (channel bitrate : Z) (backend : option string)
    (port : option string) (serial_baud : option Z) (slcan_skip_bitrate : bool) : t :=
  mk iface channel bitrate
     (match backend with                          (* backend or "pythoncan" *)
      | None | Some EmptyString => "pythoncan"%string
      | Some name => name
      end)
     port
     (match serial_baud with
      | None | Some 0%Z => 115200%Z
      | Some n => n
      end)
     slcan_skip_bitrate None 0.

Definition set_transport (b : t) (tr : option CanTransport) (errors : Z) : t :=
  mk (iface b) (channel b) (bitrate b) (backend b) (port b) (serial_baud b)
     (slcan_skip_bitrate b) tr errors.

(** The last two statements of [open()]: the transport is already
    assigned when [self.transport.open()] is called. *)
Definition open_transport (oe : TransportOpen.OpenEnv) (b : t) (tr : CanTransport)
    : t * result unit :=
  let '(tr', r) := TransportOpen.open oe tr in
  match r with
  | Ok _ => (set_transport b (Some tr') 0, Ok tt)
  | Raise e => (set_transport b (Some tr') (tx_errors b), Raise e)
  end.

(** [open()] *)
Definition open (oe : TransportOpen.OpenEnv) (b : t) : t * result unit :=
  match transport b with
  | Some _ => (b, Ok tt)
  | None =>
      if decide (backend b = "pythoncan"%string) then
        open_transport oe b
          (PythonCanTransport
             (PythonCan.mk (iface b) (channel b) (bitrate b) None None None 0))
      else if decide (backend b = "slcan"%string) then
        if Settings.no_port (port b) then (b, Raise RuntimeError)
        else
          open_transport oe b
            (SlcanSerialTransport
               (SlcanSerial.mk (default ""%string (port b)) (bitrate b) (serial_baud b)
                               (slcan_skip_bitrate b) None 0))
      else (b, Raise ValueError)
  end.

(** [send(frame_id, payload, is_extended)] *)
Definition send (env : LinkEnv) (b : t) (frame_id : Z) (payload : list byte)
    (is_extended : bool) : t * result bool :=
  match transport b with
  | None => (b, Raise RuntimeError)
  | Some tr =>
      let '(tr', r) := Transport.send env tr frame_id payload is_extended in
      match r with
      | Ok ok => (set_transport b (Some tr') (Transport.tx_errors tr'), Ok ok)
      | Raise e => (set_transport b (Some tr') (tx_errors b), Raise e)
      end
  end.

(** [close()] *)
Definition close (env : LinkEnv) (b : t) : t * result unit :=
  match transport b with
  | None => (b, Ok tt)
  | Some tr =>
      let _ := Transport.close env tr in     (* try ... except Exception: pass *)
      (set_transport b None (tx_errors b), Ok tt)
  end.

End CanBus.

(** ** Callers of the modelled functions, and sample data for them *)

Module Callers.

Import Scheduler.

(** Successive calls of [wait_next], one per entry of [clks], as the loops
    of [main] and of the self test make them. *)
Fixpoint wait_next_many (clks : list Clock) (s : FixedRateScheduler)
    : FixedRateScheduler * list WaitResult :=
  match clks with
  | [] => (s, [])
  | clk :: rest =>
      let r := wait_next clk s in
      let '(s', rs) := wait_next_many rest (wr_sched r) in
      (s', r :: rs)
  end.

(** The number of attempts whose send returned [True]. *)
Definition successes (attempts : list CliRunner.Attempt) : Z :=
  Z.of_nat (List.length
              (filter (fun a => Samples.send_failed (CliRunner.at_env a) = false)
                      attempts)).

(** Three calls that come before their deadlines, for a scheduler whose
    first deadline is 501/50. *)
Definition early_clocks : list Clock :=
  [mkClock 0 (1001 # 100) (501 # 50); mkClock 0 (1003 # 100) (1004 # 100);
   mkClock 0 (1005 # 100) (1006 # 100)].

(** The outcomes of the successive [bus.open()] calls of the reopen
    loop, one per environment, with the stop file absent; and the bus they
    leave. *)
Fixpoint bus_reopen_steps (oes : list TransportOpen.OpenEnv) (b : CanBus.t)
    : list CliRunner.reopen_step * CanBus.t :=
  match oes with
  | [] => ([], b)
  | oe :: rest =>
      match CanBus.open oe b with
      | (b', Ok _) => ([CliRunner.OpenOk], b')
      | (b', Raise e) =>
          let '(steps, b'') := bus_reopen_steps rest b' in
          (CliRunner.OpenRaised e :: steps, b'')
      end
  end.

(** One call of [bus.send]: the link it meets and its arguments. *)
Record SendCall : Type := mkSendCall {
  sc_env : Transport.LinkEnv;
  sc_frame_id : Z;
  sc_payload : list byte;
  sc_is_extended : bool
}.

(** Successive calls of [bus.send]: the bus they leave and what they
    returned. *)
Fixpoint bus_sends (calls : list SendCall) (b : CanBus.t)
    : CanBus.t * list (Py.result bool) :=
  match calls with
  | [] => (b, [])
  | c :: rest =>
      let '(b', r) :=
        CanBus.send (sc_env c) b (sc_frame_id c) (sc_payload c) (sc_is_extended c) in
      let '(b'', rs) := bus_sends rest b' in
      (b'', r :: rs)
  end.

(** How many of the calls returned [False]. *)
Definition false_returns (rs : list (Py.result bool)) : Z :=
  Z.of_nat (List.length
              (List.filter (fun r => match r with Py.Ok false => true | _ => false end) rs)).

(** A link on which every call returns and the adapter never answers
    BEL. *)
Definition healthy_link (env : Transport.LinkEnv) : Prop :=
  Transport.ser_write env = Py.Ok tt /\ Transport.ser_flush env = Py.Ok tt
  /\ forall resp, Transport.ser_read_until env = Py.Ok resp ->
                  existsb (Byte.eqb Transport.SlcanSerial.BEL) resp = false.

(** An environment in which every call of [open()] returns. *)
Definition healthy (oe : TransportOpen.OpenEnv) : Prop :=
  TransportOpen.ensure_backend oe = Py.Ok tt
  /\ TransportOpen.can_bus_ctor oe = Py.Ok tt
  /\ TransportOpen.import_serial oe = Py.Ok tt
  /\ TransportOpen.serial_ctor oe = Py.Ok tt
  /\ healthy_link (TransportOpen.link_close_cmd oe)
  /\ healthy_link (TransportOpen.link_bitrate_cmd oe)
  /\ healthy_link (TransportOpen.link_open_cmd oe).

(** An environment in which no device answers, and a bus on the
    virtual interface just after [bus.close()]. *)
Definition no_device : TransportOpen.OpenEnv :=
  TransportOpen.mkOpenEnv (Py.Raise Py.OSError) false (Py.Raise Py.LibusbError)
    (Py.Raise Py.LibusbError) (Py.Raise Py.CanError) (Py.Raise Py.CanError)
    (Py.Raise Py.OSError) (Py.Raise Py.SerialException)
    Samples.failing_link Samples.failing_link Samples.failing_link.

Definition closed_bus : CanBus.t :=
  CanBus.init "virtual" 0 500000 (Some "pythoncan"%string) None None false.

(** A writer at 5 Hz whose next slot is at time 10. *)
Definition telemetry_writer : Telemetry.TelemetryWriter :=
  Telemetry.mkWriter 5 (1 # 5) 10.

End Callers.

(** * Properties *)

Import DbcCodec Samples.

(** ** The embedding on concrete inputs *)

(** [round] takes ties to the even integer: [round(2.5) == 2],
    [round(3.5) == 4], [round(-2.5) == -2]. *)
Example py_round_ties :
  py_round (5 # 2) = 2%Z /\ py_round (7 # 2) = 4%Z /\ py_round (- (5 # 2)) = (-2)%Z
  /\ py_round (1 # 3) = 0%Z /\ py_round (- (2 # 3)) = (-1)%Z.
Proof. repeat split; reflexivity. Qed.

Example raw_limits_16_bits :
  raw_limits rpm = Ok (0, 65535)%Z /\ raw_limits map_sig = Ok (-32768, 32767)%Z.
Proof. split; reflexivity. Qed.

(** Requesting [map = 9999]: the used value is the upper raw limit in
    physical units, and the step reports the clamp. *)
Example encode_signal_map_9999 :
  encode_signal map_sig (Num (Finite 9999))
  = Ok (mkSignalOutcome 99990 32767 true (inject_Z 32767 * (1 # 10) + 0)%Q).
Proof. reflexivity. Qed.

Example slcan_frame_text :
  Transport.SlcanSerial.format_frame 2047 payload8 false
  = Ok "t7FF81122334455667788"%string
  /\ Transport.SlcanSerial.format_frame 2048 payload8 false = Raise ValueError
  /\ Transport.Termux.frame_text 291 payload8 true
     = ("T0000012381122334455667788" ++ Transport.CR)%string.
Proof. repeat split; reflexivity. Qed.

(** ** Rounding *)

Section Rounding.

Local Open Scope Q_scope.

(** The rounded value is within one half of the argument. *)
Lemma py_round_near (q : Q) :
  inject_Z (py_round q) - (1 # 2) <= q /\ q <= inject_Z (py_round q) + (1 # 2).
Proof.
  pose proof (Qfloor_le q) as Hlo.
  pose proof (Qlt_floor q) as Hhi.
  rewrite inject_Z_plus in Hhi. change (inject_Z 1) with 1 in Hhi.
  unfold py_round.
  destruct (Qcompare_spec (q - inject_Z (Qfloor q)) (1 # 2)) as [He | Hl | Hg].
  - destruct (Z.even (Qfloor q)); rewrite ?inject_Z_plus;
      change (inject_Z 1) with 1; split; lra.
  - split; lra.
  - rewrite inject_Z_plus. change (inject_Z 1) with 1. split; lra.
Qed.

(** Rounding does not leave an interval with integer end points. *)
Lemma py_round_between (lo hi : Z) (q : Q) :
  inject_Z lo <= q -> q <= inject_Z hi -> (lo <= py_round q <= hi)%Z.
Proof.
  intros Hlo Hhi.
  assert (Hf1 : (lo <= Qfloor q)%Z).
  { rewrite <- (Qfloor_Z lo). now apply Qfloor_resp_le. }
  assert (Hf2 : (Qfloor q <= hi)%Z).
  { rewrite <- (Qfloor_Z hi). now apply Qfloor_resp_le. }
  pose proof (Qfloor_le q) as Hfl.
  unfold py_round.
  destruct (Qcompare_spec (q - inject_Z (Qfloor q)) (1 # 2)) as [He | Hl | Hg].
  - destruct (Z.even (Qfloor q)); [lia |].
    assert (inject_Z (Qfloor q) < inject_Z hi) by lra.
    rewrite <- Zlt_Qlt in H. lia.
  - lia.
  - assert (inject_Z (Qfloor q) < inject_Z hi) by lra.
    rewrite <- Zlt_Qlt in H. lia.
Qed.

End Rounding.

(** ** Raw limits and clamping *)

Section Limits.

Local Open Scope Z_scope.

Lemma raw_limits_spec (sig : Signal) (lo hi : Z) :
  raw_limits sig = Ok (lo, hi) ->
  (lo, hi) = (if is_signed sig
              then (- 2 ^ (length sig - 1), 2 ^ (length sig - 1) - 1)
              else (0, 2 ^ length sig - 1))
  /\ lo <= 0 <= hi.
Proof.
  unfold raw_limits, py_shiftl.
  destruct (is_signed sig).
  - destruct (Z.ltb_spec (length sig - 1) 0) as [Hn | Hn]; cbn; [discriminate |].
    intros [= <- <-]. rewrite Z.shiftl_1_l.
    pose proof (Z.pow_pos_nonneg 2 (length sig - 1)). split; [reflexivity | lia].
  - destruct (Z.ltb_spec (length sig) 0) as [Hn | Hn]; cbn; [discriminate |].
    intros [= <- <-]. rewrite Z.shiftl_1_l.
    pose proof (Z.pow_pos_nonneg 2 (length sig)). split; [reflexivity | lia].
Qed.

(** The limits exist exactly for the bit lengths Python can shift by. *)
Lemma raw_limits_defined (sig : Signal) :
  (if is_signed sig then 1 <= length sig else 0 <= length sig) ->
  exists lo hi, raw_limits sig = Ok (lo, hi).
Proof.
  unfold raw_limits, py_shiftl. destruct (is_signed sig); intros Hlen.
  - destruct (Z.ltb_spec (length sig - 1) 0); [lia |]. cbn. eauto.
  - destruct (Z.ltb_spec (length sig) 0); [lia |]. cbn. eauto.
Qed.

(** [_clamp_raw] is the saturating projection onto [[lo, hi]]. *)
Lemma clamp_raw_spec (sig : Signal) (lo hi raw_val : Z) :
  raw_limits sig = Ok (lo, hi) ->
  _clamp_raw sig raw_val
  = Ok (Z.max lo (Z.min raw_val hi), negb (Z.max lo (Z.min raw_val hi) =? raw_val)).
Proof.
  intros Hlim. destruct (raw_limits_spec _ _ _ Hlim) as [_ Hle].
  unfold _clamp_raw. rewrite Hlim. cbn.
  destruct (Z.ltb_spec raw_val lo).
  - replace (Z.max lo (Z.min raw_val hi)) with lo by lia.
    destruct (Z.eqb_spec lo raw_val); [lia | reflexivity].
  - rewrite Z.gtb_ltb. destruct (Z.ltb_spec hi raw_val).
    + replace (Z.max lo (Z.min raw_val hi)) with hi by lia.
      destruct (Z.eqb_spec hi raw_val); [lia | reflexivity].
    + replace (Z.max lo (Z.min raw_val hi)) with raw_val by lia.
      rewrite Z.eqb_refl. reflexivity.
Qed.

End Limits.

(** ** The per-signal step and the loop over the signals *)

Section EncodeLoop.

Lemma to_raw_finite (sig : Signal) (x : Q) :
  ~ (scale sig == 0)%Q ->
  to_raw sig (Finite x) = Ok (py_round ((x - offset sig) / scale sig)).
Proof.
  intros Hs. unfold to_raw.
  destruct (Qeq_bool (scale sig) 0) eqn:E; [| reflexivity].
  apply Qeq_bool_iff in E. contradiction.
Qed.

Lemma encode_signal_spec (sig : Signal) (requested : pyobj) (lo hi : Z) :
  ~ (scale sig == 0)%Q ->
  raw_limits sig = Ok (lo, hi) ->
  let raw := py_round ((sanitized requested - offset sig) / scale sig) in
  let raw_clamped := Z.max lo (Z.min raw hi) in
  encode_signal sig requested
  = Ok (mkSignalOutcome raw raw_clamped (negb (raw_clamped =? raw)%Z)
                        (to_phys sig raw_clamped)).
Proof.
  intros Hs Hlim raw raw_clamped. unfold encode_signal.
  assert (Hraw : match
             to_raw sig
               (if isfinite match py_float requested with
                            | Ok f => f
                            | Raise _ => Finite 0
                            end
                then match py_float requested with
                     | Ok f => f
                     | Raise _ => Finite 0
                     end
                else Finite 0)
           with
           | Ok r => r
           | Raise _ => 0%Z
           end = raw).
  { destruct requested as [[x | | |] | r]; cbn [py_float isfinite];
      rewrite to_raw_finite by assumption; reflexivity. }
  rewrite Hraw. rewrite (clamp_raw_spec _ _ _ _ Hlim). reflexivity.
Qed.

(** A failing iteration fails the loop; the limits are all that can
    fail in an iteration. *)
Lemma encode_signal_raises_iff (sig : Signal) (requested : pyobj) :
  raises (encode_signal sig requested) = raises (raw_limits sig).
Proof.
  unfold encode_signal, _clamp_raw.
  destruct (raw_limits sig) as [[lo hi] | e]; cbn; [| reflexivity].
  match goal with |- context [Z.ltb ?a lo] => destruct (Z.ltb a lo) end;
    [reflexivity |].
  match goal with |- context [Z.gtb ?a hi] => destruct (Z.gtb a hi) end;
    reflexivity.
Qed.

Lemma encode_signals_other (sigs : list Signal) (desired : gmap string pyobj)
    (used used' : gmap string Q) (clamped clamped' : gmap string ClampEntry)
    (n : string) :
  encode_signals sigs desired used clamped = Ok (used', clamped') ->
  n ∉ map sig_name sigs ->
  used' !! n = used !! n.
Proof.
  revert used clamped. induction sigs as [| sig rest IH]; intros used clamped.
  - cbn. intros [= <- <-] _. reflexivity.
  - cbn [encode_signals map]. intros Hrun Hn.
    apply not_elem_of_cons in Hn as [Hne Hn].
    destruct (encode_signal sig _) as [o | e]; cbn in Hrun; [| discriminate].
    rewrite (IH _ _ Hrun Hn). apply lookup_insert_ne. congruence.
Qed.

Lemma encode_signals_lookup (sigs : list Signal) (desired : gmap string pyobj)
    (used used' : gmap string Q) (clamped clamped' : gmap string ClampEntry)
    (sig : Signal) :
  encode_signals sigs desired used clamped = Ok (used', clamped') ->
  sig ∈ sigs ->
  NoDup (map sig_name sigs) ->
  exists o,
    encode_signal sig (default (Num (Finite 0)) (desired !! sig_name sig)) = Ok o
    /\ used' !! sig_name sig = Some (so_phys_used o).
Proof.
  revert used clamped. induction sigs as [| s rest IH]; intros used clamped.
  - intros _ Hin. inversion Hin.
  - cbn [encode_signals map]. intros Hrun Hin Hnd.
    apply NoDup_cons in Hnd as [Hfresh Hnd].
    destruct (encode_signal s _) as [o | e] eqn:Hstep; cbn in Hrun; [| discriminate].
    apply elem_of_cons in Hin as [-> | Hin].
    + exists o. split; [assumption |].
      rewrite (encode_signals_other _ _ _ _ _ _ _ Hrun Hfresh).
      apply lookup_insert_eq.
    + eapply IH; eassumption.
Qed.

End EncodeLoop.

(** ** [encode_message_safe] *)



(** C8.  A desired value that is not numeric or not finite is replaced by
    0.0: the per-signal step raises only when the raw limits of the signal
    do (whatever the value), it converts 0.0, and the used value reported
    for the signal is [to_phys(sig, clamp(round((0.0 - offset) / scale)))];
    a message all of whose signals have raw limits gets through the loop,
    so that only cantools' own [encode] can still fail the call. *)
Theorem encode_message_safe_substitutes_zero
    (sig : Signal) (requested : pyobj) :
  unusable requested = true ->
  ~ (scale sig == 0)%Q ->
  let raw0 := py_round ((0 - offset sig) / scale sig) in
  raises (encode_signal sig requested) = raises (raw_limits sig)
  /\ (forall lo hi : Z,
        raw_limits sig = Ok (lo, hi) ->
        exists was_clamped : bool,
          _clamp_raw sig raw0 = Ok (Z.max lo (Z.min raw0 hi), was_clamped)
          /\ encode_signal sig requested
             = Ok (mkSignalOutcome raw0 (Z.max lo (Z.min raw0 hi)) was_clamped
                                   (to_phys sig (Z.max lo (Z.min raw0 hi)))))
  /\ (forall cantools_encode msg desired_phys payload used clamped,
        sig ∈ signals msg ->
        NoDup (map sig_name (signals msg)) ->
        desired_phys !! sig_name sig = Some requested ->
        encode_message_safe cantools_encode msg desired_phys
        = Ok (payload, used, clamped) ->
        exists (raw_clamped : Z) (was_clamped : bool),
          _clamp_raw sig raw0 = Ok (raw_clamped, was_clamped)
          /\ used !! sig_name sig = Some (to_phys sig raw_clamped))
  /\ (forall cantools_encode msg desired_phys,
        (forall s, s ∈ signals msg -> raises (raw_limits s) = false) ->
        exists used clamped,
          encode_signals (signals msg) desired_phys ∅ ∅ = Ok (used, clamped)
          /\ encode_message_safe cantools_encode msg desired_phys
             = (payload ← cantools_encode msg used; Ok (payload, used, clamped))).
Proof.
  intros Hbad Hs raw0.
  assert (Hsan : sanitized requested = 0%Q).
  { destruct requested as [[x | | |] | r]; cbn in Hbad; try discriminate; reflexivity. }
  assert (Hstep : forall lo hi, raw_limits sig = Ok (lo, hi) ->
            encode_signal sig requested
            = Ok (mkSignalOutcome raw0 (Z.max lo (Z.min raw0 hi))
                    (negb (Z.max lo (Z.min raw0 hi) =? raw0)%Z)
                    (to_phys sig (Z.max lo (Z.min raw0 hi))))).
  { intros lo hi Hlim.
    rewrite (encode_signal_spec sig requested lo hi Hs Hlim), Hsan. reflexivity. }
  split; [apply encode_signal_raises_iff |].
  split; [| split].
  - intros lo hi Hlim. eexists. split; [now apply clamp_raw_spec | now apply Hstep].
  - intros enc msg desired payload used clamped Hin Hnd Hreq Hrun.
    unfold encode_message_safe in Hrun.
    destruct (encode_signals (signals msg) desired ∅ ∅) as [[u c] | e] eqn:Hloop;
      cbn in Hrun; [| discriminate].
    destruct (enc msg u) as [pl | e]; cbn in Hrun; [| discriminate].
    injection Hrun as <- <- <-.
    destruct (encode_signals_lookup _ _ _ _ _ _ _ Hloop Hin Hnd) as (o & Ho & Hused).
    rewrite Hreq in Ho. cbn [from_option id] in Ho.
    destruct (raw_limits sig) as [[lo hi] | e] eqn:Hlim.
    + rewrite (Hstep lo hi eq_refl) in Ho. injection Ho as <-.
      eexists _, _. split; [eapply clamp_raw_spec; eassumption | exact Hused].
    + pose proof (encode_signal_raises_iff sig requested) as Hr.
      rewrite Ho, Hlim in Hr. discriminate.
  - intros enc msg desired Hall. unfold encode_message_safe.
    assert (Hloop : forall sigs u c,
              (forall s, s ∈ sigs -> raises (raw_limits s) = false) ->
              exists u' c', encode_signals sigs desired u c = Ok (u', c')).
    { induction sigs as [| s rest IH]; intros u c Hok; [cbn; eauto |].
      cbn [encode_signals].
      pose proof (encode_signal_raises_iff s
                    (default (Num (Finite 0)) (desired !! sig_name s))) as Hr.
      rewrite (Hok s) in Hr by apply list_elem_of_here.
      destruct (encode_signal s _) as [o | e]; [| discriminate]. cbn.
      apply IH. intros s' Hs'. apply Hok. now apply list_elem_of_further. }
    destruct (Hloop (signals msg) ∅ ∅ Hall) as (u' & c' & Hrun).
    exists u', c'. rewrite Hrun. split; reflexivity.
Qed.

Lemma encode_message_safe_substitutes_zero_witness :
  let raw0 := py_round ((0 - offset rpm) / scale rpm) in
  raises (encode_signal rpm (NotNum "fast")) = raises (raw_limits rpm)
  /\ (forall lo hi : Z,
        raw_limits rpm = Ok (lo, hi) ->
        exists was_clamped : bool,
          _clamp_raw rpm raw0 = Ok (Z.max lo (Z.min raw0 hi), was_clamped)
          /\ encode_signal rpm (NotNum "fast")
             = Ok (mkSignalOutcome raw0 (Z.max lo (Z.min raw0 hi)) was_clamped
                                   (to_phys rpm (Z.max lo (Z.min raw0 hi)))))
  /\ (forall cantools_encode msg desired_phys payload used clamped,
        rpm ∈ signals msg ->
        NoDup (map sig_name (signals msg)) ->
        desired_phys !! sig_name rpm = Some (NotNum "fast") ->
        encode_message_safe cantools_encode msg desired_phys
        = Ok (payload, used, clamped) ->
        exists (raw_clamped : Z) (was_clamped : bool),
          _clamp_raw rpm raw0 = Ok (raw_clamped, was_clamped)
          /\ used !! sig_name rpm = Some (to_phys rpm raw_clamped))
  /\ (forall cantools_encode msg desired_phys,
        (forall s, s ∈ signals msg -> raises (raw_limits s) = false) ->
        exists used clamped,
          encode_signals (signals msg) desired_phys ∅ ∅ = Ok (used, clamped)
          /\ encode_message_safe cantools_encode msg desired_phys
             = (payload ← cantools_encode msg used; Ok (payload, used, clamped))).
Proof.
  apply (encode_message_safe_substitutes_zero rpm (NotNum "fast")).
  - reflexivity.
  - vm_compute. discriminate.
Defined.

(** ** Saturation *)

(** C9.  A raw value exactly at a raw limit and a raw value twice that limit
    are clamped to the same value, the limit itself, whether the raw values
    are given directly or come from the conversion of physical values; more
    generally every raw value at or beyond a limit is clamped to that limit,
    so nothing wraps around. *)
Theorem clamp_raw_saturates
    (sig : Signal) (lo hi lim : Z) (x1 x2 : Q) :
  raw_limits sig = Ok (lo, hi) ->
  lim = lo \/ lim = hi ->
  to_raw sig (Finite x1) = Ok lim ->
  to_raw sig (Finite x2) = Ok (2 * lim)%Z ->
  (exists f1 f2 : bool,
      _clamp_raw sig lim = Ok (lim, f1) /\ _clamp_raw sig (2 * lim) = Ok (lim, f2))
  /\ (exists o1 o2 : SignalOutcome,
        encode_signal sig (Num (Finite x1)) = Ok o1
        /\ encode_signal sig (Num (Finite x2)) = Ok o2
        /\ so_raw_clamped o1 = lim
        /\ so_raw_clamped o2 = lim
        /\ so_phys_used o1 = so_phys_used o2)
  /\ (forall r : Z,
        ((hi <= r)%Z -> exists f, _clamp_raw sig r = Ok (hi, f))
        /\ ((r <= lo)%Z -> exists f, _clamp_raw sig r = Ok (lo, f))).
Proof.
  intros Hlim Hwhich Hx1 Hx2.
  destruct (raw_limits_spec _ _ _ Hlim) as [_ Hle].
  assert (Hc1 : Z.max lo (Z.min lim hi) = lim) by lia.
  assert (Hc2 : Z.max lo (Z.min (2 * lim) hi) = lim) by lia.
  split; [| split].
  - eexists _, _. rewrite !(clamp_raw_spec _ _ _ _ Hlim), Hc1, Hc2. split; reflexivity.
  - unfold encode_signal. cbn [py_float isfinite]. rewrite Hx1, Hx2.
    rewrite !(clamp_raw_spec _ _ _ _ Hlim), Hc1, Hc2. cbn.
    eexists _, _. repeat split; reflexivity.
  - intros r. split; intros Hr; eexists; rewrite (clamp_raw_spec _ _ _ _ Hlim).
    + replace (Z.max lo (Z.min r hi)) with hi by lia. reflexivity.
    + replace (Z.max lo (Z.min r hi)) with lo by lia. reflexivity.
Qed.

Lemma clamp_raw_saturates_witness :
  (exists f1 f2 : bool,
      _clamp_raw rpm 65535 = Ok (65535%Z, f1)
      /\ _clamp_raw rpm (2 * 65535) = Ok (65535%Z, f2))
  /\ (exists o1 o2 : SignalOutcome,
        encode_signal rpm (Num (Finite 65535)) = Ok o1
        /\ encode_signal rpm (Num (Finite 131070)) = Ok o2
        /\ so_raw_clamped o1 = 65535%Z
        /\ so_raw_clamped o2 = 65535%Z
        /\ so_phys_used o1 = so_phys_used o2)
  /\ (forall r : Z,
        ((65535 <= r)%Z -> exists f, _clamp_raw rpm r = Ok (65535%Z, f))
        /\ ((r <= 0)%Z -> exists f, _clamp_raw rpm r = Ok (0%Z, f))).
Proof.
  apply (clamp_raw_saturates rpm 0 65535 65535 65535 131070).
  - vm_compute. reflexivity.
  - right. reflexivity.
  - vm_compute. reflexivity.
  - vm_compute. reflexivity.
Defined.

(** ** Round trip *)

Section RoundTrip.

Local Open Scope Q_scope.

(** The physical value of the rounded raw value differs from the one
    converted by the rounding error times the scale. *)
Lemma round_trip_error (sig : Signal) (x : Q) :
  ~ scale sig == 0 ->
  let y := (x - offset sig) / scale sig in
  to_phys sig (py_round y) - x == (inject_Z (py_round y) - y) * scale sig.
Proof.
  intros Hs y. unfold to_phys.
  assert (Hy : y * scale sig == x - offset sig).
  { unfold y. rewrite Qmult_comm. apply Qmult_div_r. exact Hs. }
  lra.
Qed.

Lemma round_trip_half_scale (sig : Signal) (x : Q) :
  ~ scale sig == 0 ->
  Qabs (to_phys sig (py_round ((x - offset sig) / scale sig)) - x)
  <= (1 # 2) * Qabs (scale sig).
Proof.
  intros Hs. rewrite (round_trip_error sig x Hs). cbv zeta.
  rewrite Qabs_Qmult.
  apply Qmult_le_compat_r; [| apply Qabs_nonneg].
  apply Qabs_Qle_condition.
  pose proof (py_round_near ((x - offset sig) / scale sig)). lra.
Qed.


End RoundTrip.




(** ** The scheduler *)

Import Scheduler.

(** C10.  A rate that is zero or negative makes the constructor raise
    [ValueError]; a positive rate gives a scheduler with period [1 / hz]
    that has not been started. *)
Theorem init_rejects_nonpositive_rate (rate : Q) :
  ((rate <= 0)%Q -> init rate = Raise ValueError)
  /\ ((0 < rate)%Q ->
      exists s, init rate = Ok s
                /\ hz s = rate /\ dt s = (1 / rate)%Q
                /\ _start s = None /\ _next s = None).
Proof.
  unfold init. split; intros Hr.
  - apply Qle_bool_iff in Hr. rewrite Hr. reflexivity.
  - destruct (Qle_bool rate 0) eqn:E.
    + apply Qle_bool_iff in E. lra.
    + eexists. repeat split; reflexivity.
Qed.

Lemma init_rejects_nonpositive_rate_witness :
  init (- (5 # 1)) = Raise ValueError
  /\ exists s, init 50 = Ok s
               /\ hz s = 50%Q /\ dt s = (1 / 50)%Q
               /\ _start s = None /\ _next s = None.
Proof.
  split.
  - apply (proj1 (init_rejects_nonpositive_rate (- (5 # 1)))). vm_compute. discriminate.
  - apply (proj2 (init_rejects_nonpositive_rate 50)). reflexivity.
Defined.

Section WaitNext.

Local Open Scope Q_scope.

Variable clk : Clock.
Variable s : FixedRateScheduler.

(** The deadline [wait_next] finds stored, [start()] included. *)
Let deadline : Q := snd (ensure_started clk s).

Lemma ensure_started_dt : dt (fst (fst (ensure_started clk s))) = dt s.
Proof.
  unfold ensure_started. destruct (_start s), (_next s); reflexivity.
Qed.

Lemma wait_next_unfold :
  wait_next clk s
  = let s0 := fst (fst (ensure_started clk s)) in
    let start_v := snd (fst (ensure_started clk s)) in
    if Qle_bool (deadline - clk_now clk) 0
    then mkWaitResult
           (mkScheduler (hz s0) (dt s0) (_start s0) (Some (clk_now clk + dt s0)))
           None
           (clk_now clk - (if Qeq_bool start_v 0 then clk_now clk else start_v))
    else mkWaitResult
           (mkScheduler (hz s0) (dt s0) (_start s0) (Some (deadline + dt s0)))
           (Some (deadline - clk_now clk))
           (clk_woke clk - (if Qeq_bool start_v 0 then clk_woke clk else start_v)).
Proof.
  unfold wait_next, deadline.
  destruct (ensure_started clk s) as [[s0 st] nx]. cbn [fst snd].
  destruct (Qle_bool (nx - clk_now clk) 0); reflexivity.
Qed.

(** The call returns without sleeping exactly when it is late. *)
Lemma wait_next_immediate_iff :
  wr_slept (wait_next clk s) = None <-> deadline <= clk_now clk.
Proof.
  rewrite wait_next_unfold. cbv zeta.
  destruct (Qle_bool (deadline - clk_now clk) 0) eqn:E; cbn [wr_slept].
  - apply Qle_bool_iff in E. split; [intros _; lra | reflexivity].
  - split; [discriminate |]. intros Hle.
    assert (Hle' : deadline - clk_now clk <= 0) by lra.
    apply Qle_bool_iff in Hle'. congruence.
Qed.

Lemma ensure_started_started (st nx : Q) :
  _start s = Some st -> _next s = Some nx -> ensure_started clk s = (s, st, nx).
Proof. intros H1 H2. unfold ensure_started. rewrite H1, H2. reflexivity. Qed.

Lemma ensure_started_has_start :
  exists st, _start (fst (fst (ensure_started clk s))) = Some st.
Proof.
  unfold ensure_started, start. destruct s as [h d [st |] [nx |]]; cbn; eauto.
Qed.

End WaitNext.

(** C3.  When the clock is at or past the stored deadline, [wait_next] does
    not sleep and the new deadline is the current time plus one period;
    otherwise it sleeps until the deadline, and the new deadline is the old
    one plus one period.  Either way exactly one period is added, to the
    deadline or to the current time.  Hence after a late call a further
    call that does not sleep either comes at least one period after it: a
    late tick is not followed by a burst. *)
Theorem wait_next_no_burst (clk : Clock) (s : FixedRateScheduler) :
  let deadline := snd (ensure_started clk s) in
  let r := wait_next clk s in
  ((deadline <= clk_now clk)%Q ->
     wr_slept r = None
     /\ _next (wr_sched r) = Some (clk_now clk + dt s)%Q
     /\ forall clk2 : Clock,
          wr_slept (wait_next clk2 (wr_sched r)) = None ->
          (clk_now clk + dt s <= clk_now clk2)%Q)
  /\ ((clk_now clk < deadline)%Q ->
        wr_slept r = Some (deadline - clk_now clk)%Q
        /\ _next (wr_sched r) = Some (deadline + dt s)%Q)
  /\ (exists base : Q,
        (base = deadline \/ base = clk_now clk)
        /\ _next (wr_sched r) = Some (base + dt s)%Q)
  /\ dt (wr_sched r) = dt s
  /\ hz (wr_sched r) = hz s.
Proof.
  intros deadline r. unfold r. rewrite wait_next_unfold.
  fold deadline. cbv zeta. rewrite ensure_started_dt.
  assert (Hhz : hz (fst (fst (ensure_started clk s))) = hz s).
  { unfold ensure_started. destruct (_start s), (_next s); reflexivity. }
  destruct (Qle_bool (deadline - clk_now clk) 0) eqn:E; cbn [wr_slept wr_sched _next dt hz].
  - apply Qle_bool_iff in E.
    split; [| split; [| split; [| split]]].
    + intros _. split; [reflexivity |]. split; [reflexivity |].
      intros clk2 Hnone. apply wait_next_immediate_iff in Hnone.
      destruct (ensure_started_has_start clk s) as [st Est].
      match type of Hnone with
      | context [ensure_started clk2 ?s'] =>
          rewrite (ensure_started_started clk2 s' st (clk_now clk + dt s) Est eq_refl)
            in Hnone
      end.
      exact Hnone.
    + intros Hlt. lra.
    + exists (clk_now clk). split; [right |]; reflexivity.
    + reflexivity.
    + exact Hhz.
  - assert (Hlt : (clk_now clk < deadline)%Q).
    { destruct (Qlt_le_dec (clk_now clk) deadline) as [H | H]; [exact H |].
      assert (Hle : (deadline - clk_now clk <= 0)%Q) by lra.
      apply Qle_bool_iff in Hle. congruence. }
    split; [| split; [| split; [| split]]].
    + intros Hle. lra.
    + intros _. split; reflexivity.
    + exists deadline. split; [left |]; reflexivity.
    + reflexivity.
    + exact Hhz.
Qed.

Lemma wait_next_no_burst_witness :
  wr_slept (wait_next late_clock running) = None
  /\ _next (wr_sched (wait_next late_clock running)) = Some (11 + (1 # 50))%Q
  /\ forall clk2 : Clock,
       wr_slept (wait_next clk2 (wr_sched (wait_next late_clock running))) = None ->
       (11 + (1 # 50) <= clk_now clk2)%Q.
Proof.
  apply (proj1 (wait_next_no_burst late_clock running)).
  vm_compute. discriminate.
Defined.

(** ** The transports *)

Import Transport.

(** A call of [send] that returns [False] has added one to [tx_errors],
    in every variant. *)
Lemma send_false_counts_one (env : LinkEnv) (tr tr' : CanTransport)
    (frame_id : Z) (payload : list byte) (is_extended : bool) :
  send env tr frame_id payload is_extended = (tr', Ok false) ->
  tx_errors tr' = (tx_errors tr + 1)%Z.
Proof.
  destruct tr as [s | s | s]; cbn [send tx_errors].
  - unfold Termux.send. destruct (Termux.dev s); [| intros [= <-]].
    destruct (UsbSlcan.write_ascii env _); intros [= <-].
  - unfold PythonCan.send. destruct (PythonCan.bus s); [| intros [= <-]].
    destruct (PythonCan.send_body env s frame_id payload is_extended) as [b | e] eqn:Hb.
    + intros [= <- ->]. exfalso. revert Hb. unfold PythonCan.send_body.
      destruct (decide _); [destruct (PythonCan.termux_usb s); [| discriminate];
                            destruct (UsbSlcan.write_ascii env _)
                           | destruct (bus_send env)]; cbn; discriminate.
    + destruct e; intros [= <-]. reflexivity.
  - unfold SlcanSerial.send. destruct (SlcanSerial.ser s); [| intros [= <-]].
    destruct (SlcanSerial.format_frame _ _ _); [| intros [= <-]].
    destruct (SlcanSerial._write_cmd env s _); intros [= <-]. reflexivity.
Qed.

(** On an open serial transport a failed write of a well-formed frame
    makes [send] return [False]. *)
Lemma slcan_send_failure_returns_false (env : LinkEnv) (s : SlcanSerial.t)
    (frame_id : Z) (payload : list byte) (is_extended : bool) (frame : string) (e : exn) :
  SlcanSerial.ser s = Some tt ->
  SlcanSerial.format_frame frame_id payload is_extended = Ok frame ->
  SlcanSerial._write_cmd env s frame = Raise e ->
  SlcanSerial.send env s frame_id payload is_extended
  = (SlcanSerial.set_tx_errors s (SlcanSerial.tx_errors s + 1), Ok false).
Proof.
  intros Hser Hfmt Hw. unfold SlcanSerial.send. rewrite Hser, Hfmt, Hw. reflexivity.
Qed.

(** On an open python-can transport a [can.CanError] of the bus makes
    [send] return [False]. *)
Lemma pythoncan_send_failure_returns_false (env : LinkEnv) (s : PythonCan.t)
    (frame_id : Z) (payload : list byte) (is_extended : bool) :
  PythonCan.bus s = Some tt ->
  PythonCan.backend s <> Some "termux-usb"%string ->
  bus_send env = Raise CanError ->
  PythonCan.send env s frame_id payload is_extended
  = (PythonCan.set_tx_errors s (PythonCan.tx_errors s + 1), Ok false).
Proof.
  intros Hbus Hbk Hsend. unfold PythonCan.send, PythonCan.send_body.
  rewrite Hbus. destruct (decide _); [contradiction |]. rewrite Hsend. reflexivity.
Qed.

(** On an open Termux transport a failed write counts the error and
    raises the exception again. *)
Lemma termux_send_failure_raises (env : LinkEnv) (s : Termux.t)
    (frame_id : Z) (payload : list byte) (is_extended : bool) (e : exn) :
  Termux.dev s = Some tt ->
  UsbSlcan.write_ascii env (Termux.frame_text frame_id payload is_extended) = Raise e ->
  Termux.send env s frame_id payload is_extended
  = (Termux.mk (Termux.bitrate s) (Termux.dev s) (Termux.tx_errors s + 1), Raise e).
Proof.
  intros Hdev Hw. unfold Termux.send. rewrite Hdev, Hw. reflexivity.
Qed.

(** C6, at a failing link.  The serial and the python-can transports
    return [False] and count the error; the Termux transport counts the
    error and raises. *)
Theorem send_on_failing_link :
  send failing_link (SlcanSerialTransport slcan_open) 291 payload8 false
  = (SlcanSerialTransport (SlcanSerial.set_tx_errors slcan_open 1), Ok false)
  /\ send failing_link (PythonCanTransport pythoncan_open) 291 payload8 false
     = (PythonCanTransport (PythonCan.set_tx_errors pythoncan_open 1), Ok false)
  /\ send failing_link (TermuxUsbSlcanTransport termux_open) 291 payload8 false
     = (TermuxUsbSlcanTransport (Termux.mk 500000 (Some tt) 1), Raise LibusbError).
Proof. repeat split; vm_compute; reflexivity. Qed.

(** C7.  In every variant and every state, whatever the link answers,
    [close] returns without raising and leaves the link attribute empty;
    closing again changes nothing and returns as well; the error counter
    is kept. *)
Theorem close_never_raises (env env' : LinkEnv) (tr : CanTransport) :
  let tr' := fst (close env tr) in
  snd (close env tr) = Ok tt
  /\ link tr' = None
  /\ close env' tr' = (tr', Ok tt)
  /\ tx_errors tr' = tx_errors tr.
Proof.
  destruct tr as [s | s | s]; cbn [close].
  - unfold Termux.close. destruct s as [b [[] |] n]; cbn; repeat split; reflexivity.
  - unfold PythonCan.close. destruct s as [i c b [[] |] t k n]; cbn; repeat split; reflexivity.
  - unfold SlcanSerial.close. destruct s as [p b sb sk [[] |] n]; cbn; repeat split; reflexivity.
Qed.

(** ** The send loop and the reopen path *)

Import CliRunner.

Section Recovery.

Variable hardkill_enabled : bool.

Lemma send_one_failed (env : SendEnv) (fid : Z) (data : list byte) (ext : bool)
    (st : RunState) :
  send_failed env = true ->
  (consec_errors st + 1 < 50)%Z ->
  exists st',
    send_one hardkill_enabled env fid data ext st = (st', Continue, [BusSend fid data ext])
    /\ consec_errors st' = (consec_errors st + 1)%Z
    /\ backoff st' = backoff st
    /\ tx_frames st' = tx_frames st
    /\ stop_evt st' = stop_evt st.
Proof.
  intros Hf Hlt. unfold send_one. unfold send_failed in Hf.
  destruct (send_result env) as [[|] | e]; try discriminate;
    cbn [consec_errors];
    (destruct (Z.geb_spec (consec_errors st + 1) 50); [lia |]);
    eexists; repeat split; reflexivity.
Qed.

Lemma send_one_succeeded (env : SendEnv) (fid : Z) (data : list byte) (ext : bool)
    (st : RunState) :
  send_failed env = false ->
  send_one hardkill_enabled env fid data ext st
  = (mkRunState (tx_frames st + 1) 0 (1 # 2) (send_exception_count st) (stop_evt st),
     Continue, [BusSend fid data ext]).
Proof.
  intros Hf. unfold send_one. unfold send_failed in Hf.
  destruct (send_result env) as [[|] | e]; try discriminate. reflexivity.
Qed.

(** Fewer than 50 failures in a row only count. *)
Lemma send_attempts_failed_run (fails : list Attempt) (st : RunState) :
  Forall (fun a => send_failed (at_env a) = true) fails ->
  (consec_errors st + Z.of_nat (List.length fails) < 50)%Z ->
  exists st',
    send_attempts hardkill_enabled fails st = (st', Continue, map send_event fails)
    /\ consec_errors st' = (consec_errors st + Z.of_nat (List.length fails))%Z
    /\ backoff st' = backoff st
    /\ tx_frames st' = tx_frames st
    /\ stop_evt st' = stop_evt st.
Proof.
  revert st. induction fails as [| a rest IH]; intros st Hall Hlt.
  - exists st. cbn. repeat split; lia.
  - apply Forall_cons in Hall as [Ha Hrest]. cbn [List.length] in Hlt.
    destruct (send_one_failed (at_env a) (at_frame_id a) (at_data a)
                (at_is_extended a) st Ha ltac:(lia))
      as (st1 & Hone & Hc & Hb & Ht & Hs).
    destruct (IH st1 Hrest ltac:(lia)) as (st2 & Hrun & Hc2 & Hb2 & Ht2 & Hs2).
    exists st2. cbn [send_attempts map]. rewrite Hone, Hrun.
    cbn [List.length]. repeat split; try congruence; lia.
Qed.

Lemma send_attempts_app (l1 l2 : list Attempt) (st st1 : RunState)
    (tr1 : list event) :
  send_attempts hardkill_enabled l1 st = (st1, Continue, tr1) ->
  send_attempts hardkill_enabled (l1 ++ l2) st
  = (let '(st2, fl, tr2) := send_attempts hardkill_enabled l2 st1 in
     (st2, fl, tr1 ++ tr2)).
Proof.
  revert st st1 tr1. induction l1 as [| a rest IH]; intros st st1 tr1.
  - cbn. intros [= <- <-]. destruct (send_attempts _ l2 st) as [[? ?] ?]. reflexivity.
  - cbn [send_attempts app].
    destruct (send_one _ _ _ _ _ st) as [[sa fa] ta].
    destruct fa; try (intros [=]; fail).
    destruct (send_attempts _ rest sa) as [[sb fb] tb] eqn:Hrest.
    intros [= <- -> <-].
    rewrite (IH _ _ _ Hrest).
    destruct (send_attempts _ l2 sb) as [[? ?] ?].
    rewrite app_assoc. reflexivity.
Qed.

End Recovery.

Section Backoff.

Local Open Scope Q_scope.

Lemma py_min_Qmin (a b : Q) : py_min a b == Qmin a b.
Proof.
  unfold py_min.
  destruct (Qcompare_spec b a) as [He | Hl | Hg].
  - destruct (Q.min_spec a b) as [[_ ->] | [_ ->]]; [reflexivity | now symmetry].
  - rewrite Q.min_r by lra. reflexivity.
  - rewrite Q.min_l by lra. reflexivity.
Qed.

(** One failed attempt takes the closed form one step further. *)
Lemma backoff_at_step (k : nat) (b : Q) :
  b == backoff_at k -> py_min (b * 2) 2 == backoff_at (S k).
Proof.
  intros Hb. rewrite py_min_Qmin. unfold backoff_at in *.
  rewrite Nat2Z.inj_succ, Z.pow_succ_r by lia.
  rewrite inject_Z_mult. change (inject_Z 2) with 2.
  set (p := inject_Z (2 ^ Z.of_nat k)) in *.
  assert (Hp : 1 <= p).
  { unfold p. change 1 with (inject_Z 1). rewrite <- Zle_Qle.
    pose proof (Z.pow_pos_nonneg 2 (Z.of_nat k)). lia. }
  destruct (Q.min_spec ((1 # 2) * p) 2) as [[H1 E1] | [H1 E1]];
    rewrite Hb, E1.
  - destruct (Q.min_spec ((1 # 2) * p * 2) 2) as [[H2 ->] | [H2 ->]];
      destruct (Q.min_spec ((1 # 2) * (2 * p)) 2) as [[H3 ->] | [H3 ->]]; lra.
  - destruct (Q.min_spec (2 * 2) 2) as [[H2 ->] | [H2 ->]];
      destruct (Q.min_spec ((1 # 2) * (2 * p)) 2) as [[H3 ->] | [H3 ->]]; lra.
Qed.

Lemma retry_sleeps_closed_form (n k : nat) (b : Q) :
  b == backoff_at k ->
  Forall2 Qeq (retry_sleeps n b) (map backoff_at (seq k n)).
Proof.
  revert k b. induction n as [| n IH]; intros k b Hb; cbn.
  - constructor.
  - constructor; [exact Hb |]. apply IH. now apply backoff_at_step.
Qed.

Lemma backoff_after_closed_form (n k : nat) (b : Q) :
  b == backoff_at k -> backoff_after n b == backoff_at (n + k).
Proof.
  revert k b. induction n as [| n IH]; intros k b Hb; cbn [backoff_after].
  - exact Hb.
  - rewrite (IH (S k)) by now apply backoff_at_step.
    replace (n + S k)%nat with (S n + k)%nat by lia. reflexivity.
Qed.

(** The sleeps are 0.5, 1, 2, 2, 2, ... *)
Lemma backoff_at_values (k : nat) :
  backoff_at 0 == 1 # 2 /\ backoff_at 1 == 1 /\ backoff_at (S (S k)) == 2.
Proof.
  split; [reflexivity | split; [reflexivity |]].
  unfold backoff_at. apply Q.min_r.
  rewrite !Nat2Z.inj_succ, !Z.pow_succ_r by lia.
  rewrite !inject_Z_mult. change (inject_Z 2) with 2.
  assert (Hp : 1 <= inject_Z (2 ^ Z.of_nat k)).
  { change 1 with (inject_Z 1). rewrite <- Zle_Qle.
    pose proof (Z.pow_pos_nonneg 2 (Z.of_nat k)). lia. }
  lra.
Qed.

End Backoff.

Section Reopen.

(** The reopen loop through its failed attempts. *)
Lemma reopen_loop_failures (es : list exn) (ending : list reopen_step)
    (st : RunState) :
  stop_evt st = false ->
  reopen_loop (map OpenRaised es ++ ending) st
  = (let '(st', fl, tr) :=
       reopen_loop ending
         (mkRunState (tx_frames st) (consec_errors st)
                     (backoff_after (List.length es) (backoff st))
                     (send_exception_count st) false) in
     (st', fl, retry_events (retry_sleeps (List.length es) (backoff st)) ++ tr)).
Proof.
  revert st. induction es as [| e rest IH]; intros st Hstop.
  - cbn [map app List.length backoff_after retry_sleeps retry_events].
    destruct st as [t c b x s]. cbn in Hstop. subst s. cbn [tx_frames consec_errors backoff send_exception_count].
    destruct (reopen_loop ending _) as [[? ?] ?]. reflexivity.
  - cbn [map app reopen_loop List.length backoff_after retry_sleeps retry_events].
    rewrite Hstop. rewrite IH by reflexivity.
    cbn [tx_frames consec_errors backoff send_exception_count stop_evt].
    destruct (reopen_loop ending _) as [[? ?] ?]. reflexivity.
Qed.

(** How the loop leaves after the failed attempts. *)
Lemma reopen_loop_ending (ending : list reopen_step) (st : RunState) :
  stop_evt st = false ->
  ending_ok ending ->
  exists st',
    reopen_loop ending st = (st', ending_flow ending, ending_events ending)
    /\ tx_frames st' = tx_frames st
    /\ match ending_flow ending with
       | Continue => consec_errors st' = 0%Z /\ backoff st' = (1 # 2)%Q
                     /\ stop_evt st' = false
       | Break => stop_evt st' = true /\ backoff st' = backoff st
       | Retrying => st' = st
       end.
Proof.
  intros Hstop Hok. destruct ending as [| [| | e] rest]; cbn in Hok |- *;
    rewrite ?Hstop; try contradiction; eexists; repeat split; try reflexivity.
Qed.

(** The loop goes on to the next message only after a successful
    [bus.open()]. *)
Lemma reopen_loop_continue (steps : list reopen_step) (st : RunState) :
  snd (fst (reopen_loop steps st)) = Continue ->
  consec_errors (fst (fst (reopen_loop steps st))) = 0%Z
  /\ backoff (fst (fst (reopen_loop steps st))) = (1 # 2)%Q
  /\ stop_evt (fst (fst (reopen_loop steps st))) = false.
Proof.
  revert st. induction steps as [| step rest IH]; intros [t c b x [|]];
    cbn [reopen_loop stop_evt]; try discriminate.
  destruct step; cbn [fst snd]; try discriminate.
  - intros _. repeat split.
  - cbn [tx_frames consec_errors backoff send_exception_count].
    specialize (IH (mkRunState t c (py_min (b * 2) 2) x false)).
    destruct (reopen_loop rest _) as [[? ?] ?]. exact IH.
Qed.

End Reopen.

Section Floor.

Variable hardkill_enabled : bool.

(** Between two send attempts the backoff is at its floor and the stop
    event is clear: a successful send and a successful reopen set 0.5, a
    failed send leaves the backoff alone, and the failed reopen attempts
    that raise it end in a successful one or in [break]. *)
Lemma send_one_keeps_floor (env : SendEnv) (fid : Z) (data : list byte) (ext : bool)
    (st : RunState) :
  stop_evt st = false ->
  (backoff st == 1 # 2)%Q ->
  snd (fst (send_one hardkill_enabled env fid data ext st)) = Continue ->
  stop_evt (fst (fst (send_one hardkill_enabled env fid data ext st))) = false
  /\ (backoff (fst (fst (send_one hardkill_enabled env fid data ext st))) == 1 # 2)%Q.
Proof.
  intros Hstop Hback. unfold send_one.
  assert (Hre : forall s : RunState,
            snd (fst (let '(st', fl, tr) := reopen_loop (reopen_steps env) s in
                      (st', fl,
                       BusSend fid data ext :: Emit "reopen_begin" :: BusClose
                         :: hard_reset_events hardkill_enabled env ++ tr))) = Continue ->
            stop_evt (fst (fst (let '(st', fl, tr) := reopen_loop (reopen_steps env) s in
                      (st', fl,
                       BusSend fid data ext :: Emit "reopen_begin" :: BusClose
                         :: hard_reset_events hardkill_enabled env ++ tr)))) = false
            /\ (backoff (fst (fst (let '(st', fl, tr) := reopen_loop (reopen_steps env) s in
                      (st', fl,
                       BusSend fid data ext :: Emit "reopen_begin" :: BusClose
                         :: hard_reset_events hardkill_enabled env ++ tr)))) == 1 # 2)%Q).
  { intros s. pose proof (reopen_loop_continue (reopen_steps env) s) as Hc.
    destruct (reopen_loop (reopen_steps env) s) as [[st' fl] tr]. cbn [fst snd] in *.
    intros Hfl. destruct (Hc Hfl) as (_ & -> & ->). split; reflexivity. }
  destruct (send_result env) as [[|] | e]; cbn [consec_errors].
  - intros _. cbn. split; [exact Hstop | reflexivity].
  - destruct (Z.geb _ 50); [apply Hre |]. intros _. cbn. split; assumption.
  - destruct (Z.geb _ 50); [apply Hre |]. intros _. cbn. split; assumption.
Qed.

Lemma send_attempts_keep_floor (attempts : list Attempt) (st : RunState) :
  stop_evt st = false ->
  (backoff st == 1 # 2)%Q ->
  snd (fst (send_attempts hardkill_enabled attempts st)) = Continue ->
  stop_evt (fst (fst (send_attempts hardkill_enabled attempts st))) = false
  /\ (backoff (fst (fst (send_attempts hardkill_enabled attempts st))) == 1 # 2)%Q.
Proof.
  revert st. induction attempts as [| a rest IH]; intros st Hstop Hback.
  - cbn. intros _. split; assumption.
  - cbn [send_attempts].
    pose proof (send_one_keeps_floor (at_env a) (at_frame_id a) (at_data a)
                  (at_is_extended a) st Hstop Hback) as Hone.
    destruct (send_one _ _ _ _ _ st) as [[st1 fl] tr1]. cbn [fst snd] in Hone.
    destruct fl; cbn [fst snd]; try discriminate.
    destruct (Hone eq_refl) as [Hs1 Hb1].
    specialize (IH st1 Hs1 Hb1).
    destruct (send_attempts _ rest st1) as [[st2 fl2] tr2]. exact IH.
Qed.

End Floor.

(** C4.  At any point of a session where the send loop is running and
    no failure is counted, 49 failed sends in a row only count.  If the
    next send succeeds, the trace holds nothing but the 50 sends (the bus is
    neither closed nor reopened), and the counter is 0 and the backoff 0.5
    again.  If the next send fails too, the counter is at 50 and the loop
    emits [reopen_begin], closes the bus and retries [open()]: each failed
    attempt is followed by a sleep, the sleeps being 0.5 doubled each time
    and capped at 2.0, until [open()] succeeds (counter 0, backoff 0.5, on
    with the next message), or the stop file is seen (out of the send loop
    with the stop event set); as long as neither happens the loop is still
    retrying. *)
Theorem recovery_after_consecutive_failures
    (hardkill_enabled : bool) (earlier fails : list Attempt) (next : Attempt)
    (st0 : RunState) (tr0 : list event) :
  send_attempts hardkill_enabled earlier initial_state = (st0, Continue, tr0) ->
  consec_errors st0 = 0%Z ->
  List.length fails = 49%nat ->
  Forall (fun a => send_failed (at_env a) = true) fails ->
  (send_failed (at_env next) = false ->
     exists st,
       send_attempts hardkill_enabled (fails ++ [next]) st0
       = (st, Continue, map send_event (fails ++ [next]))
       /\ consec_errors st = 0%Z
       /\ backoff st = (1 # 2)%Q
       /\ tx_frames st = (tx_frames st0 + 1)%Z)
  /\ (forall (es : list exn) (ending : list reopen_step),
        send_failed (at_env next) = true ->
        reopen_steps (at_env next) = map OpenRaised es ++ ending ->
        ending_ok ending ->
        exists st sleeps,
          send_attempts hardkill_enabled (fails ++ [next]) st0
          = (st, ending_flow ending,
             map send_event fails
               ++ send_event next :: Emit "reopen_begin" :: BusClose
               :: hard_reset_events hardkill_enabled (at_env next)
               ++ retry_events sleeps ++ ending_events ending)
          /\ Forall2 Qeq sleeps (map backoff_at (seq 0 (List.length es)))
          /\ match ending_flow ending with
             | Continue =>
                 consec_errors st = 0%Z /\ backoff st = (1 # 2)%Q
                 /\ stop_evt st = false
             | Break => stop_evt st = true
             | Retrying =>
                 consec_errors st = 50%Z
                 /\ (backoff st == backoff_at (List.length es))%Q
                 /\ stop_evt st = false
             end).
Proof.
  intros Hearlier Hzero Hlen Hall.
  assert (Hfloor : stop_evt st0 = false /\ (backoff st0 == 1 # 2)%Q).
  { pose proof (send_attempts_keep_floor hardkill_enabled earlier initial_state
                  eq_refl ltac:(reflexivity)) as Hinv.
    rewrite Hearlier in Hinv. exact (Hinv eq_refl). }
  destruct Hfloor as [Hstop Hback].
  destruct (send_attempts_failed_run hardkill_enabled fails st0 Hall ltac:(lia))
    as (st1 & Hrun & Hc & Hb & Ht & Hs).
  rewrite Hlen, Hzero in Hc. cbn in Hc.
  split.
  - intros Hgood.
    rewrite (send_attempts_app _ _ _ _ _ _ Hrun). cbn [send_attempts].
    rewrite (send_one_succeeded _ _ _ _ _ _ Hgood). cbn [send_attempts].
    eexists. split; [rewrite map_app; reflexivity |].
    cbn [consec_errors backoff tx_frames]. repeat split. lia.
  - intros es ending Hbad Hsteps Hok.
    rewrite (send_attempts_app _ _ _ _ _ _ Hrun). cbn [send_attempts].
    unfold send_one. unfold send_failed in Hbad.
    assert (Hloop : forall exc,
      exists st,
        reopen_loop (reopen_steps (at_env next))
          (mkRunState (tx_frames st1) (consec_errors st1 + 1) (backoff st1) exc
                      (stop_evt st1))
        = (st, ending_flow ending,
           retry_events (retry_sleeps (List.length es) (backoff st0))
             ++ ending_events ending)
        /\ match ending_flow ending with
           | Continue =>
               consec_errors st = 0%Z /\ backoff st = (1 # 2)%Q /\ stop_evt st = false
           | Break => stop_evt st = true
           | Retrying =>
               consec_errors st = 50%Z
               /\ (backoff st == backoff_at (List.length es))%Q
               /\ stop_evt st = false
           end).
    { intros exc. rewrite Hsteps, reopen_loop_failures by (cbn; congruence).
      cbn [tx_frames consec_errors backoff send_exception_count]. rewrite Hb.
      match goal with
      | |- context [reopen_loop ending ?s] =>
          destruct (reopen_loop_ending ending s eq_refl Hok) as (st' & Hend & _ & Hcase);
          rewrite Hend
      end.
      exists st'. split; [reflexivity |].
      destruct (ending_flow ending).
      - exact Hcase.
      - tauto.
      - subst st'. cbn. rewrite Hc. repeat split.
        rewrite (backoff_after_closed_form _ 0 _ Hback).
        rewrite Nat.add_0_r. reflexivity. }
    destruct (send_result (at_env next)) as [[|] | e]; try discriminate;
      cbn [consec_errors];
      (destruct (Z.geb_spec (consec_errors st1 + 1) 50); [| lia]);
      match goal with
      | |- context [reopen_loop _ (mkRunState _ _ _ ?exc _)] =>
          destruct (Hloop exc) as (st & Hr & Hcase); rewrite Hr
      end;
      exists st, (retry_sleeps (List.length es) (backoff st0));
      (split; [| split; [now apply retry_sleeps_closed_form | exact Hcase]]);
      cbn [send_attempts]; unfold send_event at 2;
      destruct (ending_flow ending); rewrite ?app_nil_r; reflexivity.
Qed.

Lemma recovery_after_consecutive_failures_witness :
  exists st sleeps,
    send_attempts false (repeat refused 49 ++ [refused_then_reopened]) initial_state
    = (st, Continue,
       map send_event (repeat refused 49)
         ++ send_event refused_then_reopened :: Emit "reopen_begin" :: BusClose
         :: retry_events sleeps ++ [BusOpen; Emit "reopen_ok"])
    /\ Forall2 Qeq sleeps (map backoff_at (seq 0 3))
    /\ consec_errors st = 0%Z /\ backoff st = (1 # 2)%Q /\ stop_evt st = false.
Proof.
  apply (proj2 (recovery_after_consecutive_failures false [] (repeat refused 49)
                  refused_then_reopened initial_state []
                  ltac:(reflexivity)
                  ltac:(reflexivity)
                  ltac:(reflexivity)
                  ltac:(repeat constructor))
               [RuntimeError; RuntimeError; RuntimeError] [OpenOk]).
  - reflexivity.
  - reflexivity.
  - exact I.
Defined.

(** ** The layout gate does not look at the order of the messages *)

Lemma layout_gate_accepts_both_orders :
  DbcLoader.assert_expected_layout ascending_db = Ok tt
  /\ DbcLoader.assert_expected_layout exchanged_db = Ok tt.
Proof. split; vm_compute; reflexivity. Qed.

(** ** The order of the sends of a tick *)

Section SendOrder.

Variable cantools_encode : Message -> gmap string Q -> result (list byte).
Variable hardkill_enabled : bool.






(** A successful build has a payload for every message. *)
Lemma build_loop_payloads (msgs : list Message) (scenario : gmap string pyobj)
    (acc p : Payloads) :
  build_loop cantools_encode msgs scenario acc = Ok p ->
  (forall n, is_Some (payloads acc !! n) -> is_Some (payloads p !! n))
  /\ (forall m, m ∈ msgs -> is_Some (payloads p !! msg_name m)).
Proof.
  revert acc. induction msgs as [| msg rest IH]; intros acc; cbn [build_loop].
  - intros [= <-]. split; [auto |]. intros m Hm. inversion Hm.
  - destruct (encode_message_safe _ msg _) as [[[payload used] clamped] | e];
      cbn; [| discriminate].
    intros Hrun. destruct (IH _ Hrun) as [Hkeep Hrest]. cbn [payloads] in Hkeep.
    split.
    + intros n Hn. apply Hkeep.
      destruct (decide (msg_name msg = n)) as [-> | Hne].
      * rewrite lookup_insert_eq. eauto.
      * rewrite lookup_insert_ne by exact Hne. exact Hn.
    + intros m Hm. apply elem_of_cons in Hm as [-> | Hm].
      * apply Hkeep. rewrite lookup_insert_eq. eauto.
      * now apply Hrest.
Qed.

End SendOrder.






(** ** What the layout gate admits *)

Section LayoutGate.

Import DbcLoader.

Lemma check_signals_matches (sigs : list Signal) (expected_meta : gmap string Signal) :
  check_signals sigs expected_meta = Ok tt ->
  forall sig exp,
    sig ∈ sigs -> expected_meta !! sig_name sig = Some exp ->
    signal_matches sig exp = true.
Proof.
  induction sigs as [| s rest IH]; intros Hcheck sig exp Hin Hexp.
  - inversion Hin.
  - cbn [check_signals] in Hcheck.
    apply elem_of_cons in Hin as [-> | Hin].
    + rewrite Hexp in Hcheck.
      destruct (signal_matches s exp); [reflexivity | discriminate].
    + destruct (expected_meta !! sig_name s) as [e |].
      * destruct (signal_matches s e); [| discriminate]. now apply IH.
      * now apply IH.
Qed.

Lemma check_messages_each (msgs : list Message) :
  check_messages msgs = Ok tt -> forall m, m ∈ msgs -> check_message m = Ok tt.
Proof.
  induction msgs as [| msg rest IH]; intros Hcheck m Hin.
  - inversion Hin.
  - cbn [check_messages] in Hcheck.
    destruct (check_message msg) as [[] |] eqn:Hmsg; cbn in Hcheck; [| discriminate].
    apply elem_of_cons in Hin as [-> | Hin]; [exact Hmsg | now apply IH].
Qed.

(** Every name the table expects in a frame has a layout entry, with a
    positive scale and a zero offset. *)
Lemma expected_tables_consistent :
  Forall
    (fun fid =>
       match EXPECTED_SIGNALS !! fid with
       | Some names =>
           names <> []
           /\ Forall
                (fun n =>
                   match default ∅ (EXPECTED_SIGNAL_META !! fid) !! n with
                   | Some exp => (0 < scale exp)%Q /\ (offset exp == 0)%Q
                   | None => False
                   end) names
       | None => False
       end)
    [1512; 1513; 1514; 1515; 1516]%Z.
Proof.
  repeat constructor;
    repeat match goal with
      | |- match ?x with _ => _ end =>
          let v := eval vm_compute in x in change x with v; cbv beta iota
      | |- _ <> [] => discriminate
      | |- (0 < _)%Q => reflexivity
      | |- (_ == _)%Q => reflexivity
      | |- _ => constructor
      end.
Qed.

(** A database that passes [assert_expected_layout] only holds signals
    with the positive scales and zero offsets of the table. *)
Lemma layout_gate_scales_positive (db : list Message) :
  assert_expected_layout db = Ok tt ->
  forall m sig, m ∈ db -> sig ∈ signals m ->
    (0 < scale sig)%Q /\ (offset sig == 0)%Q.
Proof.
  unfold assert_expected_layout. intros Hgate m sig Hm Hsig.
  destruct (bool_decide _) eqn:Hids in Hgate; cbn in Hgate; [| discriminate].
  apply bool_decide_eq_true in Hids.
  assert (Hfid : frame_id m ∈ [1512; 1513; 1514; 1515; 1516]%Z).
  { apply (elem_of_list_to_set (C := gset Z)). fold EXPECTED_IDS. rewrite <- Hids.
    apply elem_of_list_to_set. apply list_elem_of_fmap. eauto. }
  pose proof (proj1 (Forall_forall _ _) expected_tables_consistent _ Hfid) as Htab.
  cbv beta in Htab.
  pose proof (check_messages_each _ Hgate m Hm) as Hmsg.
  unfold check_message in Hmsg.
  destruct (negb (msg_length m =? EXPECTED_DLC)%Z); [discriminate |].
  destruct (negb (bool_decide (EXPECTED_NAMES !! frame_id m = Some (msg_name m))));
    [discriminate |].
  destruct (EXPECTED_SIGNALS !! frame_id m) as [names |]; [| contradiction].
  destruct Htab as [Hne Hnames]. cbn [default from_option id] in Hmsg.
  assert (Hnonempty : bool_decide ((list_to_set names : gset string) = ∅) = false).
  { apply bool_decide_eq_false. destruct names as [| n names]; [contradiction |].
    intros Hempty. apply (not_elem_of_empty (C := gset string) n).
    rewrite <- Hempty. apply elem_of_list_to_set, list_elem_of_here. }
  rewrite Hnonempty in Hmsg. cbn [negb andb] in Hmsg.
  destruct (bool_decide _) eqn:Hfound in Hmsg; cbn [negb] in Hmsg; [| discriminate].
  apply bool_decide_eq_true in Hfound.
  assert (Hname : sig_name sig ∈ names).
  { apply (elem_of_list_to_set (C := gset string)). rewrite <- Hfound.
    apply elem_of_list_to_set. apply list_elem_of_fmap. eauto. }
  pose proof (proj1 (Forall_forall _ _) Hnames _ Hname) as Hentry.
  cbv beta in Hentry.
  destruct (default ∅ (EXPECTED_SIGNAL_META !! frame_id m) !! sig_name sig)
    as [exp |] eqn:Hexp; [| contradiction].
  pose proof (check_signals_matches _ _ Hmsg sig exp Hsig Hexp) as Hmatch.
  unfold signal_matches in Hmatch.
  repeat (apply andb_prop in Hmatch as [Hmatch ?]).
  destruct Hentry as [Hpos Hoff].
  match goal with H : Qeq_bool (scale sig) _ = true |- _ => apply Qeq_bool_iff in H as Hs end.
  match goal with H : Qeq_bool (offset sig) _ = true |- _ => apply Qeq_bool_iff in H as Ho end.
  split.
  - rewrite Hs. exact Hpos.
  - rewrite Ho. exact Hoff.
Qed.

(** For the signals of a database the gate admits, the round trip stays
    within [scale], at every physical value. *)
Lemma round_trip_for_admitted_signals (db : list Message) (m : Message)
    (sig : Signal) (x : Q) :
  assert_expected_layout db = Ok tt ->
  m ∈ db -> sig ∈ signals m ->
  exists raw : Z,
    to_raw sig (Finite x) = Ok raw
    /\ (Qabs (to_phys sig raw - x) <= scale sig)%Q.
Proof.
  intros Hgate Hm Hsig.
  destruct (layout_gate_scales_positive db Hgate m sig Hm Hsig) as [Hpos _].
  assert (Hs : ~ (scale sig == 0)%Q) by (intros H; rewrite H in Hpos; discriminate).
  exists (py_round ((x - offset sig) / scale sig)).
  split; [now apply to_raw_finite |].
  pose proof (round_trip_half_scale sig x Hs) as Hhalf.
  rewrite (Qabs_pos (scale sig)) in Hhalf by lra. lra.
Qed.

End LayoutGate.

(** ** More on [encode_message_safe]: what the two dicts hold *)

Section UsedAndClamped.

Local Open Scope Q_scope.

Lemma py_round_comp (q q' : Q) : q == q' -> py_round q = py_round q'.
Proof.
  intros H. unfold py_round. rewrite (Qfloor_comp _ _ H).
  assert (Hc : (q - inject_Z (Qfloor q') ?= 1 # 2) = (q' - inject_Z (Qfloor q') ?= 1 # 2)).
  { apply Qcompare_comp; [rewrite H |]; reflexivity. }
  rewrite Hc. reflexivity.
Qed.

Lemma py_round_integer (z : Z) : py_round (inject_Z z) = z.
Proof.
  unfold py_round. rewrite Qfloor_Z.
  destruct (Qcompare_spec (inject_Z z - inject_Z z) (1 # 2)) as [H | H | H];
    [exfalso; lra | reflexivity | exfalso; lra].
Qed.

(** Converting a physical value of a raw integer gives the integer back. *)
Lemma to_raw_to_phys (sig : Signal) (raw : Z) :
  ~ scale sig == 0 -> to_raw sig (Finite (to_phys sig raw)) = Ok raw.
Proof.
  intros Hs. rewrite to_raw_finite by exact Hs. f_equal.
  rewrite <- (py_round_integer raw) at 2. apply py_round_comp.
  unfold to_phys. field. exact Hs.
Qed.

(** What a successful step returns, whatever was requested. *)
Lemma encode_signal_outcome (sig : Signal) (requested : pyobj) (o : SignalOutcome) :
  encode_signal sig requested = Ok o ->
  exists lo hi : Z,
    raw_limits sig = Ok (lo, hi)
    /\ so_raw_clamped o = Z.max lo (Z.min (so_raw o) hi)
    /\ (lo <= so_raw_clamped o <= hi)%Z
    /\ so_was_clamped o = negb (so_raw_clamped o =? so_raw o)%Z
    /\ so_phys_used o = to_phys sig (so_raw_clamped o).
Proof.
  unfold encode_signal. intros Hstep.
  destruct (raw_limits sig) as [[lo hi] | e] eqn:Hlim.
  - destruct (raw_limits_spec _ _ _ Hlim) as [_ Hle].
    rewrite (clamp_raw_spec _ _ _ _ Hlim) in Hstep. cbn in Hstep.
    injection Hstep as <-. cbn. exists lo, hi. repeat split; try reflexivity; lia.
  - unfold _clamp_raw in Hstep. rewrite Hlim in Hstep. discriminate.
Qed.

(** Encoding the used value of a step again changes nothing, and does not
    clamp. *)
Lemma encode_signal_replay (sig : Signal) (requested : pyobj) (o : SignalOutcome) :
  ~ scale sig == 0 ->
  encode_signal sig requested = Ok o ->
  encode_signal sig (Num (Finite (so_phys_used o)))
  = Ok (mkSignalOutcome (so_raw_clamped o) (so_raw_clamped o) false (so_phys_used o)).
Proof.
  intros Hs Hstep.
  destruct (encode_signal_outcome _ _ _ Hstep) as (lo & hi & Hlim & _ & Hin & _ & Hphys).
  unfold encode_signal. cbn [py_float isfinite]. rewrite Hphys.
  rewrite (to_raw_to_phys _ _ Hs), (clamp_raw_spec _ _ _ _ Hlim).
  replace (Z.max lo (Z.min (so_raw_clamped o) hi)) with (so_raw_clamped o) by lia.
  rewrite Z.eqb_refl. reflexivity.
Qed.




(** Replaying other desired values that lead every step to the same used
    value without clamping gives the same used dict and adds no clamp
    entry. *)
Lemma encode_signals_replay (sigs : list Signal) (d d2 : gmap string pyobj)
    (u u' : gmap string Q) (c c' c2 : gmap string ClampEntry) :
  encode_signals sigs d u c = Ok (u', c') ->
  (forall sig o,
      sig ∈ sigs ->
      encode_signal sig (default (Num (Finite 0)) (d !! sig_name sig)) = Ok o ->
      exists o2,
        encode_signal sig (default (Num (Finite 0)) (d2 !! sig_name sig)) = Ok o2
        /\ so_phys_used o2 = so_phys_used o /\ so_was_clamped o2 = false) ->
  encode_signals sigs d2 u c2 = Ok (u', c2).
Proof.
  revert u c. induction sigs as [| sig rest IH]; intros u c.
  - cbn. intros [= <- <-] _. reflexivity.
  - cbn [encode_signals]. intros Hrun Hall.
    destruct (encode_signal sig (default _ (d !! _))) as [o | e] eqn:Hstep;
      cbn in Hrun; [| discriminate].
    destruct (Hall sig o (list_elem_of_here _ _) Hstep) as (o2 & Ho2 & Hp & Hc).
    rewrite Ho2. cbn. rewrite Hp, Hc.
    eapply IH; [exact Hrun |].
    intros s o' Hs. apply Hall. now apply list_elem_of_further.
Qed.

End UsedAndClamped.





(** Feeding the used values of a call back in as the desired values gives
    the same payload request and the same used values, and clamps nothing:
    the used values are the ones the message can carry. *)
Theorem encode_message_safe_idempotent
    (cantools_encode : Message -> gmap string Q -> result (list byte))
    (msg : Message) (desired_phys : gmap string pyobj)
    (payload : list byte) (used : gmap string Q) (clamped : gmap string ClampEntry) :
  NoDup (map sig_name (signals msg)) ->
  (forall sig, sig ∈ signals msg -> ~ (scale sig == 0)%Q) ->
  encode_message_safe cantools_encode msg desired_phys = Ok (payload, used, clamped) ->
  encode_message_safe cantools_encode msg ((fun v => Num (Finite v)) <$> used)
  = Ok (payload, used, ∅).
Proof.
  intros Hnd Hscale Hrun. unfold encode_message_safe in *.
  destruct (encode_signals (signals msg) desired_phys ∅ ∅) as [[u c] | e] eqn:Hloop;
    cbn in Hrun; [| discriminate].
  destruct (cantools_encode msg u) as [pl | e] eqn:Henc; cbn in Hrun; [| discriminate].
  injection Hrun as <- <- <-.
  rewrite (encode_signals_replay _ _ ((fun v => Num (Finite v)) <$> u) _ _ _ _ ∅ Hloop).
  - cbn. rewrite Henc. reflexivity.
  - intros sig o Hin Hstep.
    destruct (encode_signals_lookup _ _ _ _ _ _ _ Hloop Hin Hnd) as (o' & Ho' & Hused).
    rewrite Hstep in Ho'. injection Ho' as <-.
    rewrite lookup_fmap, Hused. cbn [fmap option_fmap option_map default from_option id].
    eexists. split; [apply (encode_signal_replay _ _ _ (Hscale sig Hin) Hstep) |].
    split; reflexivity.
Qed.

Lemma encode_message_safe_idempotent_witness :
  let r := encode_message_safe encode_zeros megasquirt_dash0 desired_high_rpm in
  encode_message_safe encode_zeros megasquirt_dash0
    ((fun v => Num (Finite v)) <$> used_of r)
  = Ok (payload_of r, used_of r, ∅).
Proof.
  apply (encode_message_safe_idempotent encode_zeros megasquirt_dash0 desired_high_rpm
           _ _
           (clamped_of (encode_message_safe encode_zeros megasquirt_dash0
                          desired_high_rpm))).
  - apply (bool_decide_unpack _). vm_compute. exact I.
  - intros sig Hin.
    repeat (apply elem_of_cons in Hin as [-> | Hin]); try (vm_compute; discriminate).
    inversion Hin.
  - vm_compute. reflexivity.
Defined.

(** ** More on the layout gate *)

Section LayoutGateMore.

Import DbcLoader.

Lemma check_signals_result (sigs : list Signal) (expected_meta : gmap string Signal) :
  check_signals sigs expected_meta = Ok tt
  \/ check_signals sigs expected_meta = Raise RuntimeError.
Proof.
  induction sigs as [| s rest IH]; cbn [check_signals]; [now left |].
  destruct (expected_meta !! sig_name s) as [e |]; [| exact IH].
  destruct (signal_matches s e); [exact IH | now right].
Qed.

Lemma check_message_result (m : Message) :
  check_message m = Ok tt \/ check_message m = Raise RuntimeError.
Proof.
  unfold check_message.
  destruct (negb _); [now right |].
  destruct (negb _); [now right |].
  destruct (_ && _); [now right | apply check_signals_result].
Qed.

(** The loop over the messages accepts when every message passes, and
    raises [RuntimeError] otherwise. *)
Lemma check_messages_all (msgs : list Message) :
  (Forall (fun m => check_message m = Ok tt) msgs -> check_messages msgs = Ok tt)
  /\ (~ Forall (fun m => check_message m = Ok tt) msgs ->
      check_messages msgs = Raise RuntimeError).
Proof.
  induction msgs as [| m rest [IHy IHn]]; cbn [check_messages].
  - split; [reflexivity |]. intros H. exfalso. apply H. constructor.
  - split.
    + intros H. apply Forall_cons in H as [Hm Hrest]. rewrite Hm. cbn. now apply IHy.
    + intros H. destruct (check_message_result m) as [Hm | Hm]; rewrite Hm; cbn;
        [| reflexivity].
      apply IHn. intros Hrest. apply H. now constructor.
Qed.

Lemma check_messages_perm (db db' : list Message) :
  db ≡ₚ db' -> check_messages db' = check_messages db.
Proof.
  intros Hp.
  destruct (check_messages_all db) as [Hy Hn].
  destruct (check_messages_all db') as [Hy' Hn'].
  assert (Hdec : Forall (fun m => check_message m = Ok tt) db
                 \/ ~ Forall (fun m => check_message m = Ok tt) db).
  { clear. induction db as [| m rest [IH | IH]].
    - left. constructor.
    - destruct (check_message_result m) as [Hm | Hm].
      + left. now constructor.
      + right. intros H. apply Forall_cons in H as [H _]. congruence.
    - right. intros H. apply Forall_cons in H as [_ H]. contradiction. }
  destruct Hdec as [Hall | Hnot].
  - rewrite (Hy Hall). apply Hy'. now rewrite <- Hp.
  - rewrite (Hn Hnot). apply Hn'. intros H. apply Hnot. now rewrite Hp.
Qed.

(** What the table says of each expected signal. *)
Lemma expected_tables_layout :
  Forall
    (fun fid =>
       match EXPECTED_SIGNALS !! fid with
       | Some names =>
           names <> []
           /\ Forall
                (fun n =>
                   match default ∅ (EXPECTED_SIGNAL_META !! fid) !! n with
                   | Some exp =>
                       (length exp = 8 \/ length exp = 16)%Z
                       /\ byte_order exp = big_endian
                       /\ (0 < scale exp)%Q /\ (offset exp == 0)%Q
                   | None => False
                   end) names
       | None => False
       end)
    [1512; 1513; 1514; 1515; 1516]%Z.
Proof.
  repeat match goal with
    | |- match ?x with _ => _ end =>
        let v := eval vm_compute in x in change x with v; cbv beta iota
    | |- _ <> [] => discriminate
    | |- (0 < _)%Q => reflexivity
    | |- (_ == _)%Q => reflexivity
    | |- _ = big_endian => reflexivity
    | |- (_ = 8 \/ _ = 16)%Z => first [left; reflexivity | right; reflexivity]
    | |- _ /\ _ => split
    | |- Forall _ _ => constructor
    end.
Qed.

Lemma layout_gate_message (db : list Message) (m : Message) :
  assert_expected_layout db = Ok tt -> m ∈ db ->
  frame_id m ∈ [1512; 1513; 1514; 1515; 1516]%Z /\ check_message m = Ok tt.
Proof.
  unfold assert_expected_layout. intros Hgate Hm.
  destruct (bool_decide _) eqn:Hids in Hgate; cbn in Hgate; [| discriminate].
  apply bool_decide_eq_true in Hids. split.
  - apply (elem_of_list_to_set (C := gset Z)). fold EXPECTED_IDS. rewrite <- Hids.
    apply elem_of_list_to_set. apply list_elem_of_fmap. eauto.
  - exact (check_messages_each _ Hgate m Hm).
Qed.

(** A message that passes the gate has its signals as the table has
    them. *)
Lemma layout_gate_signal (db : list Message) (m : Message) (sig : Signal) :
  assert_expected_layout db = Ok tt -> m ∈ db -> sig ∈ signals m ->
  exists exp : Signal,
    default ∅ (EXPECTED_SIGNAL_META !! frame_id m) !! sig_name sig = Some exp
    /\ signal_matches sig exp = true
    /\ (length exp = 8 \/ length exp = 16)%Z
    /\ byte_order exp = big_endian
    /\ (0 < scale exp)%Q /\ (offset exp == 0)%Q.
Proof.
  intros Hgate Hm Hsig.
  destruct (layout_gate_message db m Hgate Hm) as [Hfid Hmsg].
  pose proof (proj1 (Forall_forall _ _) expected_tables_layout _ Hfid) as Htab.
  cbv beta in Htab. unfold check_message in Hmsg.
  destruct (negb (msg_length m =? EXPECTED_DLC)%Z); [discriminate |].
  destruct (negb (bool_decide (EXPECTED_NAMES !! frame_id m = Some (msg_name m))));
    [discriminate |].
  destruct (EXPECTED_SIGNALS !! frame_id m) as [names |]; [| contradiction].
  destruct Htab as [Hne Hnames]. cbn [default from_option id] in Hmsg.
  assert (Hnonempty : bool_decide ((list_to_set names : gset string) = ∅) = false).
  { apply bool_decide_eq_false. destruct names as [| n names]; [contradiction |].
    intros Hempty. apply (not_elem_of_empty (C := gset string) n).
    rewrite <- Hempty. apply elem_of_list_to_set, list_elem_of_here. }
  rewrite Hnonempty in Hmsg. cbn [negb andb] in Hmsg.
  destruct (bool_decide _) eqn:Hfound in Hmsg; cbn [negb] in Hmsg; [| discriminate].
  apply bool_decide_eq_true in Hfound.
  assert (Hname : sig_name sig ∈ names).
  { apply (elem_of_list_to_set (C := gset string)). rewrite <- Hfound.
    apply elem_of_list_to_set. apply list_elem_of_fmap. eauto. }
  pose proof (proj1 (Forall_forall _ _) Hnames _ Hname) as Hentry.
  cbv beta in Hentry.
  destruct (default ∅ (EXPECTED_SIGNAL_META !! frame_id m) !! sig_name sig)
    as [exp |] eqn:Hexp; [| contradiction].
  exists exp. split; [reflexivity |].
  split; [exact (check_signals_matches _ _ Hmsg sig exp Hsig Hexp) | exact Hentry].
Qed.

End LayoutGateMore.

(** The gate accepts or rejects a database whatever the order in which
    it lists its messages. *)
Theorem assert_expected_layout_order_blind (db db' : list Message) :
  db ≡ₚ db' ->
  DbcLoader.assert_expected_layout db' = DbcLoader.assert_expected_layout db.
Proof.
  intros Hp. unfold DbcLoader.assert_expected_layout.
  assert (Hids : (list_to_set (map frame_id db') : gset Z)
                 = list_to_set (map frame_id db)).
  { apply set_eq. intros x. rewrite !elem_of_list_to_set.
    now rewrite <- Hp. }
  rewrite Hids, (check_messages_perm db db' Hp). reflexivity.
Qed.

Lemma assert_expected_layout_order_blind_witness :
  DbcLoader.assert_expected_layout exchanged_db
  = DbcLoader.assert_expected_layout ascending_db.
Proof.
  apply (assert_expected_layout_order_blind ascending_db exchanged_db).
  apply perm_swap.
Defined.

(** In a database the gate accepts, every message has one of the five
    ids, eight bytes, the name and the signal names the tables give for its
    id, and every signal is laid out as its table entry: same start bit,
    length (8 or 16 bits), byte order (big endian) and signedness, an equal
    scale, which is positive, and a zero offset.  Every expected id is
    there. *)
Theorem layout_gate_pins_layout (db : list Message) :
  DbcLoader.assert_expected_layout db = Ok tt ->
  (forall fid, fid ∈ [1512; 1513; 1514; 1515; 1516]%Z ->
     exists m, m ∈ db /\ frame_id m = fid)
  /\ (forall m, m ∈ db ->
        frame_id m ∈ [1512; 1513; 1514; 1515; 1516]%Z
        /\ msg_length m = 8%Z
        /\ DbcLoader.EXPECTED_NAMES !! frame_id m = Some (msg_name m)
        /\ (forall n, n ∈ map sig_name (signals m)
                      <-> n ∈ default [] (DbcLoader.EXPECTED_SIGNALS !! frame_id m))
        /\ (forall sig, sig ∈ signals m ->
              exists exp : Signal,
                default ∅ (DbcLoader.EXPECTED_SIGNAL_META !! frame_id m) !! sig_name sig
                = Some exp
                /\ DbcCodec.start sig = DbcCodec.start exp
                /\ length sig = length exp
                /\ byte_order sig = big_endian
                /\ is_signed sig = is_signed exp
                /\ (scale sig == scale exp)%Q
                /\ (length sig = 8 \/ length sig = 16)%Z
                /\ (0 < scale sig)%Q /\ (offset sig == 0)%Q)).
Proof.
  intros Hgate. split.
  - intros fid Hfid. unfold DbcLoader.assert_expected_layout in Hgate.
    destruct (bool_decide _) eqn:Hids in Hgate; cbn in Hgate; [| discriminate].
    apply bool_decide_eq_true in Hids.
    assert (Hin : fid ∈ (list_to_set (map frame_id db) : gset Z)).
    { rewrite Hids. unfold DbcLoader.EXPECTED_IDS. now apply elem_of_list_to_set. }
    apply elem_of_list_to_set, list_elem_of_fmap in Hin as (m & -> & Hm). eauto.
  - intros m Hm.
    destruct (layout_gate_message db m Hgate Hm) as [Hfid Hmsg].
    split; [exact Hfid |].
    pose proof (proj1 (Forall_forall _ _) expected_tables_layout _ Hfid) as Htab.
    cbv beta in Htab.
    assert (Hmsg' := Hmsg). unfold DbcLoader.check_message in Hmsg'.
    destruct (Z.eqb_spec (msg_length m) DbcLoader.EXPECTED_DLC) as [Hlen | Hlen];
      cbn [negb] in Hmsg'; [| discriminate].
    destruct (bool_decide _) eqn:Hname in Hmsg'; cbn [negb] in Hmsg'; [| discriminate].
    apply bool_decide_eq_true in Hname.
    split; [exact Hlen |]. split; [exact Hname |].
    destruct (DbcLoader.EXPECTED_SIGNALS !! frame_id m) as [names |]; [| contradiction].
    destruct Htab as [Hne _]. cbn [default from_option id] in Hmsg' |- *.
    assert (Hnonempty : bool_decide ((list_to_set names : gset string) = ∅) = false).
    { apply bool_decide_eq_false. destruct names as [| n names]; [contradiction |].
      intros Hempty. apply (not_elem_of_empty (C := gset string) n).
      rewrite <- Hempty. apply elem_of_list_to_set, list_elem_of_here. }
    rewrite Hnonempty in Hmsg'. cbn [negb andb] in Hmsg'.
    destruct (bool_decide _) eqn:Hfound in Hmsg'; cbn [negb] in Hmsg'; [| discriminate].
    apply bool_decide_eq_true in Hfound. split.
    + intros n. rewrite <- (elem_of_list_to_set (C := gset string) n names), <- Hfound.
      now rewrite elem_of_list_to_set.
    + intros sig Hsig.
      destruct (layout_gate_signal db m sig Hgate Hm Hsig)
        as (exp & Hexp & Hmatch & Hl & Hbo & Hpos & Hoff).
      exists exp. split; [exact Hexp |].
      unfold DbcLoader.signal_matches in Hmatch.
      repeat (apply andb_prop in Hmatch as [Hmatch ?]).
      repeat match goal with
        | H : (_ =? _)%Z = true |- _ => apply Z.eqb_eq in H
        | H : bool_decide _ = true |- _ => apply bool_decide_eq_true in H
        | H : Bool.eqb _ _ = true |- _ => apply Bool.eqb_prop in H
        | H : Qeq_bool _ _ = true |- _ => apply Qeq_bool_iff in H
        end.
      match goal with
      | Hs : DbcCodec.start sig = _, Hg : length sig = _, Hb : byte_order sig = _,
        Hi : is_signed sig = _, Hc : (scale sig == _)%Q, Ho : (offset sig == _)%Q |- _ =>
          split; [exact Hs |]; split; [exact Hg |];
          split; [now rewrite Hb |]; split; [exact Hi |]; split; [exact Hc |];
          split; [rewrite Hg; exact Hl |];
          split; [rewrite Hc; exact Hpos | rewrite Ho; exact Hoff]
      end.
Qed.

Lemma layout_gate_pins_layout_witness :
  (forall fid, fid ∈ [1512; 1513; 1514; 1515; 1516]%Z ->
     exists m, m ∈ exchanged_db /\ frame_id m = fid)
  /\ (forall m, m ∈ exchanged_db ->
        frame_id m ∈ [1512; 1513; 1514; 1515; 1516]%Z
        /\ msg_length m = 8%Z
        /\ DbcLoader.EXPECTED_NAMES !! frame_id m = Some (msg_name m)
        /\ (forall n, n ∈ map sig_name (signals m)
                      <-> n ∈ default [] (DbcLoader.EXPECTED_SIGNALS !! frame_id m))
        /\ (forall sig, sig ∈ signals m ->
              exists exp : Signal,
                default ∅ (DbcLoader.EXPECTED_SIGNAL_META !! frame_id m) !! sig_name sig
                = Some exp
                /\ DbcCodec.start sig = DbcCodec.start exp
                /\ length sig = length exp
                /\ byte_order sig = big_endian
                /\ is_signed sig = is_signed exp
                /\ (scale sig == scale exp)%Q
                /\ (length sig = 8 \/ length sig = 16)%Z
                /\ (0 < scale sig)%Q /\ (offset sig == 0)%Q)).
Proof.
  apply (layout_gate_pins_layout exchanged_db). vm_compute. reflexivity.
Defined.

(** For a database the gate accepts, building the payloads of a tick can
    only fail inside cantools: if [msg.encode] returns for the messages of
    the database, [_build_payloads] returns, with a payload for each of
    them, whatever the scenario holds (missing, non-numeric or non-finite
    values included). *)
Theorem gated_build_payloads_returns
    (cantools_encode : Message -> gmap string Q -> result (list byte))
    (db : list Message) (scenario : gmap string pyobj) :
  DbcLoader.assert_expected_layout db = Ok tt ->
  (forall m used, m ∈ db -> raises (cantools_encode m used) = false) ->
  exists p,
    _build_payloads cantools_encode db scenario = Ok p
    /\ forall m, m ∈ db -> is_Some (payloads p !! msg_name m).
Proof.
  intros Hgate Henc.
  assert (Hsigs : forall m s, m ∈ db -> s ∈ signals m -> raises (raw_limits s) = false).
  { intros m s Hm Hs.
    destruct (layout_gate_signal db m s Hgate Hm Hs) as (exp & _ & Hmatch & Hl & _).
    unfold DbcLoader.signal_matches in Hmatch.
    repeat (apply andb_prop in Hmatch as [Hmatch ?]).
    match goal with H : (length s =? _)%Z = true |- _ => apply Z.eqb_eq in H end.
    destruct (raw_limits_defined s) as (lo & hi & Hlim).
    - destruct (is_signed s); lia.
    - rewrite Hlim. reflexivity. }
  assert (Hloop : forall sigs d u c,
            (forall s, s ∈ sigs -> raises (raw_limits s) = false) ->
            exists u' c', encode_signals sigs d u c = Ok (u', c')).
  { induction sigs as [| s rest IH]; intros d u c Hok; [cbn; eauto |].
    cbn [encode_signals].
    pose proof (encode_signal_raises_iff s
                  (default (Num (Finite 0)) (d !! sig_name s))) as Hr.
    rewrite (Hok s) in Hr by apply list_elem_of_here.
    destruct (encode_signal s _) as [o | e]; [| discriminate]. cbn.
    apply IH. intros s' Hs'. apply Hok. now apply list_elem_of_further. }
  assert (Hbuild : forall msgs acc,
            (forall m, m ∈ msgs -> m ∈ db) ->
            exists p, build_loop cantools_encode msgs scenario acc = Ok p).
  { induction msgs as [| m rest IH]; intros acc Hsub; [cbn; eauto |].
    cbn [build_loop]. unfold encode_message_safe.
    assert (Hm : m ∈ db) by (apply Hsub, list_elem_of_here).
    destruct (Hloop (signals m) (desired_of (signals m) scenario [] ∅) ∅ ∅
                (fun s Hs => Hsigs m s Hm Hs)) as (u' & c' & Hrun).
    rewrite Hrun. cbn.
    pose proof (Henc m u' Hm) as He.
    destruct (cantools_encode m u') as [pl | e]; [| discriminate]. cbn.
    apply IH. intros m' Hm'. apply Hsub. now apply list_elem_of_further. }
  destruct (Hbuild db (mkPayloads ∅ ∅ ∅) (fun m H => H)) as [p Hp].
  exists p. split; [exact Hp |].
  exact (proj2 (build_loop_payloads _ _ _ _ _ Hp)).
Qed.

Lemma gated_build_payloads_returns_witness :
  exists p,
    _build_payloads encode_zeros exchanged_db (<["rpm" := NotNum "fast"]> ∅) = Ok p
    /\ forall m, m ∈ exchanged_db -> is_Some (payloads p !! msg_name m).
Proof.
  apply (gated_build_payloads_returns encode_zeros exchanged_db
           (<["rpm" := NotNum "fast"]> ∅)).
  - vm_compute. reflexivity.
  - intros m used _. reflexivity.
Defined.

(** ** Successive ticks *)

Import Callers.

Section OnTime.

Local Open Scope Q_scope.

Lemma wait_next_early (clk : Clock) (s : FixedRateScheduler) (st d : Q) :
  _start s = Some st -> _next s = Some d -> clk_now clk < d ->
  wr_slept (wait_next clk s) = Some (d - clk_now clk)
  /\ _start (wr_sched (wait_next clk s)) = Some st
  /\ _next (wr_sched (wait_next clk s)) = Some (d + dt s)
  /\ dt (wr_sched (wait_next clk s)) = dt s.
Proof.
  intros Hst Hnx Hlt. rewrite wait_next_unfold.
  rewrite (ensure_started_started clk s st d Hst Hnx). cbn [fst snd].
  destruct (Qle_bool (d - clk_now clk) 0) eqn:E.
  - apply Qle_bool_iff in E. lra.
  - cbn. rewrite Hst. repeat split; reflexivity.
Qed.

Lemma wait_next_many_on_time (clks : list Clock) (s : FixedRateScheduler) (st d : Q) :
  _start s = Some st -> _next s = Some d ->
  (forall (k : nat) clk, clks !! k = Some clk -> clk_now clk < d + inject_Z (Z.of_nat k) * dt s) ->
  (exists d', _next (fst (wait_next_many clks s)) = Some d'
              /\ d' == d + inject_Z (Z.of_nat (List.length clks)) * dt s)
  /\ dt (fst (wait_next_many clks s)) = dt s
  /\ List.length (snd (wait_next_many clks s)) = List.length clks
  /\ (forall (k : nat) clk r,
        clks !! k = Some clk -> snd (wait_next_many clks s) !! k = Some r ->
        exists sl, wr_slept r = Some sl
                   /\ sl == d + inject_Z (Z.of_nat k) * dt s - clk_now clk).
Proof.
  revert s d. induction clks as [| clk rest IH]; intros s d Hst Hnx Hearly.
  - cbn [wait_next_many fst snd List.length].
    split; [exists d; split; [exact Hnx | change (inject_Z (Z.of_nat 0)) with 0; lra] |].
    split; [reflexivity |]. split; [reflexivity |]. intros k c r Hk. inversion Hk.
  - cbn [wait_next_many].
    assert (H0 : clk_now clk < d).
    { specialize (Hearly 0%nat clk eq_refl).
      change (inject_Z (Z.of_nat 0)) with 0 in Hearly. lra. }
    destruct (wait_next_early clk s st d Hst Hnx H0) as (Hsl & Hst' & Hnx' & Hdt').
    specialize (IH (wr_sched (wait_next clk s)) (d + dt s) Hst' Hnx').
    rewrite Hdt' in IH.
    assert (Hrest : forall (k : nat) c, rest !! k = Some c ->
                      clk_now c < d + dt s + inject_Z (Z.of_nat k) * dt s).
    { intros k c Hk. specialize (Hearly (S k) c Hk).
      rewrite Nat2Z.inj_succ, <- Z.add_1_r, inject_Z_plus in Hearly.
      change (inject_Z 1) with 1 in Hearly. lra. }
    destruct (IH Hrest) as ((d' & Hd' & Heq) & Hdt & Hlen & Hsleeps).
    destruct (wait_next_many rest (wr_sched (wait_next clk s))) as [s' rs].
    cbn [fst snd] in *. split; [| split; [exact Hdt | split; [cbn [List.length]; now rewrite Hlen |]]].
    + exists d'. split; [exact Hd' |]. rewrite Heq. cbn [List.length].
      rewrite Nat2Z.inj_succ, <- Z.add_1_r, inject_Z_plus.
      change (inject_Z 1) with 1. lra.
    + intros [| k] c r Hc Hr; cbn in Hc, Hr.
      * injection Hc as <-. injection Hr as <-. eexists. split; [exact Hsl |].
        change (inject_Z (Z.of_nat 0)) with 0. lra.
      * destruct (Hsleeps k c r Hc Hr) as (sl & Hs & Hv). exists sl.
        split; [exact Hs |]. rewrite Hv.
        rewrite Nat2Z.inj_succ, <- Z.add_1_r, inject_Z_plus.
        change (inject_Z 1) with 1. lra.
Qed.

End OnTime.

(** While every call comes before its deadline, the deadlines stay on the
    grid of the first one: call number [k] sleeps until [d + k * dt], and
    after [n] calls the stored deadline is [d + n * dt].  Lateness of the
    wake-ups does not add up. *)
Theorem wait_next_keeps_grid (clks : list Clock) (s : FixedRateScheduler) (st d : Q) :
  _start s = Some st -> _next s = Some d ->
  (forall (k : nat) clk, clks !! k = Some clk ->
     (clk_now clk < d + inject_Z (Z.of_nat k) * dt s)%Q) ->
  (exists d', _next (fst (wait_next_many clks s)) = Some d'
              /\ (d' == d + inject_Z (Z.of_nat (List.length clks)) * dt s)%Q)
  /\ (forall (k : nat) clk r,
        clks !! k = Some clk -> snd (wait_next_many clks s) !! k = Some r ->
        exists sl, wr_slept r = Some sl
                   /\ (sl == d + inject_Z (Z.of_nat k) * dt s - clk_now clk)%Q).
Proof.
  intros Hst Hnx Hearly.
  destruct (wait_next_many_on_time clks s st d Hst Hnx Hearly) as (H1 & _ & _ & H2).
  split; assumption.
Qed.

Lemma wait_next_keeps_grid_witness :
  (exists d', _next (fst (wait_next_many early_clocks running)) = Some d'
              /\ (d' == (501 # 50) + inject_Z (Z.of_nat 3) * (1 # 50))%Q)
  /\ (forall (k : nat) clk r,
        early_clocks !! k = Some clk ->
        snd (wait_next_many early_clocks running) !! k = Some r ->
        exists sl, wr_slept r = Some sl
                   /\ (sl == (501 # 50) + inject_Z (Z.of_nat k) * (1 # 50)
                             - clk_now clk)%Q).
Proof.
  apply (wait_next_keeps_grid early_clocks running 10 (501 # 50)).
  - reflexivity.
  - reflexivity.
  - intros [| [| [| k]]] clk Hk; cbn in Hk; try discriminate;
      injection Hk as <-; reflexivity.
Defined.

(** ** The counters of the send loop *)

Section Counters.

Variable hardkill_enabled : bool.

Lemma successes_cons (a : Attempt) (rest : list Attempt) :
  successes (a :: rest)
  = ((if send_failed (at_env a) then 0 else 1) + successes rest)%Z.
Proof.
  unfold successes. rewrite filter_cons.
  destruct (decide (send_failed (at_env a) = false)) as [H | H].
  - rewrite H. cbn [List.length]. lia.
  - destruct (send_failed (at_env a)); [lia | congruence].
Qed.

(** The reopen loop leaves the frame count alone, and the failure count
    too unless it reopens the bus. *)
Lemma reopen_loop_counters (steps : list reopen_step) (st : RunState) :
  tx_frames (fst (fst (reopen_loop steps st))) = tx_frames st
  /\ (snd (fst (reopen_loop steps st)) <> Continue ->
      consec_errors (fst (fst (reopen_loop steps st))) = consec_errors st).
Proof.
  revert st. induction steps as [| step rest IH]; intros [t c b x [|]];
    cbn [reopen_loop stop_evt fst snd tx_frames consec_errors];
    try (split; [reflexivity | intros _; reflexivity]).
  destruct step; cbn [fst snd tx_frames consec_errors backoff send_exception_count].
  - split; [reflexivity | intros _; reflexivity].
  - split; [reflexivity | intros H; contradiction].
  - specialize (IH (mkRunState t c (py_min (b * 2) 2) x false)).
    destruct (reopen_loop rest _) as [[? ?] ?]. exact IH.
Qed.

Lemma send_one_counters (env : SendEnv) (fid : Z) (data : list byte) (ext : bool)
    (st : RunState) :
  (0 <= consec_errors st < 50)%Z ->
  let r := send_one hardkill_enabled env fid data ext st in
  (0 <= consec_errors (fst (fst r)) <= 50)%Z
  /\ (snd (fst r) = Continue -> (consec_errors (fst (fst r)) < 50)%Z)
  /\ (snd (fst r) <> Continue -> consec_errors (fst (fst r)) = 50%Z)
  /\ (tx_frames st <= tx_frames (fst (fst r)) <= tx_frames st + 1)%Z.
Proof.
  intros Hc. unfold send_one.
  assert (Hre : forall exc,
    (consec_errors st + 1 >= 50)%Z ->
    let r := (let '(st', fl, tr) :=
                reopen_loop (reopen_steps env)
                  (mkRunState (tx_frames st) (consec_errors st + 1) (backoff st) exc
                              (stop_evt st)) in
              (st', fl,
               BusSend fid data ext :: Emit "reopen_begin" :: BusClose
                 :: hard_reset_events hardkill_enabled env ++ tr)) in
    (0 <= consec_errors (fst (fst r)) <= 50)%Z
    /\ (snd (fst r) = Continue -> (consec_errors (fst (fst r)) < 50)%Z)
    /\ (snd (fst r) <> Continue -> consec_errors (fst (fst r)) = 50%Z)
    /\ (tx_frames st <= tx_frames (fst (fst r)) <= tx_frames st + 1)%Z).
  { intros exc Hge.
    pose proof (reopen_loop_counters (reopen_steps env)
                  (mkRunState (tx_frames st) (consec_errors st + 1) (backoff st) exc
                              (stop_evt st))) as [Ht Hk].
    pose proof (reopen_loop_continue (reopen_steps env)
                  (mkRunState (tx_frames st) (consec_errors st + 1) (backoff st) exc
                              (stop_evt st))) as Hcont.
    destruct (reopen_loop (reopen_steps env) _) as [[st' fl] tr].
    cbn [fst snd tx_frames consec_errors] in *.
    destruct fl.
    - destruct (Hcont eq_refl) as (Hz & _). rewrite Hz, Ht.
      repeat split; try lia. congruence.
    - rewrite (Hk ltac:(discriminate)), Ht.
      repeat split; try lia. discriminate.
    - rewrite (Hk ltac:(discriminate)), Ht.
      repeat split; try lia. discriminate. }
  destruct (send_result env) as [[|] | e]; cbn [consec_errors].
  - cbn. repeat split; try lia. congruence.
  - destruct (Z.geb_spec (consec_errors st + 1) 50); [apply Hre; lia |].
    cbn. repeat split; try lia. congruence.
  - destruct (Z.geb_spec (consec_errors st + 1) 50); [apply Hre; lia |].
    cbn. repeat split; try lia. congruence.
Qed.

End Counters.

(** The failure counter never leaves [0 .. 50]: it is below 50 whenever
    the send loop goes on, and exactly 50 when the loop is left or still
    reopening; the frame count only grows, by at most one per attempt. *)
Theorem consec_errors_bounded
    (hardkill_enabled : bool) (attempts : list Attempt) (st : RunState) :
  (0 <= consec_errors st < 50)%Z ->
  let r := send_attempts hardkill_enabled attempts st in
  (0 <= consec_errors (fst (fst r)) <= 50)%Z
  /\ (snd (fst r) = Continue -> (consec_errors (fst (fst r)) < 50)%Z)
  /\ (snd (fst r) <> Continue -> consec_errors (fst (fst r)) = 50%Z)
  /\ (tx_frames st <= tx_frames (fst (fst r))
      <= tx_frames st + Z.of_nat (List.length attempts))%Z.
Proof.
  revert st. induction attempts as [| a rest IH]; intros st Hc.
  - cbn. repeat split; try lia. congruence.
  - cbn [send_attempts List.length].
    pose proof (send_one_counters hardkill_enabled (at_env a) (at_frame_id a)
                  (at_data a) (at_is_extended a) st Hc) as Hone.
    cbv zeta in Hone.
    destruct (send_one _ _ _ _ _ st) as [[st1 fl] tr1]. cbn [fst snd] in Hone.
    destruct Hone as (Hb & Hcont & Hstop & Ht).
    destruct fl.
    + specialize (IH st1 ltac:(specialize (Hcont eq_refl); lia)). cbv zeta in IH.
      destruct (send_attempts _ rest st1) as [[st2 fl2] tr2]. cbn [fst snd] in *.
      destruct IH as (Hb2 & Hc2 & Hs2 & Ht2). repeat split; try tauto; lia.
    + cbn [fst snd]. repeat split; try lia; try discriminate.
      intros _. apply Hstop. discriminate.
    + cbn [fst snd]. repeat split; try lia; try discriminate.
      intros _. apply Hstop. discriminate.
Qed.

Lemma consec_errors_bounded_witness :
  let r := send_attempts false (repeat refused 49 ++ [refused_then_reopened])
                         initial_state in
  (0 <= consec_errors (fst (fst r)) <= 50)%Z
  /\ (snd (fst r) = Continue -> (consec_errors (fst (fst r)) < 50)%Z)
  /\ (snd (fst r) <> Continue -> consec_errors (fst (fst r)) = 50%Z)
  /\ (tx_frames initial_state <= tx_frames (fst (fst r))
      <= tx_frames initial_state
         + Z.of_nat (List.length (repeat refused 49 ++ [refused_then_reopened])))%Z.
Proof.
  apply (consec_errors_bounded false (repeat refused 49 ++ [refused_then_reopened])
           initial_state).
  cbn. lia.
Defined.

(** A run too short to reach 50 failures in a row only sends: the trace
    holds one [bus.send] per attempt and nothing else, the frame count grows
    by the number of sends that returned [True], and the stop event is left
    as it was. *)
Theorem short_run_only_sends
    (hardkill_enabled : bool) (attempts : list Attempt) (st : RunState) :
  (0 <= consec_errors st)%Z ->
  (consec_errors st + Z.of_nat (List.length attempts) < 50)%Z ->
  exists st',
    send_attempts hardkill_enabled attempts st
    = (st', Continue, map send_event attempts)
    /\ tx_frames st' = (tx_frames st + successes attempts)%Z
    /\ (0 <= consec_errors st' <= consec_errors st + Z.of_nat (List.length attempts))%Z
    /\ stop_evt st' = stop_evt st.
Proof.
  revert st. induction attempts as [| a rest IH]; intros st H0 Hlt.
  - exists st. change (successes []) with 0%Z. cbn [send_attempts map List.length] in *.
    repeat split; lia.
  - cbn [send_attempts List.length map] in *. rewrite successes_cons.
    destruct (send_failed (at_env a)) eqn:Hf.
    + destruct (send_one_failed hardkill_enabled (at_env a) (at_frame_id a) (at_data a)
                  (at_is_extended a) st Hf ltac:(lia))
        as (st1 & Hone & Hc & _ & Ht & Hs).
      destruct (IH st1 ltac:(lia) ltac:(lia)) as (st2 & Hrun & Ht2 & Hc2 & Hs2).
      exists st2. rewrite Hone, Hrun. repeat split; try congruence; lia.
    + rewrite (send_one_succeeded hardkill_enabled _ _ _ _ st Hf).
      destruct (IH (mkRunState (tx_frames st + 1) 0 (1 # 2) (send_exception_count st)
                               (stop_evt st)) ltac:(cbn; lia) ltac:(cbn; lia))
        as (st2 & Hrun & Ht2 & Hc2 & Hs2).
      cbn [tx_frames consec_errors stop_evt] in *.
      exists st2. rewrite Hrun. repeat split; try congruence; lia.
Qed.

Lemma short_run_only_sends_witness :
  exists st',
    send_attempts true (repeat refused 49) initial_state
    = (st', Continue, map send_event (repeat refused 49))
    /\ tx_frames st' = (tx_frames initial_state + successes (repeat refused 49))%Z
    /\ (0 <= consec_errors st'
        <= consec_errors initial_state + Z.of_nat (List.length (repeat refused 49)))%Z
    /\ stop_evt st' = stop_evt initial_state.
Proof.
  apply (short_run_only_sends true (repeat refused 49) initial_state).
  - cbn. lia.
  - cbn. lia.
Defined.

(** ** Scenario values and the codec *)

Import Scenarios.

Section MapBounds.

Local Open Scope Q_scope.

Lemma py_clamp_between (lo hi v : Q) :
  lo <= hi -> lo <= py_max lo (py_min hi v) /\ py_max lo (py_min hi v) <= hi.
Proof.
  intros Hle. unfold py_max, py_min.
  destruct (Qcompare_spec v hi).
  - destruct (Qcompare_spec hi lo); try split; lra.
  - destruct (Qcompare_spec v lo); try split; lra.
  - destruct (Qcompare_spec hi lo); try split; lra.
Qed.

Lemma py_clamp_inside (lo hi v : Q) :
  lo <= v -> v <= hi -> py_max lo (py_min hi v) == v.
Proof.
  intros Hlo Hhi. unfold py_max, py_min.
  destruct (Qcompare_spec v hi).
  - destruct (Qcompare_spec hi lo); try split; lra.
  - destruct (Qcompare_spec v lo); try split; lra.
  - lra.
Qed.

(** A second pass of the two comparisons returns the very same float. *)
Lemma py_clamp_again (lo hi v : Q) :
  lo < hi ->
  py_max lo (py_min hi (py_max lo (py_min hi v))) = py_max lo (py_min hi v).
Proof.
  intros Hlt.
  assert (Hhl : (hi ?= lo) = Gt) by (destruct (Qcompare_spec hi lo); [lra | lra | reflexivity]).
  assert (Hlh : (lo ?= hi) = Lt) by (destruct (Qcompare_spec lo hi); [lra | reflexivity | lra]).
  assert (Hhh : (hi ?= hi) = Eq) by (destruct (Qcompare_spec hi hi); [reflexivity | lra | lra]).
  assert (Hll : (lo ?= lo) = Eq) by (destruct (Qcompare_spec lo lo); [reflexivity | lra | lra]).
  unfold py_max, py_min.
  destruct (v ?= hi) eqn:Hv.
  - rewrite Hhl, Hhh, Hhl. reflexivity.
  - destruct (v ?= lo) eqn:Hc.
    + rewrite Hlh, Hll. reflexivity.
    + rewrite Hlh, Hll. reflexivity.
    + rewrite Hv, Hc. reflexivity.
  - rewrite Hhl, Hhh, Hhl. reflexivity.
Qed.

Lemma sanitize_map_between (val : pyfloat) :
  10 <= _sanitize_map val /\ _sanitize_map val <= 260.
Proof.
  unfold _sanitize_map. apply (py_clamp_between MAP_MIN MAP_MAX).
  unfold MAP_MIN, MAP_MAX. lra.
Qed.

End MapBounds.

Section ScenarioAndGate.

Import DbcLoader.

Local Open Scope Q_scope.

Lemma signal_matches_fields (sig exp : Signal) :
  signal_matches sig exp = true ->
  length sig = length exp /\ is_signed sig = is_signed exp
  /\ scale sig == scale exp /\ offset sig == offset exp.
Proof.
  unfold signal_matches. intros H.
  repeat (apply andb_prop in H as [H ?]).
  repeat split.
  - now apply Z.eqb_eq.
  - now apply Bool.eqb_prop.
  - now apply Qeq_bool_iff.
  - now apply Qeq_bool_iff.
Qed.

(** A signal the gate admits is a row of [EXPECTED_SIGNAL_META]. *)
Lemma layout_gate_row (db : list Message) (m : Message) (sig : Signal) :
  assert_expected_layout db = Ok tt -> m ∈ db -> sig ∈ signals m ->
  exists (fid : Z) (metas : gmap string Signal) (exp : Signal),
    EXPECTED_SIGNAL_META !! fid = Some metas
    /\ metas !! sig_name sig = Some exp
    /\ length sig = length exp /\ is_signed sig = is_signed exp
    /\ scale sig == scale exp /\ offset sig == offset exp.
Proof.
  intros Hgate Hm Hsig.
  destruct (layout_gate_signal db m sig Hgate Hm Hsig) as (exp & Hexp & Hmatch & _).
  destruct (EXPECTED_SIGNAL_META !! frame_id m) as [metas |] eqn:Hmetas;
    cbn [default from_option id] in Hexp; [| now rewrite lookup_empty in Hexp].
  exists (frame_id m), metas, exp.
  split; [exact Hmetas |]. split; [exact Hexp |].
  now apply signal_matches_fields.
Qed.

(** The outcome for a signal of 16 or 8 bits with offset 0 whose scaled
    value lies between the raw limits. *)
Lemma encode_signal_inside (sig : Signal) (x s : Q) (lo hi : Z) :
  raw_limits sig = Ok (lo, hi) ->
  scale sig == s -> offset sig == 0 -> 0 < s ->
  inject_Z lo * s <= x -> x <= inject_Z hi * s ->
  exists o, encode_signal sig (Num (Finite x)) = Ok o
            /\ so_was_clamped o = false
            /\ Qabs (so_phys_used o - x) <= (1 # 2) * s.
Proof.
  intros Hlim Hs Hoff Hpos Hlo Hhi.
  assert (Hnz : ~ scale sig == 0) by (rewrite Hs; lra).
  rewrite (encode_signal_spec sig (Num (Finite x)) lo hi Hnz Hlim).
  cbn [sanitized]. cbv zeta.
  set (raw := py_round ((x - offset sig) / scale sig)).
  assert (Hbetween : (lo <= raw <= hi)%Z).
  { apply py_round_between.
    - rewrite Hs, Hoff. apply Qle_shift_div_l; [exact Hpos | lra].
    - rewrite Hs, Hoff. apply Qle_shift_div_r; [exact Hpos | lra]. }
  assert (Hsame : Z.max lo (Z.min raw hi) = raw) by lia.
  rewrite Hsame, Z.eqb_refl. eexists. split; [reflexivity |].
  cbn [so_was_clamped so_phys_used negb]. split; [reflexivity |].
  pose proof (round_trip_half_scale sig x Hnz) as Hhalf. fold raw in Hhalf.
  rewrite Hs, (Qabs_pos s) in Hhalf by lra. exact Hhalf.
Qed.

End ScenarioAndGate.

(** The rows of the layout table a pair of lookups can come from. *)
Ltac gate_rows Hfid Hexp Hname :=
  unfold DbcLoader.EXPECTED_SIGNAL_META in Hfid;
  apply elem_of_list_to_map_2 in Hfid;
  repeat (apply elem_of_cons in Hfid as [Hfid | Hfid]);
  try (apply elem_of_nil in Hfid; contradiction);
  injection Hfid as -> ->;
  unfold DbcLoader.meta in Hexp;
  repeat (apply lookup_insert_Some in Hexp as [[Hname <-] | [_ Hexp]]);
  try (rewrite lookup_empty in Hexp; discriminate);
  symmetry in Hname.

Lemma enforce_map_bounds_stored (signals : gmap string pyobj) :
  (10 <= snd (enforce_map_bounds signals))%Q
  /\ (snd (enforce_map_bounds signals) <= 260)%Q
  /\ fst (enforce_map_bounds signals) !! "map"%string
     = Some (Num (Finite (snd (enforce_map_bounds signals))))
  /\ (forall k, k <> "map"%string ->
        fst (enforce_map_bounds signals) !! k = signals !! k).
Proof.
  unfold enforce_map_bounds. cbn [fst snd].
  set (val := match py_float (default (Num (Finite MAP_FALLBACK)) (signals !! "map"%string))
              with Ok f => f | Raise _ => Finite MAP_FALLBACK end).
  pose proof (sanitize_map_between val) as [Hlo Hhi].
  repeat split; try assumption.
  - apply lookup_insert_eq.
  - intros k Hk. now apply lookup_insert_ne.
Qed.

(** [enforce_map_bounds] leaves a finite value between [MAP_MIN] and
    [MAP_MAX] under the key [map], whatever the dict held there (nothing, a
    real number, an infinity, a NaN, or an object [float()] rejects); the
    other keys are untouched, and a second call changes nothing. *)
Theorem enforce_map_bounds_result (signals : gmap string pyobj) :
  let signals' := fst (enforce_map_bounds signals) in
  let v := snd (enforce_map_bounds signals) in
  (10 <= v)%Q /\ (v <= 260)%Q
  /\ signals' !! "map"%string = Some (Num (Finite v))
  /\ (forall k, k <> "map"%string -> signals' !! k = signals !! k)
  /\ enforce_map_bounds signals' = (signals', v).
Proof.
  cbv zeta.
  destruct (enforce_map_bounds_stored signals) as (Hlo & Hhi & Hmap & Hother).
  repeat split; try assumption.
  unfold enforce_map_bounds. cbn [fst snd].
  set (val := match py_float (default (Num (Finite MAP_FALLBACK)) (signals !! "map"%string))
              with Ok f => f | Raise _ => Finite MAP_FALLBACK end).
  rewrite lookup_insert_eq. cbn [default from_option id py_float].
  rewrite insert_insert_eq.
  assert (Hagain : _sanitize_map (Finite (_sanitize_map val)) = _sanitize_map val).
  { unfold _sanitize_map at 1 3. apply py_clamp_again. reflexivity. }
  rewrite Hagain. reflexivity.
Qed.



Section Ordered.

Local Open Scope Q_scope.

Lemma ordered_value_finite (k : string) (v : pyobj) : isfinite (ordered_value k v) = true.
Proof.
  unfold ordered_value. destruct (decide (k = "map"%string)); [reflexivity |].
  destruct (py_float v) as [f |]; [| reflexivity].
  destruct (isfinite f) eqn:Hf; [exact Hf | reflexivity].
Qed.

Lemma ordered_step_lookup (out : gmap string pyfloat) (k0 : string) (v0 : pyobj)
    (k : string) :
  ordered_step out (k0, v0) !! k
  = if decide (k = k0)
    then match out !! k with
         | Some _ => Some (ordered_value k v0)
         | None => None
         end
    else out !! k.
Proof.
  unfold ordered_step. destruct (decide (k = k0)) as [-> | Hne].
  - destruct (decide (is_Some (out !! k0))) as [[d Hd] | Hnone].
    + rewrite Hd. apply lookup_insert_eq.
    + destruct (out !! k0) eqn:Hd; [| reflexivity].
      exfalso. apply Hnone. eauto.
  - destruct (decide (is_Some (out !! k0))); [| reflexivity].
    now apply lookup_insert_ne.
Qed.

(** The loop neither adds nor drops a key, and stores finite floats. *)
Lemma ordered_fold_keys (signals : list (string * pyobj)) (out : gmap string pyfloat)
    (k : string) :
  match fold_left ordered_step signals out !! k, out !! k with
  | Some f, Some d => isfinite d = true -> isfinite f = true
  | None, None => True
  | _, _ => False
  end.
Proof.
  revert out. induction signals as [| [k0 v0] rest IH]; intros out.
  - cbn [fold_left]. destruct (out !! k); [tauto | exact I].
  - cbn [fold_left]. specialize (IH (ordered_step out (k0, v0))).
    rewrite (ordered_step_lookup out k0 v0 k) in IH.
    destruct (fold_left ordered_step rest (ordered_step out (k0, v0)) !! k) as [f |];
      destruct (decide (k = k0)); destruct (out !! k) as [d |]; try tauto.
    intros _. apply IH. apply ordered_value_finite.
Qed.

(** With one item per key, as in a dict, the value stored under a key
    of [MS_SIGNAL_LIST] is the one computed from its item. *)
Lemma ordered_fold_lookup (signals : list (string * pyobj)) (out : gmap string pyfloat)
    (k : string) :
  NoDup signals.*1 ->
  fold_left ordered_step signals out !! k
  = match out !! k with
    | None => None
    | Some d =>
        Some (match (list_to_map signals : gmap string pyobj) !! k with
              | Some v => ordered_value k v
              | None => d
              end)
    end.
Proof.
  revert out. induction signals as [| [k0 v0] rest IH]; intros out Hnd.
  - cbn [fold_left]. rewrite list_to_map_nil, lookup_empty. now destruct (out !! k).
  - cbn [fmap list_fmap fst] in Hnd. apply NoDup_cons in Hnd as [Hnotin Hnd].
    cbn [fold_left]. rewrite (IH _ Hnd), ordered_step_lookup.
    rewrite list_to_map_cons.
    destruct (decide (k = k0)) as [-> | Hne].
    + rewrite lookup_insert_eq.
      rewrite (not_elem_of_list_to_map_1 (M := gmap string) _ _ Hnotin).
      now destruct (out !! k0).
    + now rewrite (lookup_insert_ne _ _ _ _ (not_eq_sym Hne)).
Qed.

Lemma base_signals_lookup (k : string) :
  _base_signals !! k = if decide (k ∈ MS_SIGNAL_LIST) then Some (Finite 0) else None.
Proof.
  unfold _base_signals. destruct (decide (k ∈ MS_SIGNAL_LIST)) as [Hin | Hnot].
  - apply elem_of_list_to_map_1.
    + rewrite <- list_fmap_compose. cbn. refine (bool_decide_unpack _ _).
      vm_compute. exact I.
    + apply list_elem_of_fmap. eauto.
  - apply not_elem_of_list_to_map_1. rewrite <- list_fmap_compose.
    intros Hin. apply Hnot. apply list_elem_of_fmap in Hin as (n & -> & Hn). exact Hn.
Qed.

Lemma ordered_lookup (signals : list (string * pyobj)) (k : string) :
  NoDup signals.*1 ->
  _ordered signals !! k
  = if decide (k ∈ MS_SIGNAL_LIST)
    then Some (match (list_to_map signals : gmap string pyobj) !! k with
               | Some v => ordered_value k v
               | None => Finite 0
               end)
    else None.
Proof.
  intros Hnd. unfold _ordered.
  rewrite (ordered_fold_lookup signals _ k Hnd), base_signals_lookup.
  now destruct (decide (k ∈ MS_SIGNAL_LIST)).
Qed.

End Ordered.

(** Whatever dict a scenario builds, [_ordered] returns exactly the keys
    of [MS_SIGNAL_LIST], each with a finite float: none of its values is
    one the codec would replace by 0.0. *)
Theorem ordered_keys_finite (signals : list (string * pyobj)) (k : string) :
  match _ordered signals !! k with
  | Some f => k ∈ MS_SIGNAL_LIST /\ isfinite f = true /\ unusable (Num f) = false
  | None => k ∉ MS_SIGNAL_LIST
  end.
Proof.
  pose proof (ordered_fold_keys signals _base_signals k) as H.
  unfold _ordered. rewrite base_signals_lookup in H.
  destruct (fold_left ordered_step signals _base_signals !! k) as [f' |];
    destruct (decide (k ∈ MS_SIGNAL_LIST)); try contradiction; [| assumption].
  specialize (H eq_refl). repeat split; try assumption.
  cbn [unusable py_float]. now rewrite H.
Qed.

Section Pull.

Local Open Scope Q_scope.

Lemma py_clamp_lower (lo hi v c : Q) :
  lo <= hi -> c <= hi -> c <= v -> c <= py_max lo (py_min hi v).
Proof.
  intros Hle Hc Hv. unfold py_max, py_min.
  destruct (Qcompare_spec v hi).
  - destruct (Qcompare_spec hi lo); lra.
  - destruct (Qcompare_spec v lo); lra.
  - destruct (Qcompare_spec hi lo); lra.
Qed.

Lemma py_clamp_upper (lo hi v c : Q) :
  lo <= hi -> lo <= c -> v <= c -> py_max lo (py_min hi v) <= c.
Proof.
  intros Hle Hc Hv. unfold py_max, py_min.
  destruct (Qcompare_spec v hi).
  - destruct (Qcompare_spec hi lo); lra.
  - destruct (Qcompare_spec v lo); lra.
  - destruct (Qcompare_spec hi lo); lra.
Qed.

Lemma ramp_between (t : Q) : 0 <= ramp t /\ ramp t <= 1.
Proof. apply (py_clamp_between 0 1). lra. Qed.

Lemma ramp_lower (t c : Q) : c <= 1 -> 5 * c <= t -> c <= ramp t.
Proof.
  intros Hc Ht. apply (py_clamp_lower 0 1); [lra | exact Hc |].
  apply Qle_shift_div_l; lra.
Qed.

Lemma ramp_upper (t c : Q) : 0 <= c -> t <= 5 * c -> ramp t <= c.
Proof.
  intros Hc Ht. apply (py_clamp_upper 0 1); [lra | exact Hc |].
  apply Qle_shift_div_r; lra.
Qed.

(** A value above the physical value of the upper raw limit by more than
    half a step is sent as that limit and reported. *)
Lemma encode_signal_above (sig : Signal) (x s : Q) (lo hi : Z) :
  raw_limits sig = Ok (lo, hi) ->
  scale sig == s -> offset sig == 0 -> 0 < s ->
  (inject_Z hi + (1 # 2)) * s < x ->
  exists o, encode_signal sig (Num (Finite x)) = Ok o
            /\ so_was_clamped o = true
            /\ so_phys_used o == inject_Z hi * s.
Proof.
  intros Hlim Hs Hoff Hpos Hx.
  assert (Hnz : ~ scale sig == 0) by (rewrite Hs; lra).
  rewrite (encode_signal_spec sig (Num (Finite x)) lo hi Hnz Hlim).
  cbn [sanitized]. cbv zeta.
  set (raw := py_round ((x - offset sig) / scale sig)).
  pose proof (py_round_near ((x - offset sig) / scale sig)) as [_ Hnear]. fold raw in Hnear.
  assert (Hy : inject_Z hi + (1 # 2) < (x - offset sig) / scale sig).
  { rewrite Hs, Hoff. apply Qlt_shift_div_l; [exact Hpos | lra]. }
  assert (Hgt : (hi < raw)%Z) by (rewrite Zlt_Qlt; lra).
  destruct (raw_limits_spec sig lo hi Hlim) as [_ Hsign].
  assert (Hsat : Z.max lo (Z.min raw hi) = hi) by lia.
  rewrite Hsat. eexists. split; [reflexivity |].
  cbn [so_was_clamped so_phys_used]. split.
  - apply negb_true_iff, Z.eqb_neq. lia.
  - unfold to_phys. rewrite Hs, Hoff. lra.
Qed.

Lemma pull_runtime_lookup (t : Q) (k : string) (x : Q) :
  k <> "map"%string ->
  (list_to_map (pull_signals t) : gmap string pyobj) !! k = Some (Num (Finite x)) ->
  pull_runtime t !! k = Some (Num (Finite x)).
Proof.
  intros Hk Hx. unfold pull_runtime.
  destruct (enforce_map_bounds_stored (Num <$> scenario_pull t)) as (_ & _ & _ & Hother).
  rewrite (Hother k Hk), lookup_fmap. unfold scenario_pull.
  rewrite ordered_lookup by (change ((pull_signals t).*1) with MS_SIGNAL_LIST;
                              refine (bool_decide_unpack _ _); vm_compute; exact I).
  rewrite Hx.
  destruct (decide (k ∈ MS_SIGNAL_LIST)) as [_ | Hnot].
  - unfold ordered_value. cbn [py_float isfinite].
    destruct (decide (k = "map"%string)); [contradiction | reflexivity].
  - exfalso. apply Hnot. apply elem_of_list_to_map_2 in Hx.
    change MS_SIGNAL_LIST with ((pull_signals t).*1).
    apply list_elem_of_fmap. now exists (k, Num (Finite x)).
Qed.

Lemma pull_runtime_map (t : Q) :
  exists v, pull_runtime t !! "map"%string = Some (Num (Finite v))
            /\ 10 <= v /\ v <= 260.
Proof.
  unfold pull_runtime.
  destruct (enforce_map_bounds_stored (Num <$> scenario_pull t)) as (Hlo & Hhi & Hmap & _).
  eauto.
Qed.

End Pull.

Ltac raw_limits_of sig Hlen Hsigned Hlim :=
  match type of Hlen with
  | _ = length ?exp =>
      assert (Hlim : raw_limits sig = raw_limits exp)
        by (unfold raw_limits; rewrite Hsigned, Hlen; reflexivity);
      match type of Hlim with
      | _ = ?r => let r' := eval vm_compute in r in change r with r' in Hlim
      end
  end.

(** In the [pull] scenario only [sensors1] leaves the range of its
    signal: for a database the layout gate admits, every other signal is
    encoded unclamped at every time [t], and [sensors1] (300 + 220 * ramp,
    on a signed 16-bit signal of scale 0.01) is unclamped up to t = 0.628 s
    and from t = 0.629 s on is sent as 327.67 and reported as clamped. *)
Theorem pull_scenario_saturates_sensors1
    (db : list Message) (m : Message) (sig : Signal) (t : Q) :
  DbcLoader.assert_expected_layout db = Ok tt ->
  m ∈ db -> sig ∈ DbcCodec.signals m ->
  exists o,
    encode_signal sig (default (Num (Finite 0)) (pull_runtime t !! sig_name sig)) = Ok o
    /\ (sig_name sig <> "sensors1"%string -> so_was_clamped o = false)
    /\ (sig_name sig = "sensors1"%string ->
        ((t <= 628 # 1000)%Q -> so_was_clamped o = false)
        /\ ((629 # 1000 <= t)%Q ->
            so_was_clamped o = true /\ (so_phys_used o == 32767 # 100)%Q)).
Proof.
  intros Hgate Hm Hsig.
  destruct (layout_gate_row db m sig Hgate Hm Hsig)
    as (fid & metas & exp & Hfid & Hexp & Hlen & Hsigned & Hscale & Hoff).
  pose proof (ramp_between t) as [Hr0 Hr1].
  gate_rows Hfid Hexp Hname;
    raw_limits_of sig Hlen Hsigned Hlim;
    cbn [length is_signed scale offset] in Hlen, Hsigned, Hscale, Hoff;
    rewrite Hname.
  all: try (match goal with
            | |- context [pull_runtime ?t' !! ?k] =>
                let H := fresh "H" in
                eassert (H : pull_runtime t' !! k = Some (Num (Finite _)))
                  by (apply pull_runtime_lookup; [discriminate | reflexivity]);
                rewrite H; clear H; cbn [default from_option id]
            end).
  all: try (match goal with
            | |- exists o, encode_signal ?sg (Num (Finite ?x)) = Ok o /\ (?n <> _ -> _) /\ _ =>
                lazymatch n with
                | "sensors1"%string => fail
                | _ =>
                  let Hin := fresh "Hin" in
                  match type of Hlim with
                  | _ = Ok (?lo, ?hi) =>
                      match type of Hscale with
                      | (_ == ?s)%Q =>
                          assert (Hin : (inject_Z lo * s <= x /\ x <= inject_Z hi * s)%Q)
                            by (unfold inject_Z; split; lra);
                          destruct (encode_signal_inside sg x s lo hi Hlim Hscale Hoff
                                      ltac:(reflexivity) (proj1 Hin) (proj2 Hin))
                            as (o & Ho & Hclamped & _);
                          exists o; split; [exact Ho |];
                          split; [intros _; exact Hclamped | intros Heq; discriminate Heq]
                      end
                  end
                end
            end).
  - (* map *)
    destruct (pull_runtime_map t) as (v & Hv & Hlo & Hhi). rewrite Hv.
    cbn [default from_option id].
    assert (Hin : (inject_Z (-32768) * (1 # 10) <= v /\ v <= inject_Z 32767 * (1 # 10))%Q)
      by (unfold inject_Z; split; lra).
    destruct (encode_signal_inside sig v (1 # 10) _ _ Hlim Hscale Hoff
                ltac:(reflexivity) (proj1 Hin) (proj2 Hin)) as (o & Ho & Hclamped & _).
    exists o. split; [exact Ho |].
    split; [intros _; exact Hclamped | intros Heq; discriminate Heq].
  - (* sensors1 *)
    assert (Hnz : ~ (scale sig == 0)%Q) by (rewrite Hscale; discriminate).
    eexists. split; [apply (encode_signal_spec sig _ _ _ Hnz Hlim) |].
    split; [intros Hne; now destruct Hne |]. intros _. split.
    + intros Ht. pose proof (ramp_upper t (628 # 5000) ltac:(lra) ltac:(lra)) as Hr.
      destruct (encode_signal_inside sig (300 + 220 * ramp t) (1 # 100) _ _ Hlim Hscale Hoff
                  ltac:(reflexivity)) as (o & Ho & Hclamped & _);
        [unfold inject_Z; lra | unfold inject_Z; lra |].
      rewrite (encode_signal_spec sig _ _ _ Hnz Hlim) in Ho.
      injection Ho as <-. exact Hclamped.
    + intros Ht. pose proof (ramp_lower t (629 # 5000) ltac:(lra) ltac:(lra)) as Hr.
      destruct (encode_signal_above sig (300 + 220 * ramp t) (1 # 100) _ _ Hlim Hscale Hoff
                  ltac:(reflexivity)) as (o & Ho & Hclamped & Hused);
        [unfold inject_Z; lra |].
      rewrite (encode_signal_spec sig _ _ _ Hnz Hlim) in Ho.
      injection Ho as <-. split; [exact Hclamped |].
      rewrite Hused. reflexivity.
Qed.

Lemma pull_scenario_saturates_sensors1_witness :
  exists o,
    encode_signal (mkSignal "sensors1" 23 16 big_endian true (1 # 100) 0)
      (default (Num (Finite 0))
         (pull_runtime 1
          !! sig_name (mkSignal "sensors1" 23 16 big_endian true (1 # 100) 0))) = Ok o
    /\ (sig_name (mkSignal "sensors1" 23 16 big_endian true (1 # 100) 0)
        <> "sensors1"%string -> so_was_clamped o = false)
    /\ (sig_name (mkSignal "sensors1" 23 16 big_endian true (1 # 100) 0)
        = "sensors1"%string ->
        ((1 <= 628 # 1000)%Q -> so_was_clamped o = false)
        /\ ((629 # 1000 <= 1)%Q ->
            so_was_clamped o = true /\ (so_phys_used o == 32767 # 100)%Q)).
Proof.
  apply (pull_scenario_saturates_sensors1 ascending_db (expected_message 1515)
           (mkSignal "sensors1" 23 16 big_endian true (1 # 100) 0) 1).
  - vm_compute. reflexivity.
  - unfold ascending_db. cbn [map].
    do 3 apply list_elem_of_further. apply list_elem_of_here.
  - vm_compute. apply list_elem_of_further, list_elem_of_here.
Defined.

(** ** What the layout gate leaves for the later startup checks *)

Section AfterTheGate.

Import DbcLoader.

Lemma layout_gate_ids_present (db : list Message) (fid : Z) :
  assert_expected_layout db = Ok tt ->
  fid ∈ [1512; 1513; 1514; 1515; 1516]%Z ->
  exists m, m ∈ db /\ frame_id m = fid.
Proof.
  intros Hgate Hfid. unfold assert_expected_layout in Hgate.
  destruct (bool_decide _) eqn:Hids in Hgate; cbn in Hgate; [| discriminate].
  apply bool_decide_eq_true in Hids.
  assert (Hin : fid ∈ (list_to_set (map frame_id db) : gset Z)).
  { rewrite Hids. unfold EXPECTED_IDS. now apply elem_of_list_to_set. }
  apply elem_of_list_to_set, list_elem_of_fmap in Hin as (m & -> & Hm). eauto.
Qed.

Lemma layout_gate_names (db : list Message) (m : Message) :
  assert_expected_layout db = Ok tt -> m ∈ db ->
  EXPECTED_NAMES !! frame_id m = Some (msg_name m)
  /\ forall n, n ∈ default [] (EXPECTED_SIGNALS !! frame_id m) ->
               n ∈ map sig_name (signals m).
Proof.
  intros Hgate Hm.
  destruct (layout_gate_message db m Hgate Hm) as [Hfid Hmsg].
  pose proof (proj1 (Forall_forall _ _) expected_tables_layout _ Hfid) as Htab.
  cbv beta in Htab. unfold check_message in Hmsg.
  destruct (negb (msg_length m =? EXPECTED_DLC)%Z); [discriminate |].
  destruct (bool_decide _) eqn:Hname in Hmsg; cbn [negb] in Hmsg; [| discriminate].
  apply bool_decide_eq_true in Hname. split; [exact Hname |].
  destruct (EXPECTED_SIGNALS !! frame_id m) as [names |]; [| contradiction].
  destruct Htab as [Hne _]. cbn [default from_option id] in Hmsg |- *.
  assert (Hnonempty : bool_decide ((list_to_set names : gset string) = ∅) = false).
  { apply bool_decide_eq_false. destruct names as [| n names]; [contradiction |].
    intros Hempty. apply (not_elem_of_empty (C := gset string) n).
    rewrite <- Hempty. apply elem_of_list_to_set, list_elem_of_here. }
  rewrite Hnonempty in Hmsg. cbn [negb andb] in Hmsg.
  destruct (bool_decide _) eqn:Hfound in Hmsg; cbn [negb] in Hmsg; [| discriminate].
  apply bool_decide_eq_true in Hfound.
  intros n Hn. apply (elem_of_list_to_set (C := gset string)). rewrite Hfound.
  now apply elem_of_list_to_set.
Qed.

(** Each name of [MS_SIGNAL_LIST] is a signal of one of the five frames
    in [EXPECTED_SIGNALS], each name of [MS_MESSAGES] the name of one. *)
Lemma ms_lists_in_tables :
  Forall (fun k => exists fid, fid ∈ [1512; 1513; 1514; 1515; 1516]%Z
                               /\ k ∈ default [] (EXPECTED_SIGNALS !! fid))
         Scenarios.MS_SIGNAL_LIST
  /\ Forall (fun name => exists fid, fid ∈ [1512; 1513; 1514; 1515; 1516]%Z
                                     /\ EXPECTED_NAMES !! fid = Some name)
            Scenarios.MS_MESSAGES.
Proof.
  split.
  - unfold Scenarios.MS_SIGNAL_LIST.
    repeat apply Forall_cons_2; try apply Forall_nil_2;
      first [ exists 1512%Z; split; refine (bool_decide_unpack _ _); vm_compute; exact I
            | exists 1513%Z; split; refine (bool_decide_unpack _ _); vm_compute; exact I
            | exists 1514%Z; split; refine (bool_decide_unpack _ _); vm_compute; exact I
            | exists 1515%Z; split; refine (bool_decide_unpack _ _); vm_compute; exact I
            | exists 1516%Z; split; refine (bool_decide_unpack _ _); vm_compute; exact I ].
  - unfold Scenarios.MS_MESSAGES.
    repeat apply Forall_cons_2; try apply Forall_nil_2;
      first [ exists 1512%Z; split; [refine (bool_decide_unpack _ _); vm_compute; exact I | reflexivity]
            | exists 1513%Z; split; [refine (bool_decide_unpack _ _); vm_compute; exact I | reflexivity]
            | exists 1514%Z; split; [refine (bool_decide_unpack _ _); vm_compute; exact I | reflexivity]
            | exists 1515%Z; split; [refine (bool_decide_unpack _ _); vm_compute; exact I | reflexivity]
            | exists 1516%Z; split; [refine (bool_decide_unpack _ _); vm_compute; exact I | reflexivity] ].
Qed.

End AfterTheGate.

(** Once [assert_expected_layout] has accepted a database, the presence
    checks that follow it find nothing missing: the lists [missing] of
    [validate_startup] and [missing_msgs], [missing_sigs] of
    [assert_ms_signals_in_dbc] are empty, so neither raises its
    [RuntimeError]. *)
Theorem layout_gate_leaves_nothing_missing (db : list Message) :
  DbcLoader.assert_expected_layout db = Ok tt ->
  missing_signals db = [] /\ missing_messages db = [].
Proof.
  intros Hgate. destruct ms_lists_in_tables as [Hsigs Hmsgs]. split.
  - apply elem_of_nil_inv. intros k Hk.
    apply list_elem_of_filter in Hk as [Hmissing Hk]. apply Hmissing.
    destruct (proj1 (Forall_forall _ _) Hsigs k Hk) as (fid & Hfid & Hin).
    destruct (layout_gate_ids_present db fid Hgate Hfid) as (m & Hm & <-).
    destruct (layout_gate_names db m Hgate Hm) as [_ Hnames].
    apply elem_of_list_to_set, list_elem_of_join.
    exists (sig_name <$> signals m). split; [exact (Hnames k Hin) |].
    apply list_elem_of_fmap. now exists m.
  - apply elem_of_nil_inv. intros name Hname.
    apply list_elem_of_filter in Hname as [Hmissing Hname]. apply Hmissing.
    destruct (proj1 (Forall_forall _ _) Hmsgs name Hname) as (fid & Hfid & Hexp).
    destruct (layout_gate_ids_present db fid Hgate Hfid) as (m & Hm & <-).
    destruct (layout_gate_names db m Hgate Hm) as [Hn _].
    apply list_elem_of_fmap. exists m. split; [congruence | exact Hm].
Qed.

Lemma layout_gate_leaves_nothing_missing_witness :
  missing_signals exchanged_db = [] /\ missing_messages exchanged_db = [].
Proof.
  apply (layout_gate_leaves_nothing_missing exchanged_db). vm_compute. reflexivity.
Defined.

(** ** The telemetry writer *)

Section TelemetryGrid.

Import Telemetry.

Local Open Scope Q_scope.

(** The loop ends once the slot has passed [now]: it lands in
    [(now, now + dt]], a whole number of periods further. *)
Lemma align_lands (fuel : nat) (next now dt : Q) :
  0 < dt -> next <= now ->
  now - next < inject_Z (Z.of_nat fuel) * dt ->
  exists (k : nat) (next' : Q),
    align fuel next now dt = Some next'
    /\ (1 <= k <= fuel)%nat
    /\ next' == next + inject_Z (Z.of_nat k) * dt
    /\ now < next' /\ next' <= now + dt.
Proof.
  intros Hdt. revert next. induction fuel as [| fuel IH]; intros next Hle Hfuel.
  - change (inject_Z (Z.of_nat 0)) with 0 in Hfuel. lra.
  - cbn [align].
    destruct (Qle_bool next now) eqn:Hnow;
      [| apply not_true_iff_false in Hnow; rewrite Qle_bool_iff in Hnow; contradiction].
    rewrite Nat2Z.inj_succ, <- Z.add_1_r, inject_Z_plus in Hfuel.
    change (inject_Z 1) with 1 in Hfuel.
    destruct (Qlt_le_dec now (next + dt)) as [Hpast | Hnot].
    + exists 1%nat, (next + dt).
      assert (Hstop : align fuel (next + dt) now dt = Some (next + dt)).
      { destruct fuel; cbn [align];
          (destruct (Qle_bool (next + dt) now) eqn:Hb;
           [apply Qle_bool_iff in Hb; lra | reflexivity]). }
      rewrite Hstop. change (inject_Z (Z.of_nat 1)) with 1.
      repeat split; try lia; lra.
    + destruct (IH (next + dt) Hnot ltac:(lra)) as (k & next' & Heq & Hk & Hgrid & Hlo & Hhi).
      exists (S k), next'. rewrite Heq.
      rewrite Nat2Z.inj_succ, <- Z.add_1_r, inject_Z_plus.
      change (inject_Z 1) with 1.
      repeat split; try lia; lra.
Qed.

End TelemetryGrid.

(** A call of [maybe_write] that is due writes once and moves the next
    slot a whole number of periods on, to the first one after [now]: the
    slots stay on the grid [_next + k * dt] however late the call is, and
    no call before the new slot writes again. *)
Theorem maybe_write_keeps_grid
    (fuel : nat) (now : Q) (w : Telemetry.TelemetryWriter) :
  (0 < Telemetry.dt w)%Q ->
  (Telemetry._next w <= now)%Q ->
  (now - Telemetry._next w < inject_Z (Z.of_nat fuel) * Telemetry.dt w)%Q ->
  exists (k : nat) (w' : Telemetry.TelemetryWriter),
    Telemetry.maybe_write fuel now w = Some (w', true)
    /\ (1 <= k <= fuel)%nat
    /\ (Telemetry._next w'
        == Telemetry._next w + inject_Z (Z.of_nat k) * Telemetry.dt w)%Q
    /\ (now < Telemetry._next w')%Q /\ (Telemetry._next w' <= now + Telemetry.dt w)%Q
    /\ Telemetry.dt w' = Telemetry.dt w
    /\ forall fuel' now', (now' < Telemetry._next w')%Q ->
         Telemetry.maybe_write fuel' now' w' = Some (w', false).
Proof.
  intros Hdt Hdue Hfuel.
  destruct (align_lands fuel _ now _ Hdt Hdue Hfuel) as (k & next' & Heq & Hk & Hgrid & Hlo & Hhi).
  exists k, (Telemetry.mkWriter (Telemetry.hz w) (Telemetry.dt w) next').
  unfold Telemetry.maybe_write at 1.
  assert (Hb : Qle_bool (Telemetry._next w) now = true) by now apply Qle_bool_iff.
  rewrite Hb, Heq. cbn [negb Telemetry._next Telemetry.dt].
  repeat split; try assumption; try lia.
  intros fuel' now' Hearly. unfold Telemetry.maybe_write. cbn [Telemetry._next].
  destruct (Qle_bool next' now') eqn:Hb'; [| reflexivity].
  apply Qle_bool_iff in Hb'. lra.
Qed.

Lemma maybe_write_keeps_grid_witness :
  exists (k : nat) (w' : Telemetry.TelemetryWriter),
    Telemetry.maybe_write 3 (21 # 2) telemetry_writer = Some (w', true)
    /\ (1 <= k <= 3)%nat
    /\ (Telemetry._next w'
        == Telemetry._next telemetry_writer
           + inject_Z (Z.of_nat k) * Telemetry.dt telemetry_writer)%Q
    /\ (21 # 2 < Telemetry._next w')%Q
    /\ (Telemetry._next w' <= (21 # 2) + Telemetry.dt telemetry_writer)%Q
    /\ Telemetry.dt w' = Telemetry.dt telemetry_writer
    /\ forall fuel' now', (now' < Telemetry._next w')%Q ->
         Telemetry.maybe_write fuel' now' w' = Some (w', false).
Proof.
  apply (maybe_write_keeps_grid 3 (21 # 2) telemetry_writer).
  - reflexivity.
  - discriminate.
  - reflexivity.
Defined.

(** ** The bus object of the runner *)

Section BusOpen.

Import TransportOpen.

Lemma python_can_open_failed (oe : OpenEnv) (s s' : PythonCan.t) (e : exn) :
  python_can_open oe s = (s', Raise e) -> PythonCan.bus s' = None.
Proof.
  unfold python_can_open. intros H.
  destruct (PythonCan.bus s) eqn:Hbus; [discriminate |].
  repeat match type of H with
         | (if ?c then _ else _) = _ => destruct c
         | match ?c with _ => _ end = _ => destruct c
         end;
    try discriminate; injection H as <- _; exact Hbus.
Qed.

Lemma open_transport_result (oe : OpenEnv) (b b' : CanBus.t) (tr : CanTransport)
    (r : result unit) :
  CanBus.open_transport oe b tr = (b', r) ->
  exists tr' errors,
    TransportOpen.open oe tr = (tr', r)
    /\ b' = CanBus.set_transport b (Some tr') errors.
Proof.
  unfold CanBus.open_transport. destruct (TransportOpen.open oe tr) as [tr' r'].
  destruct r' as [[] | e]; intros H; injection H as <- <-; eauto.
Qed.

(** A bus whose transport is assigned returns from [open()] at once. *)
Lemma bus_open_assigned (oe : OpenEnv) (b : CanBus.t) :
  is_Some (CanBus.transport b) -> CanBus.open oe b = (b, Ok tt).
Proof. intros [tr Htr]. unfold CanBus.open. now rewrite Htr. Qed.

(** A failed [open()] of a bus on the pythoncan backend leaves a
    transport whose [bus] is [None]. *)
Lemma bus_open_failed_pythoncan (oe : OpenEnv) (b b' : CanBus.t) (e : exn) :
  CanBus.backend b = "pythoncan"%string ->
  CanBus.open oe b = (b', Raise e) ->
  exists s errors,
    b' = CanBus.set_transport b (Some (PythonCanTransport s)) errors
    /\ PythonCan.bus s = None.
Proof.
  intros Hbackend. unfold CanBus.open.
  destruct (CanBus.transport b); [discriminate |].
  destruct (decide (CanBus.backend b = "pythoncan"%string)); [| contradiction].
  intros H. apply open_transport_result in H as (tr' & errors & Hopen & ->).
  cbn [TransportOpen.open] in Hopen.
  destruct (python_can_open oe _) as [s' r] eqn:Hpy.
  injection Hopen as <- ->.
  exists s', errors. split; [reflexivity |].
  exact (python_can_open_failed _ _ _ _ Hpy).
Qed.

Lemma bus_send_unopened (env : LinkEnv) (b : CanBus.t) (s : PythonCan.t) (errors : Z)
    (frame_id : Z) (payload : list byte) (is_extended : bool) :
  PythonCan.bus s = None ->
  let b' := CanBus.set_transport b (Some (PythonCanTransport s)) errors in
  CanBus.send env b' frame_id payload is_extended = (b', Raise RuntimeError).
Proof.
  intros Hbus. cbv zeta. unfold CanBus.send.
  cbn [CanBus.set_transport CanBus.transport Transport.send].
  unfold PythonCan.send. rewrite Hbus. reflexivity.
Qed.

End BusOpen.

(** A failed [CanBus.open()] is never tried again by a later [open()]:
    if it failed on the configuration, before a transport was assigned,
    every later call raises the same exception; otherwise the transport
    stays assigned and every later call returns at once without opening
    anything.  On the pythoncan backend every [send] then raises
    [RuntimeError], whatever the link would do. *)
Theorem bus_open_after_failure
    (oe : TransportOpen.OpenEnv) (b b' : CanBus.t) (e : exn) :
  CanBus.open oe b = (b', Raise e) ->
  (CanBus.transport b' = None ->
     b' = b /\ forall oe', CanBus.open oe' b' = (b', Raise e))
  /\ (is_Some (CanBus.transport b') ->
      forall oe', CanBus.open oe' b' = (b', Ok tt))
  /\ (CanBus.backend b = "pythoncan"%string ->
      is_Some (CanBus.transport b')
      /\ forall env frame_id payload is_extended,
           CanBus.send env b' frame_id payload is_extended = (b', Raise RuntimeError)).
Proof.
  intros Hopen. split; [| split].
  - intros Hnone. revert Hopen. unfold CanBus.open.
    destruct (CanBus.transport b) eqn:Htr; [discriminate |].
    destruct (decide (CanBus.backend b = "pythoncan"%string)) eqn:Hd1.
    { intros H. apply open_transport_result in H as (tr' & errors & _ & ->).
      discriminate. }
    destruct (decide (CanBus.backend b = "slcan"%string)) eqn:Hd2.
    + destruct (Settings.no_port (CanBus.port b)) eqn:Hport.
      * intros H. injection H as <- <-. split; [reflexivity |].
        intros oe'. now rewrite Htr, Hd1, Hd2, Hport.
      * intros H. apply open_transport_result in H as (tr' & errors & _ & ->).
        discriminate.
    + intros H. injection H as <- <-. split; [reflexivity |].
      intros oe'. now rewrite Htr, Hd1, Hd2.
  - intros Hsome oe'. now apply bus_open_assigned.
  - intros Hbackend.
    destruct (bus_open_failed_pythoncan oe b b' e Hbackend Hopen) as (s & errors & -> & Hbus).
    split; [cbn; eauto |].
    intros env frame_id payload is_extended.
    exact (bus_send_unopened env b s errors frame_id payload is_extended Hbus).
Qed.

Lemma bus_open_after_failure_witness :
  let b := CanBus.init "serial" 0 500000 (Some "pythoncan"%string) None None false in
  let oe := TransportOpen.mkOpenEnv (Ok tt) true (Ok tt) (Ok tt) (Ok tt) (Ok tt) (Ok tt)
                                    (Ok tt) failing_link failing_link failing_link in
  let b' := fst (CanBus.open oe b) in
  (CanBus.transport b' = None ->
     b' = b /\ forall oe', CanBus.open oe' b' = (b', Raise ValueError))
  /\ (is_Some (CanBus.transport b') ->
      forall oe', CanBus.open oe' b' = (b', Ok tt))
  /\ (CanBus.backend b = "pythoncan"%string ->
      is_Some (CanBus.transport b')
      /\ forall env frame_id payload is_extended,
           CanBus.send env b' frame_id payload is_extended = (b', Raise RuntimeError)).
Proof.
  apply (bus_open_after_failure
           (TransportOpen.mkOpenEnv (Ok tt) true (Ok tt) (Ok tt) (Ok tt) (Ok tt) (Ok tt)
                                    (Ok tt) failing_link failing_link failing_link)
           (CanBus.init "serial" 0 500000 (Some "pythoncan"%string) None None false)).
  reflexivity.
Defined.

(** In the reopen loop of the runner, [bus.close()] is called once and
    [bus.open()] in every iteration.  When the first [bus.open()] fails with
    a transport assigned, the second one returns at once: the loop ends
    after a single sleep and logs [reopen_ok] whatever the device does, and
    resets the failure count.  On the pythoncan backend the bus it leaves
    raises [RuntimeError] on every [send]. *)
Theorem reopen_after_failed_open_reports_ok
    (oe1 oe2 : TransportOpen.OpenEnv) (rest : list TransportOpen.OpenEnv)
    (b b1 : CanBus.t) (e : exn) (st : RunState) :
  CanBus.open oe1 b = (b1, Raise e) ->
  is_Some (CanBus.transport b1) ->
  stop_evt st = false ->
  let steps := fst (bus_reopen_steps (oe1 :: oe2 :: rest) b) in
  let b2 := snd (bus_reopen_steps (oe1 :: oe2 :: rest) b) in
  reopen_loop steps st
  = (mkRunState (tx_frames st) 0 (1 # 2) (send_exception_count st) false,
     Continue,
     [BusOpen; Emit "reopen_fail"; Sleep (backoff st); BusOpen; Emit "reopen_ok"])
  /\ b2 = b1
  /\ (CanBus.backend b = "pythoncan"%string ->
      forall env frame_id payload is_extended,
        CanBus.send env b2 frame_id payload is_extended = (b2, Raise RuntimeError)).
Proof.
  intros Hopen Hsome Hstop. cbv zeta.
  cbn [bus_reopen_steps]. rewrite Hopen.
  rewrite (bus_open_assigned oe2 b1 Hsome). cbn [fst snd].
  split; [| split].
  - destruct st as [t c bo x s]. cbn [stop_evt] in Hstop. subst s.
    reflexivity.
  - reflexivity.
  - intros Hbackend.
    destruct (bus_open_failed_pythoncan oe1 b b1 e Hbackend Hopen) as (s & errors & -> & Hbus).
    intros env frame_id payload is_extended.
    exact (bus_send_unopened env b s errors frame_id payload is_extended Hbus).
Qed.

Lemma reopen_after_failed_open_reports_ok_witness :
  let steps := fst (bus_reopen_steps [no_device; no_device] closed_bus) in
  let b2 := snd (bus_reopen_steps [no_device; no_device] closed_bus) in
  reopen_loop steps initial_state
  = (mkRunState (tx_frames initial_state) 0 (1 # 2)
                (send_exception_count initial_state) false,
     Continue,
     [BusOpen; Emit "reopen_fail"; Sleep (backoff initial_state); BusOpen;
      Emit "reopen_ok"])
  /\ b2 = fst (CanBus.open no_device closed_bus)
  /\ (CanBus.backend closed_bus = "pythoncan"%string ->
      forall env frame_id payload is_extended,
        CanBus.send env b2 frame_id payload is_extended = (b2, Raise RuntimeError)).
Proof.
  apply (reopen_after_failed_open_reports_ok no_device no_device [] closed_bus
           (fst (CanBus.open no_device closed_bus)) RuntimeError initial_state).
  - reflexivity.
  - cbn. eauto.
  - reflexivity.
Defined.

Section BusCounters.

Lemma transport_send_counts (env : LinkEnv) (tr tr' : CanTransport) (r : result bool)
    (frame_id : Z) (payload : list byte) (is_extended : bool) :
  (forall s, tr <> TermuxUsbSlcanTransport s) ->
  Transport.send env tr frame_id payload is_extended = (tr', r) ->
  (forall s, tr' <> TermuxUsbSlcanTransport s)
  /\ Transport.tx_errors tr'
     = (Transport.tx_errors tr
        + match r with Ok false => 1 | _ => 0 end)%Z.
Proof.
  intros Hkind. destruct tr as [s | s | s]; [now destruct (Hkind s) | |];
    cbn [Transport.send Transport.tx_errors].
  - unfold PythonCan.send, PythonCan.send_body.
    destruct (PythonCan.bus s).
    + destruct (decide (PythonCan.backend s = Some "termux-usb"%string)).
      * destruct (PythonCan.termux_usb s).
        -- destruct (UsbSlcan.write_ascii env _) as [[] | []];
             intros H; injection H as <- <-; cbn; split; try discriminate; lia.
        -- intros H; injection H as <- <-; cbn; split; try discriminate; lia.
      * destruct (bus_send env) as [[] | []];
          intros H; injection H as <- <-; cbn; split; try discriminate; lia.
    + intros H; injection H as <- <-; cbn; split; try discriminate; lia.
  - unfold SlcanSerial.send.
    destruct (SlcanSerial.ser s).
    + destruct (SlcanSerial.format_frame frame_id payload is_extended).
      * destruct (SlcanSerial._write_cmd env s _);
          intros H; injection H as <- <-; cbn; split; try discriminate; lia.
      * intros H; injection H as <- <-; cbn; split; try discriminate; lia.
    + intros H; injection H as <- <-; cbn; split; try discriminate; lia.
Qed.

End BusCounters.

(** [CanBus.tx_errors] counts the sends that returned [False]: on a bus
    opened by [CanBus.open] (a python-can or serial SLCAN transport, with
    the two counters equal) it grows, over any run of [send] calls, by the
    number of them that returned [False]; a send that raises is not
    counted. *)
Theorem bus_tx_errors_counts_false_returns
    (calls : list SendCall) (b : CanBus.t) (tr : CanTransport) :
  CanBus.transport b = Some tr ->
  (forall s, tr <> TermuxUsbSlcanTransport s) ->
  CanBus.tx_errors b = Transport.tx_errors tr ->
  let b' := fst (bus_sends calls b) in
  let rs := snd (bus_sends calls b) in
  CanBus.tx_errors b' = (CanBus.tx_errors b + false_returns rs)%Z
  /\ List.length rs = List.length calls
  /\ exists tr', CanBus.transport b' = Some tr'
                 /\ CanBus.tx_errors b' = Transport.tx_errors tr'.
Proof.
  cbv zeta. revert b tr. induction calls as [| c rest IH]; intros b tr Htr Hkind Hsync.
  - cbn. split; [unfold false_returns; cbn; lia |]. split; [reflexivity |]. eauto.
  - cbn [bus_sends]. unfold CanBus.send. rewrite Htr.
    destruct (Transport.send (sc_env c) tr (sc_frame_id c) (sc_payload c)
                (sc_is_extended c)) as [tr' r] eqn:Hsend.
    destruct (transport_send_counts _ _ _ _ _ _ _ Hkind Hsend) as [Hkind' Hcount].
    set (b1 := match r with
               | Ok ok => (CanBus.set_transport b (Some tr') (Transport.tx_errors tr'), Ok ok)
               | Raise e => (CanBus.set_transport b (Some tr') (CanBus.tx_errors b), Raise e)
               end).
    assert (Hb1 : CanBus.transport (fst b1) = Some tr'
                  /\ CanBus.tx_errors (fst b1) = Transport.tx_errors tr'
                  /\ snd b1 = r).
    { subst b1. destruct r as [[] | e]; cbn; repeat split; lia. }
    destruct b1 as [b1 r1]. cbn [fst snd] in Hb1. destruct Hb1 as (Htr1 & Hsync1 & ->).
    specialize (IH b1 tr' Htr1 Hkind' Hsync1).
    destruct (bus_sends rest b1) as [b2 rs]. cbn [fst snd] in *.
    destruct IH as (Hcnt & Hlen & Hex). split; [| split; [cbn [List.length]; now rewrite Hlen | exact Hex]].
    rewrite Hcnt, Hsync1, Hcount, Hsync. unfold false_returns. cbn [List.filter].
    destruct r as [[] | e]; cbn [List.length]; lia.
Qed.

Lemma bus_tx_errors_counts_false_returns_witness :
  let b := CanBus.set_transport closed_bus (Some (PythonCanTransport pythoncan_open)) 0 in
  let calls := [mkSendCall failing_link 1512 payload8 false;
                mkSendCall failing_link 1513 payload8 false] in
  let b' := fst (bus_sends calls b) in
  let rs := snd (bus_sends calls b) in
  CanBus.tx_errors b' = (CanBus.tx_errors b + false_returns rs)%Z
  /\ List.length rs = List.length calls
  /\ exists tr', CanBus.transport b' = Some tr'
                 /\ CanBus.tx_errors b' = Transport.tx_errors tr'.
Proof.
  apply (bus_tx_errors_counts_false_returns
           [mkSendCall failing_link 1512 payload8 false;
            mkSendCall failing_link 1513 payload8 false]
           (CanBus.set_transport closed_bus (Some (PythonCanTransport pythoncan_open)) 0)
           (PythonCanTransport pythoncan_open)).
  - reflexivity.
  - intros s. discriminate.
  - reflexivity.
Defined.

(** After [_validate_settings] has accepted the settings, [CanBus.open]
    on a bus built from them succeeds whenever the environment is healthy,
    with one exception: the interface [termux-usb] passes the check on the
    pythoncan backend, and [open()] refuses it with [ValueError] in every
    environment. *)
Theorem validated_settings_open
    (backend iface : string) (channel bitrate : Z) (port : option string)
    (serial_baud : option Z) (skip_bitrate : bool) (oe : TransportOpen.OpenEnv) :
  Settings._validate_settings backend iface bitrate port skip_bitrate = Ok tt ->
  let b := CanBus.init iface channel bitrate (Some backend) port serial_baud
                       skip_bitrate in
  if decide (backend = "pythoncan"%string /\ iface = "termux-usb"%string)
  then snd (CanBus.open oe b) = Raise ValueError
  else healthy oe -> snd (CanBus.open oe b) = Ok tt.
Proof.
  unfold Settings._validate_settings. intros Hvalid. cbv zeta.
  destruct (decide (backend = "pythoncan"%string)) as [-> | Hnp].
  - destruct (decide (iface ∈ ["gs_usb"; "virtual"; "termux-usb"]%string)) as [Hin | ];
      [| discriminate].
    repeat (apply elem_of_cons in Hin as [-> | Hin]);
      try (apply elem_of_nil in Hin; contradiction).
    + destruct (decide _) as [[_ Heq] | _]; [discriminate |].
      intros (Hb & Hc & _). unfold CanBus.open, CanBus.open_transport. cbn.
      unfold TransportOpen.python_can_open. cbn. now rewrite Hb, Hc.
    + destruct (decide _) as [[_ Heq] | _]; [discriminate |].
      intros (Hb & Hc & _). unfold CanBus.open, CanBus.open_transport. cbn.
      unfold TransportOpen.python_can_open. cbn. now rewrite Hc.
    + destruct (decide _) as [_ | Hne]; [| now destruct Hne]. reflexivity.
  - destruct (decide (backend = "slcan"%string)) as [-> | ]; [| discriminate].
    destruct (decide _) as [[Heq _] | _]; [discriminate |].
    destruct (Settings.no_port port) eqn:Hport; [discriminate |].
    intros (_ & _ & Himp & Hctor & HlinkC & HlinkS & HlinkO).
    unfold CanBus.open, CanBus.open_transport, CanBus.init.
    cbn [CanBus.transport CanBus.backend CanBus.port CanBus.bitrate CanBus.iface
         CanBus.channel CanBus.serial_baud CanBus.slcan_skip_bitrate].
    destruct (decide ("slcan"%string = "pythoncan"%string)) as [Habs | _];
      [discriminate Habs |].
    destruct (decide ("slcan"%string = "slcan"%string)) as [_ | Hne];
      [| now destruct Hne].
    rewrite Hport. cbn [TransportOpen.open].
    unfold TransportOpen.slcan_serial_open. cbn [SlcanSerial.ser]. rewrite Himp, Hctor.
    cbn [SlcanSerial.set_ser SlcanSerial.bitrate SlcanSerial.skip_bitrate
         CanBus.bitrate CanBus.slcan_skip_bitrate].
    assert (Hcmd : forall env cmd s, healthy_link env -> SlcanSerial.ser s = Some tt ->
                     SlcanSerial._write_cmd env s cmd = Ok tt).
    { intros env cmd s (Hw & Hf & Hr) Hser. unfold SlcanSerial._write_cmd.
      rewrite Hser, Hw, Hf. cbn. unfold SlcanSerial._read_response.
      destruct (ser_read_until env) as [resp |]; [now rewrite (Hr resp eq_refl) | reflexivity]. }
    destruct (Settings.SLCAN_BITRATE_MAP !! bitrate) as [cmd |] eqn:Hmap.
    + rewrite !Hcmd by (assumption || reflexivity). reflexivity.
    + destruct skip_bitrate; [| now rewrite bool_decide_eq_true_2 in Hvalid].
      rewrite !Hcmd by (assumption || reflexivity). reflexivity.
Qed.

Lemma validated_settings_open_witness :
  snd (CanBus.open no_device
         (CanBus.init "termux-usb" 0 500000 (Some "pythoncan"%string) None None false))
  = Raise ValueError.
Proof.
  exact (validated_settings_open "pythoncan" "termux-usb" 0 500000 None None false
           no_device eq_refl).
Defined.

(** ** The text of an SLCAN frame *)

Section FrameText.

Lemma zeros_length (k : nat) : String.length (zeros k) = k.
Proof. induction k as [| k IH]; cbn [zeros String.length]; [reflexivity | now rewrite IH]. Qed.

Lemma string_app_length (s1 s2 : string) :
  String.length (s1 ++ s2)%string = (String.length s1 + String.length s2)%nat.
Proof.
  induction s1 as [| c s1 IH]; [reflexivity |].
  change (String c s1 ++ s2)%string with (String c (s1 ++ s2)).
  cbn [String.length]. now rewrite IH.
Qed.

Lemma string_app_assoc (s1 s2 s3 : string) :
  ((s1 ++ s2) ++ s3 = s1 ++ s2 ++ s3)%string.
Proof.
  induction s1 as [| c s1 IH]; [reflexivity |].
  change (String c (s1 ++ s2) ++ s3 = String c (s1 ++ s2 ++ s3))%string.
  change (String c (s1 ++ s2) ++ s3)%string with (String c ((s1 ++ s2) ++ s3)).
  now rewrite IH.
Qed.

(** A number below [16 ^ (k + 1)] is written with at most [k + 1]
    digits, and at least one. *)
Lemma hex_digits_length (fuel : nat) (n : Z) (acc : string) (k : nat) :
  (0 <= n < 16 ^ Z.of_nat (S k))%Z ->
  (String.length acc + 1 <= String.length (hex_digits fuel n acc)
   <= String.length acc + S k)%nat.
Proof.
  revert n acc k. induction fuel as [| fuel IH]; intros n acc k Hn.
  - cbn [hex_digits String.length]. lia.
  - cbn [hex_digits]. destruct (Z.eqb_spec (n / 16) 0) as [Hz | Hnz].
    + cbn [String.length]. lia.
    + destruct k as [| k].
      * exfalso. apply Hnz. apply Z.div_small. cbn in Hn. lia.
      * assert (Hdiv : (0 <= n / 16 < 16 ^ Z.of_nat (S k))%Z).
        { split; [apply Z.div_pos; lia |].
          apply Z.div_lt_upper_bound; [lia |].
          rewrite <- Z.pow_succ_r by lia. rewrite <- Nat2Z.inj_succ. lia. }
        pose proof (IH (n / 16)%Z (String (hex_digit (n mod 16)) acc) k Hdiv) as H.
        cbn [String.length] in H. lia.
Qed.

Lemma hexX_length (width : nat) (n : Z) :
  (0 < width)%nat -> (0 <= n < 16 ^ Z.of_nat width)%Z ->
  String.length (hexX width n) = width.
Proof.
  intros Hw Hn. unfold hexX. destruct width as [| k]; [lia |].
  pose proof (hex_digits_length (Z.to_nat (Z.log2 n)) n EmptyString k Hn) as H.
  cbn [String.length] in H.
  rewrite string_app_length, zeros_length. lia.
Qed.

Lemma bytes_hex_length (payload : list byte) :
  String.length (bytes_hex payload) = (2 * List.length payload)%nat.
Proof.
  induction payload as [| b rest IH]; [reflexivity |].
  cbn [bytes_hex List.length]. rewrite string_app_length, IH, hexX_length; [lia | lia |].
  pose proof (Byte.to_N_bounded b). change (16 ^ Z.of_nat 2)%Z with 256%Z. lia.
Qed.

Lemma format_frame_accepts (frame_id : Z) (payload : list byte) (is_extended : bool)
    (text : string) :
  SlcanSerial.format_frame frame_id payload is_extended = Ok text ->
  (List.length payload <= 8)%nat
  /\ (0 <= frame_id <= if is_extended then 536870911 else 2047)%Z
  /\ text = ((if is_extended then "T" ++ hexX 8 frame_id else "t" ++ hexX 3 frame_id)
             ++ hexX 1 (Z.of_nat (List.length payload)) ++ bytes_hex payload)%string.
Proof.
  unfold SlcanSerial.format_frame.
  destruct (Z.gtb_spec (Z.of_nat (List.length payload)) 8); [discriminate |].
  destruct is_extended.
  - destruct (Z.gtb_spec frame_id 536870911); [discriminate |].
    destruct (Z.ltb_spec frame_id 0); [discriminate |]. cbn [orb].
    intros Heq. injection Heq as <-. repeat split; lia.
  - destruct (Z.gtb_spec frame_id 2047); [discriminate |].
    destruct (Z.ltb_spec frame_id 0); [discriminate |]. cbn [orb].
    intros Heq. injection Heq as <-. repeat split; lia.
Qed.

End FrameText.

(** The text [format_frame] returns has a fixed width: the command
    letter, 3 or 8 digits of identifier, one digit of length and two per
    payload byte; in particular it is never shorter than the 5 (or 10)
    characters [recv] asks of a line before it parses it. *)
Theorem format_frame_width
    (frame_id : Z) (payload : list byte) (is_extended : bool) (text : string) :
  SlcanSerial.format_frame frame_id payload is_extended = Ok text ->
  String.length text
  = ((if is_extended then 10 else 5) + 2 * List.length payload)%nat.
Proof.
  intros H. apply format_frame_accepts in H as (Hlen & Hid & ->).
  rewrite string_app_length, string_app_length, bytes_hex_length.
  rewrite (hexX_length 1) by (change (16 ^ Z.of_nat 1)%Z with 16%Z; lia).
  destruct is_extended; rewrite string_app_length; cbn [String.length].
  - rewrite (hexX_length 8) by (change (16 ^ Z.of_nat 8)%Z with 4294967296%Z; lia). lia.
  - rewrite (hexX_length 3) by (change (16 ^ Z.of_nat 3)%Z with 4096%Z; lia). lia.
Qed.

Lemma format_frame_width_witness :
  String.length "t5E881122334455667788"
  = ((if false then 10 else 5) + 2 * List.length payload8)%nat.
Proof.
  apply (format_frame_width 1512 payload8 false "t5E881122334455667788").
  reflexivity.
Defined.

(** The two SLCAN writers put the same characters on the wire: for a
    frame [SlcanSerialTransport.format_frame] accepts, the text the Termux
    transport builds in [send] is the text of [format_frame] followed by
    the carriage return [_write_cmd] appends. *)
Theorem slcan_writers_agree
    (frame_id : Z) (payload : list byte) (is_extended : bool) (text : string) :
  SlcanSerial.format_frame frame_id payload is_extended = Ok text ->
  Termux.frame_text frame_id payload is_extended = (text ++ CR)%string.
Proof.
  intros H. apply format_frame_accepts in H as (Hlen & Hid & ->).
  unfold Termux.frame_text. destruct is_extended.
  - now rewrite !string_app_assoc.
  - assert (Hmask : Z.land frame_id 2047 = frame_id).
    { change 2047%Z with (Z.ones 11). rewrite Z.land_ones by lia.
      apply Z.mod_small. change (2 ^ 11)%Z with 2048%Z. lia. }
    rewrite Hmask. now rewrite !string_app_assoc.
Qed.

Lemma slcan_writers_agree_witness :
  Termux.frame_text 1512 payload8 false = ("t5E881122334455667788" ++ CR)%string.
Proof.
  apply (slcan_writers_agree 1512 payload8 false "t5E881122334455667788").
  reflexivity.
Defined.
